(** * GenAI Graph Explorer front end: graph merge, text fitting, request
      gateway and backend-availability overlay

    A shallow embedding of the client-side controller (the [script.js]
    revisions of the repository) together with the properties its design
    document states about it.

    Conventions.
    - A JavaScript string is the list of its UTF-16 code units, so that
      [length] is the [.length] of the source and [slice(0, -1)] drops
      exactly one unit.
    - JavaScript objects used as records are Rocq records; a field that may
      be [undefined]/[null] is an [option].
    - The Cytoscape core ([cy]) is a finite map from element id to element
      data; the header object of a request is a finite map from header name
      to value.
    - [Date.now()], [Math.random()] and the outcome of [fetch] are inputs of
      the transition they occur in. *)

From Stdlib Require Import QArith Qround.
From stdpp Require Import base tactics option list gmap fin_maps strings.
From Equations Require Import Equations.

Local Open Scope Z_scope.

(* ===================================================================== *)
(** * JavaScript strings                                                  *)
(* ===================================================================== *)

Module Js.

(** A string value: UTF-16 code units. *)
Abbreviation str := (list N).

(** Decoding of a source literal (written in UTF-8 in this file) into
    code units; all literals of the program are in the basic plane. *)
Fixpoint utf16 (bs : list N) : str :=
  match bs with
  | [] => []
  | b :: r =>
      if (b <? 128)%N then b :: utf16 r
      else if (b <? 224)%N then
        match r with
        | c :: r' => ((b - 192) * 64 + (c - 128))%N :: utf16 r'
        | [] => []
        end
      else
        match r with
        | c :: d :: r' =>
            ((b - 224) * 4096 + (c - 128) * 64 + (d - 128))%N :: utf16 r'
        | _ => []
        end
  end.

Definition lit (s : string) : str :=
  utf16 (map Ascii.N_of_ascii (String.list_ascii_of_string s)).

(** ["…"], U+2026, a single code unit. *)
Definition ELLIPSIS : str := [8230%N].

(** [s.slice(0, -1)]. *)
Definition slice_0_m1 (s : str) : str := take (length s - 1)%nat s.

(** White space and line terminators, as stripped by [String.prototype.trim]. *)
Definition isWhiteSpace (c : N) : bool :=
  ((c =? 9) || (c =? 10) || (c =? 11) || (c =? 12) || (c =? 13) || (c =? 32)
   || (c =? 160) || (c =? 5760) || ((8192 <=? c) && (c <=? 8202))
   || (c =? 8232) || (c =? 8233) || (c =? 8239) || (c =? 8287)
   || (c =? 12288) || (c =? 65279))%N.

Fixpoint trimStart (s : str) : str :=
  match s with
  | c :: r => if isWhiteSpace c then trimStart r else s
  | [] => []
  end.

Definition trimEnd (s : str) : str := rev (trimStart (rev s)).

Definition trim (s : str) : str := trimEnd (trimStart s).

(** [x || dflt] for a string that may be [undefined], [null] or empty. *)
Definition orElse (x : option str) (dflt : str) : str :=
  match x with
  | Some (c :: r) => c :: r
  | _ => dflt
  end.

(** Decimal rendering of an integer, as [String(n)] / template literals do. *)
Definition digit (d : Z) : N := (48 + Z.to_N d)%N.

Fixpoint digitsFuel (fuel : nat) (n : Z) (acc : str) : str :=
  match fuel with
  | O => acc
  | S f =>
      if n <? 10 then digit n :: acc
      else digitsFuel f (n / 10) (digit (n mod 10) :: acc)
  end.

Definition ofInt (n : Z) : str :=
  if n <? 0 then 45%N :: digitsFuel (Z.to_nat (- n)) (- n) []
  else digitsFuel (S (Z.to_nat n)) n [].

(** [v.toString(16)] for [0 <= v < 16]. *)
Definition hexDigit (v : Z) : N :=
  if v <? 10 then (48 + Z.to_N v)%N else (87 + Z.to_N v)%N.

(** [s.startsWith(sub)] and [s.includes(sub)]. *)
Fixpoint startsWith (s sub : str) : bool :=
  match sub, s with
  | [], _ => true
  | p :: sub, c :: s => (c =? p)%N && startsWith s sub
  | _ :: _, [] => false
  end.

Fixpoint includes (s sub : str) : bool :=
  startsWith s sub
  || match s with
     | [] => false
     | _ :: r => includes r sub
     end.

(** ** Vocabulary of the properties stated further down *)

(** Every unit of the string is an ASCII character. *)
Definition isAscii (s : str) : Prop := Forall (fun c => (c < 128)%N) s.

(** The string with its ASCII letters in upper case, as
    [String.prototype.toUpperCase] leaves a string of ASCII characters. *)
Definition asciiUpperCase (s : str) : str :=
map (fun c => if ((97 <=? c) && (c <=? 122))%N then (c - 32)%N else c) s.

End Js.

Abbreviation jsstr := Js.str.

(* ===================================================================== *)
(** * Text measurer                                                       *)
(* ===================================================================== *)

Module TextMeasurer.
Section WithCanvas.

(** [textMetrics.measure(text, font)]: the canvas primitive, a width in
    pixels. *)
Variable measure : jsstr -> jsstr -> Q.

(** The [while] loop of [truncateTextToFit]: drop the last unit while the
    candidate followed by the ellipsis is still wider than [maxWidth]. *)
Equations? truncateLoop (maxWidth : Q) (font : jsstr) (truncated : jsstr)
  : jsstr by wf (length truncated) lt :=
  truncateLoop maxWidth font truncated
    with Equations.Prop.Logic.inspect (bool_decide (0 < length truncated)%nat
                  && negb (Qle_bool (measure (truncated ++ Js.ELLIPSIS) font)
                             maxWidth)) => {
    | exist _ true e => truncateLoop maxWidth font (Js.slice_0_m1 truncated);
    | exist _ false _ => truncated }.
Proof.
  apply andb_prop in e as [Hlen _]. apply bool_decide_eq_true in Hlen.
  unfold Js.slice_0_m1. rewrite length_take. lia.
Qed.

Definition truncateTextToFit (text : jsstr) (maxWidth : Q) (font : jsstr)
  : jsstr :=
  if Qle_bool (measure text font) maxWidth then text
  else truncateLoop maxWidth font text ++ Js.ELLIPSIS.

Record NodeVisuals := { nv_displayName : jsstr; nv_fontSize : Z }.

Definition computeNodeVisuals (rawName : option jsstr) : NodeVisuals :=
  let name := Js.trim (Js.orElse rawName (Js.lit "Untitled")) in
  let fontSize := 16 in
  let font :=
    Js.lit "600 " ++ Js.ofInt fontSize ++ Js.lit "px " ++ [34%N]
      ++ Js.lit "Segoe UI" ++ [34%N] in
  let maxTextWidth := 94%Q in
  let displayName := truncateTextToFit name maxTextWidth font in
  {| nv_displayName := displayName; nv_fontSize := fontSize |}.

(** ** Vocabulary of the properties stated further down *)

(** The candidate [p], followed by the ellipsis, fits the budget. *)
Definition fits (maxWidth : Q) (font : jsstr) (p : jsstr) : Prop :=
  (measure (p ++ Js.ELLIPSIS) font <= maxWidth)%Q.

End WithCanvas.
End TextMeasurer.

(* ===================================================================== *)
(** * The rendering engine, as far as the merge algorithm uses it         *)
(* ===================================================================== *)

(** The Cytoscape core is a third-party library and not part of the
    repository. Only the three operations [mergeGraph] calls are described
    here, as the library behaves:
    - [cy.getElementById(id)] yields the element with that id, or an empty
      collection;
    - [ele.data(obj)] assigns every field of [obj] except the immutable ones
      ([id], [source], [target], [parent]);
    - [cy.add(list)] first makes the collection of the new elements, passing
      over, without an error, an entry whose id is the id of an element of
      the graph or of an earlier entry of the list; then it restores the
      nodes of the collection and after them its edges, one at a time, and
      throws at the first entry whose id is the empty string or, for an
      edge, whose source or target is empty or is not the id of an element
      of the graph. What was restored before the error stays in the graph;
      nothing after it is restored. *)
Module Cytoscape.

(** The data of an element in the graph, the id apart (it is the key). *)
Record Data := mkData {
  source : option jsstr;
  target : option jsstr;
  label : option jsstr;
  name : option jsstr;
  description : option jsstr;
  displayName : option jsstr;
  fontSize : option Z
}.

(** The [data] object [mergeGraph] builds for a node ... *)
Record NodeObj := mkNodeObj {
  n_id : jsstr;
  n_name : option jsstr;
  n_description : option jsstr;
  n_displayName : jsstr;
  n_fontSize : Z
}.

(** ... and for an edge. *)
Record EdgeObj := mkEdgeObj {
  e_id : jsstr;
  e_source : jsstr;
  e_target : jsstr;
  e_label : jsstr
}.

(** An entry [{ data }] of the list given to [cy.add]. The group is
    inferred by the library: an entry whose data has a source and a target
    is an edge, any other a node. *)
Inductive ElementJson :=
| NodeJson (d : NodeObj)
| EdgeJson (d : EdgeObj).

Definition jsonId (j : ElementJson) : jsstr :=
  match j with NodeJson d => n_id d | EdgeJson d => e_id d end.

Definition isNodeJson (j : ElementJson) : bool :=
  match j with NodeJson _ => true | EdgeJson _ => false end.

Definition isEdgeJson (j : ElementJson) : bool := negb (isNodeJson j).

Definition nodeData (d : NodeObj) : Data :=
  {| source := None; target := None; label := None;
     name := n_name d; description := n_description d;
     displayName := Some (n_displayName d); fontSize := Some (n_fontSize d) |}.

Definition edgeData (d : EdgeObj) : Data :=
  {| source := Some (e_source d); target := Some (e_target d);
     label := Some (e_label d);
     name := None; description := None; displayName := None;
     fontSize := None |}.

Definition isEdge (d : Data) : bool :=
  bool_decide (is_Some (source d)) && bool_decide (is_Some (target d)).

(** The graph: element id to element data. *)
Abbreviation Core := (gmap jsstr Data).

Definition getElementById (cy : Core) (id : jsstr) : option Data := cy !! id.

Definition hasElementWithId (cy : Core) (id : jsstr) : bool :=
  bool_decide (is_Some (cy !! id)).

(** [ele.data(obj)] with the node object of [mergeGraph]: [id] is
    immutable, the other four fields are assigned. *)
Definition setData (obj : NodeObj) (ele : Data) : Data :=
  {| source := source ele; target := target ele; label := label ele;
     name := n_name obj; description := n_description obj;
     displayName := Some (n_displayName obj);
     fontSize := Some (n_fontSize obj) |}.

(** The error [cy.add] throws. *)
Inductive AddError :=
| InvalidId                                   (* an empty id *)
| DuplicateId (id : jsstr)                    (* a second element with the id *)
| UnspecifiedEndpoint (edge : jsstr)          (* an empty source or target *)
| NonexistentEndpoint (edge endpoint : jsstr).  (* no element with that id *)

(** How a call that changes the graph ends: the graph it leaves, and the
    error it threw, if any. *)
Record Outcome := mkOutcome {
  graph : Core;
  thrown : option AddError
}.

(** The data an entry is stored with. *)
Definition dataOf (j : ElementJson) : Data :=
  match j with NodeJson d => nodeData d | EdgeJson d => edgeData d end.

(** The collection [cy.add] makes of the list: an entry whose id is in the
    graph, or is the id of an entry kept before it, is passed over. *)
Fixpoint created (cy : Core) (ids : gset jsstr) (jsons : list ElementJson)
  : list ElementJson :=
  match jsons with
  | [] => []
  | j :: jsons =>
      if hasElementWithId cy (jsonId j) || bool_decide (jsonId j ∈ ids)
      then created cy ids jsons
      else j :: created cy (ids ∪ {[jsonId j]}) jsons
  end.

(** The test of one endpoint of an edge. *)
Definition checkEndpoint (cy : Core) (edge v : jsstr) : option AddError :=
  if bool_decide (v = []) then Some (UnspecifiedEndpoint edge)
  else if negb (hasElementWithId cy v) then Some (NonexistentEndpoint edge v)
  else None.

(** The tests [restore] makes before it puts an entry into the graph. *)
Definition refusal (cy : Core) (j : ElementJson) : option AddError :=
  if bool_decide (jsonId j = []) then Some InvalidId
  else if hasElementWithId cy (jsonId j) then Some (DuplicateId (jsonId j))
  else match j with
       | NodeJson _ => None
       | EdgeJson d =>
           match checkEndpoint cy (e_id d) (e_source d) with
           | Some err => Some err
           | None => checkEndpoint cy (e_id d) (e_target d)
           end
       end.

(** The loop of [restore]: entries are put into the graph one after the
    other until one is refused. *)
Fixpoint restore (cy : Core) (eles : list ElementJson) : Outcome :=
  match eles with
  | [] => {| graph := cy; thrown := None |}
  | j :: eles =>
      match refusal cy j with
      | Some err => {| graph := cy; thrown := Some err |}
      | None => restore (<[jsonId j := dataOf j]> cy) eles
      end
  end.

(** The order in which [restore] takes the entries of the collection: its
    nodes, then its edges. *)
Definition nodesFirst (eles : list ElementJson) : list ElementJson :=
  List.filter isNodeJson eles ++ List.filter isEdgeJson eles.

Definition add (cy : Core) (eles : list ElementJson) : Outcome :=
  restore cy (nodesFirst (created cy ∅ eles)).

(** ** Vocabulary of the properties stated further down *)

(** Two elements with the same endpoints and label. *)
Definition sameEnds (e e' : Data) : Prop :=
source e' = source e /\ target e' = target e /\ label e' = label e.

(** [s] is usable as an endpoint in [g]. *)
Definition endpointIn (g : Core) (s : jsstr) : Prop :=
s <> [] /\ is_Some (g !! s).

(** The id of the entry is not yet in the graph. *)
Definition absent (g : Core) (j : ElementJson) : bool :=
negb (hasElementWithId g (jsonId j)).

End Cytoscape.

(* ===================================================================== *)
(** * Graph merge engine                                                  *)
(* ===================================================================== *)

Module GraphMerge.
Import Cytoscape.

(** Node and edge objects of a server payload, and the payload itself
    ([nodes] and [edges] may be missing). *)
Record PNode := mkPNode {
  id : jsstr;
  pname : option jsstr;
  pdescription : option jsstr
}.

Record PEdge := mkPEdge {
  source_id : jsstr;
  target_id : jsstr;
  plabel : jsstr
}.

Record GraphData := mkGraphData {
  nodes : option (list PNode);
  edges : option (list PEdge)
}.

(** The state [mergeGraph] works on: the graph, the list of queued
    insertions and the set of edge ids met in this call. *)
Record MergeState := mkMergeState {
  cy : Core;
  elementsToAdd : list ElementJson;
  seenEdgeIds : gset jsstr
}.

(** [`${edge.source_id}-${edge.target_id}-${edge.label}`] *)
Definition edgeId (edge : PEdge) : jsstr :=
  source_id edge ++ Js.lit "-" ++ target_id edge ++ Js.lit "-" ++ plabel edge.

(** ** Vocabulary of the properties stated further down *)

(** The entry queued for a payload edge. *)
Definition edgeObj (edge : PEdge) : EdgeObj :=
{| e_id := edgeId edge; e_source := source_id edge;
   e_target := target_id edge; e_label := plabel edge |}.

(** The edge entries queued by the second loop, given the graph it looks
    into and the ids already met. *)
Fixpoint edgeQueue (g : Core) (seen : gset jsstr) (es : list PEdge)
  : list ElementJson :=
match es with
| [] => []
| e :: es =>
    if bool_decide (edgeId e ∈ seen) then edgeQueue g seen es
    else match g !! edgeId e with
         | Some _ => []
         | None => [EdgeJson (edgeObj e)]
         end
           ++ edgeQueue g (seen ∪ {[edgeId e]}) es
end.



(** Payload nodes that share an id carry the same name and description. *)
Definition consistentNodes (ns : list PNode) : Prop :=
forall n n', n ∈ ns -> n' ∈ ns -> id n = id n' -> n = n'.

(** The node and edge lists a payload stands for ([x || []]). *)
Definition payloadNodes (p : option GraphData) : list PNode :=
match p with Some d => default [] (nodes d) | None => [] end.

Definition payloadEdges (p : option GraphData) : list PEdge :=
match p with Some d => default [] (edges d) | None => [] end.


(** [v] can be the endpoint of an edge of the payload: it is not empty, and
    it is the id of an element of the graph or of a node of the payload. *)
Definition drawable (g : Core) (p : option GraphData) (v : jsstr) : Prop :=
v <> [] /\ (is_Some (g !! v) \/ exists n, n ∈ payloadNodes p /\ id n = v).

(** A payload [cy.add] has no reason to refuse: every node has an id, and
    both ends of every edge can be drawn. *)
Definition wellFormed (g : Core) (p : option GraphData) : Prop :=
(forall n, n ∈ payloadNodes p -> id n <> [])
/\ (forall e, e ∈ payloadEdges p ->
      drawable g p (source_id e) /\ drawable g p (target_id e)).


Section WithCanvas.
Variable measure : jsstr -> jsstr -> Q.

Definition nodeObj (node : PNode) : NodeObj :=
  let visuals := TextMeasurer.computeNodeVisuals measure (pname node) in
  {| n_id := id node;
     n_name := pname node;
     n_description := pdescription node;
     n_displayName := TextMeasurer.nv_displayName visuals;
     n_fontSize := TextMeasurer.nv_fontSize visuals |}.

(** Body of the first [forEach]. *)
Definition mergeNode (st : MergeState) (node : PNode) : MergeState :=
  let data := nodeObj node in
  match getElementById (cy st) (id node) with
  | Some existingNode =>
      {| cy := <[id node := setData data existingNode]> (cy st);
         elementsToAdd := elementsToAdd st;
         seenEdgeIds := seenEdgeIds st |}
  | None =>
      {| cy := cy st;
         elementsToAdd := elementsToAdd st ++ [NodeJson data];
         seenEdgeIds := seenEdgeIds st |}
  end.

(** Body of the second [forEach]. *)
Definition mergeEdge (st : MergeState) (edge : PEdge) : MergeState :=
  let edgeId := edgeId edge in
  if bool_decide (edgeId ∈ seenEdgeIds st) then st
  else
    let seen := seenEdgeIds st ∪ {[edgeId]} in
    match getElementById (cy st) edgeId with
    | Some _ =>
        {| cy := cy st; elementsToAdd := elementsToAdd st;
           seenEdgeIds := seen |}
    | None =>
        {| cy := cy st;
           elementsToAdd :=
             elementsToAdd st
               ++ [EdgeJson {| e_id := edgeId; e_source := source_id edge;
                               e_target := target_id edge;
                               e_label := plabel edge |}];
           seenEdgeIds := seen |}
    end.

(** [mergeGraph] has no [try]: an error of [cy.add] ends the call, and the
    graph stays as [cy.add] left it. *)
Definition mergeGraph (graphData : option GraphData) (g : Core) : Outcome :=
  match graphData with
  | None => {| graph := g; thrown := None |}
  | Some graphData =>
      let st := {| cy := g; elementsToAdd := []; seenEdgeIds := ∅ |} in
      let st := foldl mergeNode st (default [] (nodes graphData)) in
      let st := foldl mergeEdge st (default [] (edges graphData)) in
      if bool_decide (0 < length (elementsToAdd st))%nat
      then add (cy st) (elementsToAdd st)
      else {| graph := cy st; thrown := None |}
  end.

(** ** Vocabulary of the properties stated further down *)

(** The node entries queued by the first loop. *)
Definition nodeQueue (g : Core) (ns : list PNode) : list ElementJson :=
(fun n => NodeJson (nodeObj n))
  <$> List.filter (fun n => bool_decide (g !! id n = None)) ns.

(** The graph after the first loop. *)
Definition afterNodes (g : Core) (ns : list PNode) : Core :=
cy (foldl mergeNode
      {| cy := g; elementsToAdd := []; seenEdgeIds := ∅ |} ns).

(** The list given to [cy.add]. *)
Definition batch (g : Core) (ns : list PNode) (es : list PEdge)
  : list ElementJson :=
nodeQueue g ns ++ edgeQueue (afterNodes g ns) ∅ es.

(** The graph after a sequence of calls, each in the graph the one before
    left, whether it threw or not. *)
Definition merges (payloads : list (option GraphData)) (g : Core) : Core :=
foldl (fun g p => graph (mergeGraph p g)) g payloads.

End WithCanvas.
End GraphMerge.

(* ===================================================================== *)
(** * The browser services the overlay code uses                          *)
(* ===================================================================== *)

Module Browser.

(** What a registered timer runs. [setTimeout] and [setInterval] draw their
    handles from one table, and handles are positive numbers (hence truthy
    in the [if (id)] tests of the program). *)
Inductive Callback :=
| UpdateBackendWaitMessage     (* setInterval(updateBackendWaitMessage, 1000) *)
| UpdateDatabaseWaitMessage    (* setInterval(updateDatabaseWaitMessage, 1000) *)
| HealthCheck                  (* the recovery poller of beginBackendRecovery *)
| TransientExpiry.             (* the setTimeout of showTransientStatus *)

#[export] Instance Callback_eq_dec : EqDecision Callback.
Proof. solve_decision. Defined.

Record Timers := mkTimers {
  active : gmap positive Callback;
  nextHandle : positive
}.

Definition setTimer (cb : Callback) (t : Timers) : positive * Timers :=
  (nextHandle t,
   {| active := <[nextHandle t := cb]> (active t);
      nextHandle := (nextHandle t + 1)%positive |}).

(** [clearInterval(id)] / [clearTimeout(id)]; [null] clears nothing. *)
Definition clearTimer (id : option positive) (t : Timers) : Timers :=
  match id with
  | Some h => {| active := delete h (active t); nextHandle := nextHandle t |}
  | None => t
  end.

(** The handles of the live timers that run [cb]. *)
Definition running (cb : Callback) (t : Timers) : gset positive :=
  dom (filter (fun kv => kv.2 = cb) (active t)).

(** What [response.json()] settles with: the value parsed from the body,
    written as JSON text, or a rejection with the message of the error when
    the body is not JSON. An error of the engine has a message; it is given
    by its first unit and the rest. *)
Inductive JsonOutcome :=
| Parsed (value : jsstr)
| NotJson (c : N) (message : jsstr).

(** The body of a response, as the program can read it: the content type
    of the headers ([null] when there is none), what [response.text()]
    gives and what [response.json()] gives. *)
Record Body := mkBody {
  contentType : option jsstr;
  bodyText : jsstr;
  bodyJson : JsonOutcome
}.

(** What [fetch] gave: a rejected promise, or a response. *)
Inductive FetchOutcome :=
| NetworkError
| Response (status : Z) (body : Body).

(** [response.ok] *)
Definition ok (status : Z) : bool := (200 <=? status) && (status <=? 299).

(** [Math.round(ms / 1000)] for an integer number of milliseconds. *)
Definition roundSeconds (ms : Z) : Z := (ms + 500) / 1000.

(** ** Vocabulary of the properties stated further down *)

(** Every live handle was handed out before: [setTimer] never reuses one. *)
Definition fresh (t : Timers) : Prop :=
forall h c, active t !! h = Some c -> (h < nextHandle t)%positive.

(** The live timers that run [cb] are exactly the one whose handle the
    program holds in [owner], none when it holds [null]. *)
Definition owns (t : Timers) (cb : Callback) (owner : option positive) : Prop :=
forall h, active t !! h = Some cb <-> owner = Some h.

End Browser.

(* ===================================================================== *)
(** * Overlay and backend-availability state (backend wait only)          *)
(* ===================================================================== *)

(** The revision without the datastore readiness state
  ([overlayState], [backendWaitState], [backendHealthCheckIntervalId]). *)
Module Overlay.
Import Browser.

Definition BACKEND_ESTIMATED_SPINUP_SECONDS : Z := 50.
Definition BACKEND_STATUS_POLL_INTERVAL : Z := 10000.

Record OverlayState := mkOverlayState {
  taskDepth : Z;
  taskMessage : jsstr;
  backend_active : bool;
  backend_message : jsstr;
  transient_active : bool;
  transient_message : jsstr;
  transient_timeoutId : option positive
}.

Record BackendWaitState := mkBackendWaitState {
  active : bool;
  timerId : option positive;
  startTime : option Z;
  baseMessage : jsstr
}.

(** The page: the three module-level variables, the overlay element (its
    [hidden] class and the text of its paragraph) and the timer table. *)
Record Page := mkPage {
  overlayState : OverlayState;
  backendWaitState : BackendWaitState;
  backendHealthCheckIntervalId : option positive;
  overlayHidden : bool;
  overlayMessage : jsstr;
  timers : Timers
}.

Definition initialPage : Page :=
  {| overlayState :=
       {| taskDepth := 0; taskMessage := Js.lit "Working…";
          backend_active := false; backend_message := [];
          transient_active := false; transient_message := [];
          transient_timeoutId := None |};
     backendWaitState :=
       {| active := false; timerId := None; startTime := None;
          baseMessage := Js.lit "Spinning up backend…" |};
     backendHealthCheckIntervalId := None;
     overlayHidden := true;
     overlayMessage := Js.lit "Working…";
     timers := {| Browser.active := ∅; nextHandle := 1 |} |}.

Definition withOverlayState (o : OverlayState) (p : Page) : Page :=
  mkPage o (backendWaitState p) (backendHealthCheckIntervalId p)
    (overlayHidden p) (overlayMessage p) (timers p).

Definition withBackendWaitState (w : BackendWaitState) (p : Page) : Page :=
  mkPage (overlayState p) w (backendHealthCheckIntervalId p)
    (overlayHidden p) (overlayMessage p) (timers p).

Definition withIntervalId (i : option positive) (p : Page) : Page :=
  mkPage (overlayState p) (backendWaitState p) i
    (overlayHidden p) (overlayMessage p) (timers p).

Definition withTimers (t : Timers) (p : Page) : Page :=
  mkPage (overlayState p) (backendWaitState p)
    (backendHealthCheckIntervalId p) (overlayHidden p) (overlayMessage p) t.

(** [overlayMessage.textContent = text] and the [hidden] class. *)
Definition display (hidden : bool) (text : jsstr) (p : Page) : Page :=
  mkPage (overlayState p) (backendWaitState p)
    (backendHealthCheckIntervalId p) hidden text (timers p).

Definition refreshOverlay (p : Page) : Page :=
  let o := overlayState p in
  if 0 <? taskDepth o then display false (taskMessage o) p
  else if backend_active o then display false (backend_message o) p
  else if transient_active o then display false (transient_message o) p
  else display true (Js.lit "Working…") p.

Definition showLoading (message : jsstr) (p : Page) : Page :=
  let o := overlayState p in
  refreshOverlay
    (withOverlayState
       (mkOverlayState (taskDepth o + 1) message
          (backend_active o) (backend_message o)
          (transient_active o) (transient_message o)
          (transient_timeoutId o)) p).

Definition hideLoading (p : Page) : Page :=
  let o := overlayState p in
  refreshOverlay
    (withOverlayState
       (mkOverlayState (Z.max 0 (taskDepth o - 1)) (taskMessage o)
          (backend_active o) (backend_message o)
          (transient_active o) (transient_message o)
          (transient_timeoutId o)) p).

Definition showTransientStatus (message : jsstr) (duration : Z) (p : Page)
  : Page :=
  let p := withTimers
             (clearTimer (transient_timeoutId (overlayState p)) (timers p)) p in
  let '(h, t) := setTimer TransientExpiry (timers p) in
  let o := overlayState p in
  refreshOverlay
    (withTimers t
       (withOverlayState
          (mkOverlayState (taskDepth o) (taskMessage o)
             (backend_active o) (backend_message o)
             true message (Some h)) p)).

(** The callback given to [setTimeout] by [showTransientStatus]. *)
Definition transientExpired (p : Page) : Page :=
  let o := overlayState p in
  refreshOverlay
    (withOverlayState
       (mkOverlayState (taskDepth o) (taskMessage o)
          (backend_active o) (backend_message o)
          false (transient_message o) None) p).

Definition waitMessage (baseMessage : jsstr) (elapsedSeconds : Z) : jsstr :=
  baseMessage ++ Js.lit " " ++ Js.ofInt elapsedSeconds ++ Js.lit "s / ~"
    ++ Js.ofInt BACKEND_ESTIMATED_SPINUP_SECONDS ++ Js.lit "s".

Definition updateBackendWaitMessage (now : Z) (p : Page) : Page :=
  let w := backendWaitState p in
  if negb (active w) then p
  else
    let elapsedSeconds := roundSeconds (now - default 0 (startTime w)) in
    let message := waitMessage (baseMessage w) elapsedSeconds in
    let o := overlayState p in
    refreshOverlay
      (withOverlayState
         (mkOverlayState (taskDepth o) (taskMessage o) true message
            (transient_active o) (transient_message o)
            (transient_timeoutId o)) p).

Definition startBackendWait (now : Z) (messagePrefix : jsstr) (p : Page)
  : Page :=
  let w := backendWaitState p in
  let p := withBackendWaitState
             (mkBackendWaitState (active w) (timerId w) (startTime w)
                messagePrefix) p in
  let p :=
    if negb (active (backendWaitState p)) then
      let '(h, t) := setTimer UpdateBackendWaitMessage (timers p) in
      withTimers t
        (withBackendWaitState
           (mkBackendWaitState true (Some h) (Some now) messagePrefix) p)
    else p in
  updateBackendWaitMessage now p.

Definition beginBackendRecovery (now : Z) (messagePrefix : jsstr) (p : Page)
  : Page :=
  let p := startBackendWait now messagePrefix p in
  match backendHealthCheckIntervalId p with
  | Some _ => p
  | None =>
      let '(h, t) := setTimer HealthCheck (timers p) in
      withIntervalId (Some h) (withTimers t p)
  end.

Definition stopBackendWait (p : Page) : Page :=
  let w := backendWaitState p in
  if negb (active w) then p
  else
    let p := withBackendWaitState
               (mkBackendWaitState false (timerId w) (startTime w)
                  (baseMessage w)) p in
    let p :=
      match timerId w with
      | Some h =>
          withBackendWaitState
            (mkBackendWaitState false None (startTime w) (baseMessage w))
            (withTimers (clearTimer (Some h) (timers p)) p)
      | None => p
      end in
    let o := overlayState p in
    refreshOverlay
      (withOverlayState
         (mkOverlayState (taskDepth o) (taskMessage o) false []
            (transient_active o) (transient_message o)
            (transient_timeoutId o)) p).

Definition markBackendOnline (p : Page) : Page :=
  let p := stopBackendWait p in
  match backendHealthCheckIntervalId p with
  | Some h => withIntervalId None (withTimers (clearTimer (Some h) (timers p)) p)
  | None => p
  end.

(** [pingBackend], from the moment its [fetch] of [/health] settles. *)
Definition pingBackend (health : FetchOutcome) (p : Page) : bool * Page :=
  match health with
  | Response status _ =>
      if ok status then (true, markBackendOnline p) else (false, p)
  | NetworkError => (false, p)
  end.

Definition evaluateHealthStatus (now : Z) (messagePrefix : jsstr)
    (health : FetchOutcome) (p : Page) : bool * Page :=
  let '(isOnline, p) := pingBackend health p in
  if negb isOnline then (isOnline, beginBackendRecovery now messagePrefix p)
  else (isOnline, p).

(** The part of the poller's callback that follows [await pingBackend()]. *)
Definition pollContinuation (recovered : bool) (p : Page) : Page :=
  if recovered then
    withIntervalId None
      (withTimers (clearTimer (backendHealthCheckIntervalId p) (timers p)) p)
  else p.

(** The poller's callback, run without interruption. *)
Definition healthCheckTick (health : FetchOutcome) (p : Page) : Page :=
  let '(recovered, p) := pingBackend health p in
  pollContinuation recovered p.

(** How [request] ends: with the parsed body (or [null]), or by throwing
    an [Error] with a message. *)
Inductive Completion (A : Type) :=
| Returned (v : A)
| Thrown (message : jsstr).
Arguments Returned {A} v.
Arguments Thrown {A} message.

(** The end of [request], after [markBackendOnline()]: [null] for a
    status of 204 and for a body that is not declared as JSON, else what
    [response.json()] settles with. *)
Definition readBody (status : Z) (body : Body) : Completion (option jsstr) :=
  if status =? 204 then Returned None
  else
    let contentType := Js.orElse (contentType body) [] in
    if Js.includes contentType (Js.lit "application/json") then
      match bodyJson body with
      | Parsed value => Returned (Some value)
      | NotJson c message => Thrown (c :: message)
      end
    else Returned None.

(** [request], from the moment [fetch] settles. *)
Definition request (now : Z) (outcome : FetchOutcome) (p : Page)
  : Completion (option jsstr) * Page :=
  match outcome with
  | NetworkError =>
      (Thrown (Js.lit "Backend is waking up… please hold tight."),
       beginBackendRecovery now
         (Js.lit "Backend is waking up… please hold tight.") p)
  | Response status body =>
      if negb (ok status) then
        let p :=
          if 500 <=? status then
            beginBackendRecovery now
              (Js.lit "Backend issue detected… attempting to recover.") p
          else p in
        (Thrown (Js.orElse (Some (bodyText body))
                   (Js.lit "Request failed with status " ++ Js.ofInt status)),
         p)
      else (readBody status body, markBackendOnline p)
  end.

(** [runTask(message, task)]. The task is any computation on the page that
    returns or throws; whatever happens while it is suspended is part of
    it. *)
Definition runTask {A} (message : jsstr)
    (task : Page -> Completion A * Page) (p : Page) : Page :=
  let p := showLoading message p in
  let '(result, p) := task p in
  let p :=
    match result with
    | Returned _ => p
    | Thrown errorMessage =>
        showTransientStatus
          (Js.orElse (Some errorMessage)
             (Js.lit "Something went wrong. Check the console for details."))
          3000 p
    end in
  hideLoading p.

(** The uninterruptible sections of the program, as events of the page. *)
Inductive Event :=
| ShowLoading (message : jsstr)
| HideLoading
| ShowTransientStatus (message : jsstr) (duration : Z)
| TimerFired (h : positive) (now : Z)
| PingSettled (health : FetchOutcome)
| PollContinued (recovered : bool)
| HealthEvaluated (now : Z) (messagePrefix : jsstr) (isOnline : bool)
| RequestSettled (now : Z) (outcome : FetchOutcome).

(** A timer that is no longer registered does not fire; a timeout is
    removed when it fires; the poller's callback only starts a [fetch]. *)
Definition fire (h : positive) (now : Z) (p : Page) : Page :=
  match Browser.active (timers p) !! h with
  | Some UpdateBackendWaitMessage => updateBackendWaitMessage now p
  | Some TransientExpiry =>
      transientExpired (withTimers (clearTimer (Some h) (timers p)) p)
  | Some HealthCheck => p
  | Some UpdateDatabaseWaitMessage => p
  | None => p
  end.

Definition step (p : Page) (e : Event) : Page :=
  match e with
  | ShowLoading message => showLoading message p
  | HideLoading => hideLoading p
  | ShowTransientStatus message duration =>
      showTransientStatus message duration p
  | TimerFired h now => fire h now p
  | PingSettled health => (pingBackend health p).2
  | PollContinued recovered => pollContinuation recovered p
  | HealthEvaluated now messagePrefix isOnline =>
      if negb isOnline then beginBackendRecovery now messagePrefix p else p
  | RequestSettled now outcome => (request now outcome p).2
  end.

Definition run (p : Page) (es : list Event) : Page := foldl step p es.

(** ** Vocabulary of the properties stated further down *)

(** The overlay element shows what the overlay state calls for: the task
    message when a task runs, else the backend message when the backend
    wait is on, else the transient message when one is pending, else
    nothing. *)
Definition shown (p : Page) : Prop :=
let o := overlayState p in
(0 < taskDepth o ->
   overlayHidden p = false /\ overlayMessage p = taskMessage o)
/\ (taskDepth o <= 0 -> backend_active o = true ->
      overlayHidden p = false /\ overlayMessage p = backend_message o)
/\ (taskDepth o <= 0 -> backend_active o = false ->
    transient_active o = true ->
      overlayHidden p = false /\ overlayMessage p = transient_message o)
/\ (taskDepth o <= 0 -> backend_active o = false ->
    transient_active o = false -> overlayHidden p = true).

(** The handle of the elapsed-time timer, while the wait is on. *)
Definition waitOwner (w : BackendWaitState) : option positive :=
if active w then timerId w else None.

(** The timer table agrees with the handles the program holds. *)
Definition consistent (p : Page) : Prop :=
fresh (timers p)
/\ owns (timers p) UpdateBackendWaitMessage (waitOwner (backendWaitState p))
/\ owns (timers p) HealthCheck (backendHealthCheckIntervalId p)
/\ owns (timers p) TransientExpiry (transient_timeoutId (overlayState p))
/\ backend_active (overlayState p) = active (backendWaitState p).

(** Events that report a reachable backend. *)
Definition reportsOnline (e : Event) : bool :=
match e with
| PingSettled (Response status _) => ok status
| RequestSettled _ (Response status _) => ok status
| PollContinued recovered => recovered
| _ => false
end.

End Overlay.

(* ===================================================================== *)
(** * Overlay and backend-availability state (with datastore readiness)   *)
(* ===================================================================== *)

(** The revision whose [/health] reply carries a readiness flag of the
  datastore ([overlayState.database], [databaseWaitState],
  [checkBackendStatus], [stopBackendRecoveryPolling]). *)
Module ReadinessOverlay.
Import Browser.

Definition BACKEND_ESTIMATED_SPINUP_SECONDS : Z := 50.
Definition BACKEND_STATUS_POLL_INTERVAL : Z := 10000.
Definition HEALTH_READINESS_POLL_DELAY : Z := 2000.

Record OverlayState := mkOverlayState {
  taskDepth : Z;
  taskMessage : jsstr;
  backend_active : bool;
  backend_message : jsstr;
  database_active : bool;
  database_message : jsstr;
  transient_active : bool;
  transient_message : jsstr;
  transient_timeoutId : option positive
}.

(** Shape shared by [backendWaitState] and [databaseWaitState]. *)
Record WaitState := mkWaitState {
  active : bool;
  timerId : option positive;
  startTime : option Z;
  baseMessage : jsstr
}.

Record Page := mkPage {
  overlayState : OverlayState;
  backendWaitState : WaitState;
  databaseWaitState : WaitState;
  backendHealthCheckIntervalId : option positive;
  overlayHidden : bool;
  overlayMessage : jsstr;
  timers : Timers
}.

Definition initialPage : Page :=
  {| overlayState :=
       {| taskDepth := 0; taskMessage := Js.lit "Working…";
          backend_active := false; backend_message := [];
          database_active := false; database_message := [];
          transient_active := false; transient_message := [];
          transient_timeoutId := None |};
     backendWaitState :=
       {| active := false; timerId := None; startTime := None;
          baseMessage := Js.lit "Spinning up backend…" |};
     databaseWaitState :=
       {| active := false; timerId := None; startTime := None;
          baseMessage := Js.lit "Waiting for database…" |};
     backendHealthCheckIntervalId := None;
     overlayHidden := true;
     overlayMessage := Js.lit "Working…";
     timers := {| Browser.active := ∅; nextHandle := 1 |} |}.

Definition withOverlayState (o : OverlayState) (p : Page) : Page :=
  mkPage o (backendWaitState p) (databaseWaitState p)
    (backendHealthCheckIntervalId p) (overlayHidden p) (overlayMessage p)
    (timers p).

Definition withBackendWaitState (w : WaitState) (p : Page) : Page :=
  mkPage (overlayState p) w (databaseWaitState p)
    (backendHealthCheckIntervalId p) (overlayHidden p) (overlayMessage p)
    (timers p).

Definition withDatabaseWaitState (w : WaitState) (p : Page) : Page :=
  mkPage (overlayState p) (backendWaitState p) w
    (backendHealthCheckIntervalId p) (overlayHidden p) (overlayMessage p)
    (timers p).

Definition withIntervalId (i : option positive) (p : Page) : Page :=
  mkPage (overlayState p) (backendWaitState p) (databaseWaitState p) i
    (overlayHidden p) (overlayMessage p) (timers p).

Definition withTimers (t : Timers) (p : Page) : Page :=
  mkPage (overlayState p) (backendWaitState p) (databaseWaitState p)
    (backendHealthCheckIntervalId p) (overlayHidden p) (overlayMessage p) t.

Definition display (hidden : bool) (text : jsstr) (p : Page) : Page :=
  mkPage (overlayState p) (backendWaitState p) (databaseWaitState p)
    (backendHealthCheckIntervalId p) hidden text (timers p).

Definition refreshOverlay (p : Page) : Page :=
  let o := overlayState p in
  if 0 <? taskDepth o then display false (taskMessage o) p
  else if backend_active o then display false (backend_message o) p
  else if database_active o then display false (database_message o) p
  else if transient_active o then display false (transient_message o) p
  else display true (Js.lit "Working…") p.

Definition showLoading (message : jsstr) (p : Page) : Page :=
  let o := overlayState p in
  refreshOverlay
    (withOverlayState
       (mkOverlayState (taskDepth o + 1) message
          (backend_active o) (backend_message o)
          (database_active o) (database_message o)
          (transient_active o) (transient_message o)
          (transient_timeoutId o)) p).

Definition hideLoading (p : Page) : Page :=
  let o := overlayState p in
  refreshOverlay
    (withOverlayState
       (mkOverlayState (Z.max 0 (taskDepth o - 1)) (taskMessage o)
          (backend_active o) (backend_message o)
          (database_active o) (database_message o)
          (transient_active o) (transient_message o)
          (transient_timeoutId o)) p).

Definition showTransientStatus (message : jsstr) (duration : Z) (p : Page)
  : Page :=
  let p := withTimers
             (clearTimer (transient_timeoutId (overlayState p)) (timers p)) p in
  let '(h, t) := setTimer TransientExpiry (timers p) in
  let o := overlayState p in
  refreshOverlay
    (withTimers t
       (withOverlayState
          (mkOverlayState (taskDepth o) (taskMessage o)
             (backend_active o) (backend_message o)
             (database_active o) (database_message o)
             true message (Some h)) p)).

Definition transientExpired (p : Page) : Page :=
  let o := overlayState p in
  refreshOverlay
    (withOverlayState
       (mkOverlayState (taskDepth o) (taskMessage o)
          (backend_active o) (backend_message o)
          (database_active o) (database_message o)
          false (transient_message o) None) p).

Definition backendWaitMessage (baseMessage : jsstr) (elapsedSeconds : Z)
  : jsstr :=
  baseMessage ++ Js.lit " " ++ Js.ofInt elapsedSeconds ++ Js.lit "s / ~"
    ++ Js.ofInt BACKEND_ESTIMATED_SPINUP_SECONDS ++ Js.lit "s".

Definition databaseWaitMessage (baseMessage : jsstr) (elapsedSeconds : Z)
  : jsstr :=
  baseMessage ++ Js.lit " " ++ Js.ofInt elapsedSeconds ++ Js.lit "s elapsed".

Definition updateBackendWaitMessage (now : Z) (p : Page) : Page :=
  let w := backendWaitState p in
  if negb (active w) then p
  else
    let elapsedSeconds := roundSeconds (now - default 0 (startTime w)) in
    let message := backendWaitMessage (baseMessage w) elapsedSeconds in
    let o := overlayState p in
    refreshOverlay
      (withOverlayState
         (mkOverlayState (taskDepth o) (taskMessage o) true message
            (database_active o) (database_message o)
            (transient_active o) (transient_message o)
            (transient_timeoutId o)) p).

Definition startBackendWait (now : Z) (messagePrefix : jsstr) (p : Page)
  : Page :=
  let w := backendWaitState p in
  let p := withBackendWaitState
             (mkWaitState (active w) (timerId w) (startTime w)
                messagePrefix) p in
  let p :=
    if negb (active (backendWaitState p)) then
      let '(h, t) := setTimer UpdateBackendWaitMessage (timers p) in
      withTimers t
        (withBackendWaitState
           (mkWaitState true (Some h) (Some now) messagePrefix) p)
    else p in
  updateBackendWaitMessage now p.

Definition stopBackendWait (p : Page) : Page :=
  let w := backendWaitState p in
  if negb (active w) then p
  else
    let p := withBackendWaitState
               (mkWaitState false (timerId w) (startTime w) (baseMessage w))
               p in
    let p :=
      match timerId w with
      | Some h =>
          withBackendWaitState
            (mkWaitState false None (startTime w) (baseMessage w))
            (withTimers (clearTimer (Some h) (timers p)) p)
      | None => p
      end in
    let o := overlayState p in
    refreshOverlay
      (withOverlayState
         (mkOverlayState (taskDepth o) (taskMessage o) false []
            (database_active o) (database_message o)
            (transient_active o) (transient_message o)
            (transient_timeoutId o)) p).

Definition updateDatabaseWaitMessage (now : Z) (p : Page) : Page :=
  let w := databaseWaitState p in
  if negb (active w) then p
  else
    let elapsedSeconds := roundSeconds (now - default 0 (startTime w)) in
    let message := databaseWaitMessage (baseMessage w) elapsedSeconds in
    let o := overlayState p in
    refreshOverlay
      (withOverlayState
         (mkOverlayState (taskDepth o) (taskMessage o)
            (backend_active o) (backend_message o) true message
            (transient_active o) (transient_message o)
            (transient_timeoutId o)) p).

Definition startDatabaseWait (now : Z) (messagePrefix : jsstr) (p : Page)
  : Page :=
  let w := databaseWaitState p in
  let p := withDatabaseWaitState
             (mkWaitState (active w) (timerId w) (startTime w)
                messagePrefix) p in
  let p :=
    if negb (active (databaseWaitState p)) then
      let '(h, t) := setTimer UpdateDatabaseWaitMessage (timers p) in
      withTimers t
        (withDatabaseWaitState
           (mkWaitState true (Some h) (Some now) messagePrefix) p)
    else p in
  updateDatabaseWaitMessage now p.

Definition stopDatabaseWait (p : Page) : Page :=
  let w := databaseWaitState p in
  if negb (active w) then p
  else
    let p := withDatabaseWaitState
               (mkWaitState false (timerId w) (startTime w) (baseMessage w))
               p in
    let p :=
      match timerId w with
      | Some h =>
          withDatabaseWaitState
            (mkWaitState false None (startTime w) (baseMessage w))
            (withTimers (clearTimer (Some h) (timers p)) p)
      | None => p
      end in
    let o := overlayState p in
    refreshOverlay
      (withOverlayState
         (mkOverlayState (taskDepth o) (taskMessage o)
            (backend_active o) (backend_message o) false []
            (transient_active o) (transient_message o)
            (transient_timeoutId o)) p).

Definition markBackendOnline (p : Page) : Page := stopBackendWait p.

Definition stopBackendRecoveryPolling (p : Page) : Page :=
  match backendHealthCheckIntervalId p with
  | Some h => withIntervalId None (withTimers (clearTimer (Some h) (timers p)) p)
  | None => p
  end.

(** The reply of [/health]: unreachable, or a status with the two spellings
    of the readiness flag its JSON body may carry. *)
Inductive HealthReply :=
| HealthUnreachable
| HealthResponse (status : Z) (neo4j_ready neo4jReady : option bool).

Record BackendStatus := mkBackendStatus { online : bool; neo4jReady : bool }.

Definition checkBackendStatus (reply : HealthReply) : BackendStatus :=
  match reply with
  | HealthUnreachable => {| online := false; neo4jReady := false |}
  | HealthResponse status snake camel =>
      if negb (ok status) then {| online := false; neo4jReady := false |}
      else
        {| online := true;
           neo4jReady :=
             match snake with
             | Some b => b
             | None => default false camel
             end |}
  end.

(** The part of the poller's callback that follows
    [await checkBackendStatus()]. *)
Definition pollContinuation (now : Z) (status : BackendStatus) (p : Page)
  : Page :=
  if negb (online status) then p
  else
    let p := markBackendOnline p in
    if neo4jReady status then stopBackendRecoveryPolling (stopDatabaseWait p)
    else startDatabaseWait now (Js.lit "Waiting for database…") p.

Definition beginBackendRecovery (now : Z) (messagePrefix : jsstr) (p : Page)
  : Page :=
  let p := stopDatabaseWait p in
  let p := startBackendWait now messagePrefix p in
  match backendHealthCheckIntervalId p with
  | Some _ => p
  | None =>
      let '(h, t) := setTimer HealthCheck (timers p) in
      withIntervalId (Some h) (withTimers t p)
  end.

(** [evaluateHealthStatus], from the moment [checkBackendStatus] settles. *)
Definition evaluateHealthStatus (now : Z) (messagePrefix : jsstr)
    (status : BackendStatus) (p : Page) : bool * Page :=
  if negb (online status) then
    (false, beginBackendRecovery now messagePrefix p)
  else
    let p := markBackendOnline p in
    if negb (neo4jReady status) then
      (false, startDatabaseWait now (Js.lit "Waiting for database…") p)
    else (true, stopBackendRecoveryPolling (stopDatabaseWait p)).

Inductive Completion (A : Type) :=
| Returned (v : A)
| Thrown (message : jsstr).
Arguments Returned {A} v.
Arguments Thrown {A} message.

Definition readBody (status : Z) (body : Body) : Completion (option jsstr) :=
  if status =? 204 then Returned None
  else
    let contentType := Js.orElse (contentType body) [] in
    if Js.includes contentType (Js.lit "application/json") then
      match bodyJson body with
      | Parsed value => Returned (Some value)
      | NotJson c message => Thrown (c :: message)
      end
    else Returned None.

Definition request (now : Z) (outcome : FetchOutcome) (p : Page)
  : Completion (option jsstr) * Page :=
  match outcome with
  | NetworkError =>
      (Thrown (Js.lit "Backend is waking up… please hold tight."),
       beginBackendRecovery now
         (Js.lit "Backend is waking up… please hold tight.") p)
  | Response status body =>
      if negb (ok status) then
        let p :=
          if 500 <=? status then
            beginBackendRecovery now
              (Js.lit "Backend issue detected… attempting to recover.") p
          else p in
        (Thrown (Js.orElse (Some (bodyText body))
                   (Js.lit "Request failed with status " ++ Js.ofInt status)),
         p)
      else (readBody status body, markBackendOnline p)
  end.

Definition runTask {A} (message : jsstr)
    (task : Page -> Completion A * Page) (p : Page) : Page :=
  let p := showLoading message p in
  let '(result, p) := task p in
  let p :=
    match result with
    | Returned _ => p
    | Thrown errorMessage =>
        showTransientStatus
          (Js.orElse (Some errorMessage)
             (Js.lit "Something went wrong. Check the console for details."))
          3000 p
    end in
  hideLoading p.

Inductive Event :=
| ShowLoading (message : jsstr)
| HideLoading
| ShowTransientStatus (message : jsstr) (duration : Z)
| TimerFired (h : positive) (now : Z)
| PollContinued (now : Z) (reply : HealthReply)
| HealthEvaluated (now : Z) (messagePrefix : jsstr) (reply : HealthReply)
| RequestSettled (now : Z) (outcome : FetchOutcome).

Definition fire (h : positive) (now : Z) (p : Page) : Page :=
  match Browser.active (timers p) !! h with
  | Some UpdateBackendWaitMessage => updateBackendWaitMessage now p
  | Some UpdateDatabaseWaitMessage => updateDatabaseWaitMessage now p
  | Some TransientExpiry =>
      transientExpired (withTimers (clearTimer (Some h) (timers p)) p)
  | Some HealthCheck => p
  | None => p
  end.

Definition step (p : Page) (e : Event) : Page :=
  match e with
  | ShowLoading message => showLoading message p
  | HideLoading => hideLoading p
  | ShowTransientStatus message duration =>
      showTransientStatus message duration p
  | TimerFired h now => fire h now p
  | PollContinued now reply => pollContinuation now (checkBackendStatus reply) p
  | HealthEvaluated now messagePrefix reply =>
      (evaluateHealthStatus now messagePrefix (checkBackendStatus reply) p).2
  | RequestSettled now outcome => (request now outcome p).2
  end.

Definition run (p : Page) (es : list Event) : Page := foldl step p es.

(** ** Vocabulary of the properties stated further down *)

(** The overlay element shows what the overlay state calls for; the
    datastore message ranks between the backend and the transient one. *)
Definition shown (p : Page) : Prop :=
let o := overlayState p in
(0 < taskDepth o ->
   overlayHidden p = false /\ overlayMessage p = taskMessage o)
/\ (taskDepth o <= 0 -> backend_active o = true ->
      overlayHidden p = false /\ overlayMessage p = backend_message o)
/\ (taskDepth o <= 0 -> backend_active o = false ->
    database_active o = true ->
      overlayHidden p = false /\ overlayMessage p = database_message o)
/\ (taskDepth o <= 0 -> backend_active o = false ->
    database_active o = false -> transient_active o = true ->
      overlayHidden p = false /\ overlayMessage p = transient_message o)
/\ (taskDepth o <= 0 -> backend_active o = false ->
    database_active o = false -> transient_active o = false ->
      overlayHidden p = true).

Definition waitOwner (w : WaitState) : option positive :=
if active w then timerId w else None.

Definition consistent (p : Page) : Prop :=
fresh (timers p)
/\ owns (timers p) UpdateBackendWaitMessage (waitOwner (backendWaitState p))
/\ owns (timers p) UpdateDatabaseWaitMessage
     (waitOwner (databaseWaitState p))
/\ owns (timers p) HealthCheck (backendHealthCheckIntervalId p)
/\ owns (timers p) TransientExpiry (transient_timeoutId (overlayState p))
/\ backend_active (overlayState p) = active (backendWaitState p)
/\ database_active (overlayState p) = active (databaseWaitState p).

(** Events that report a reachable backend. *)
Definition reportsOnline (e : Event) : bool :=
match e with
| PollContinued _ reply => online (checkBackendStatus reply)
| HealthEvaluated _ _ reply => online (checkBackendStatus reply)
| RequestSettled _ (Response status _) => ok status
| _ => false
end.

End ReadinessOverlay.

(* ===================================================================== *)
(** * Request gateway: identity and idempotency headers                   *)
(* ===================================================================== *)

Module Gateway.

(** A header object, and [localStorage]. *)
Abbreviation Headers := (gmap jsstr jsstr).
Abbreviation Storage := (gmap jsstr jsstr).

(** The [options] argument of [request] and the [config] given to [fetch]. *)
Record Options := mkOptions {
  method : option jsstr;
  body : option jsstr;
  headers : option Headers
}.

Record Config := mkConfig {
  c_method : jsstr;
  c_headers : Headers;
  c_body : option jsstr
}.

(** A JavaScript value used as a condition: a missing or empty string is
    falsy. *)
Definition truthy (v : option jsstr) : bool :=
  match v with Some (_ :: _) => true | _ => false end.

(** The source of [Math.random()]: the draws still to come. Each draw is a
    number in the interval from 0 (included) to 1 (excluded). *)
Record Random := mkRandom { position : nat; draws : nat -> Q }.

Definition mathRandom (r : Random) : Q * Random :=
  (draws r (position r), {| position := S (position r); draws := draws r |}).

Definition inRange (r : Random) : Prop :=
  forall i, (0 <= draws r i)%Q /\ (draws r i < 1)%Q.

Definition UUID_TEMPLATE : jsstr := Js.lit "xxxxxxxx-xxxx-4xxx-yxxx-xxxxxxxxxxxx".

(** The replacement function of [generateUUID], for one character [c] of
    the template ([c] is ["x"] or ["y"]):
    [r = Math.random() * 16 | 0; v = c == 'x' ? r : (r & 0x3 | 0x8)]. *)
Definition replaceChar (c : N) (rnd : Random) : N * Random :=
  let '(q, rnd) := mathRandom rnd in
  let r := Qfloor (q * 16) in
  let v := if (c =? 120)%N then r else Z.lor (Z.land r 3) 8 in
  (Js.hexDigit v, rnd).

(** [template.replace(/[xy]/g, ...)] *)
Fixpoint replaceXY (template : jsstr) (rnd : Random) : jsstr * Random :=
  match template with
  | [] => ([], rnd)
  | c :: rest =>
      if ((c =? 120) || (c =? 121))%N then
        let '(d, rnd) := replaceChar c rnd in
        let '(out, rnd) := replaceXY rest rnd in
        (d :: out, rnd)
      else
        let '(out, rnd) := replaceXY rest rnd in
        (c :: out, rnd)
  end.

Definition generateUUID (rnd : Random) : jsstr * Random :=
  replaceXY UUID_TEMPLATE rnd.

Definition USER_ID_KEY : jsstr := Js.lit "genai-graph-user-id".

Definition getOrSetUserId (storage : Storage) (rnd : Random)
  : jsstr * Storage * Random :=
  match storage !! USER_ID_KEY with
  | Some (c :: userId) => (c :: userId, storage, rnd)
  | _ =>
      let '(userId, rnd) := generateUUID rnd in
      (userId, <[USER_ID_KEY := userId]> storage, rnd)
  end.

(** [config.body = options.body] with the default content type; shared by
    every revision of [request]. *)
Definition attachBody (options : Options) (config : Config) : Config :=
  if truthy (body options) then
    {| c_method := c_method config;
       c_headers :=
         if truthy (c_headers config !! Js.lit "Content-Type")
         then c_headers config
         else <[Js.lit "Content-Type" := Js.lit "application/json"]>
                (c_headers config);
       c_body := body options |}
  else config.

Definition initialConfig (options : Options) : Config :=
  {| c_method := Js.orElse (method options) (Js.lit "GET");
     c_headers := default ∅ (headers options);
     c_body := None |}.

Definition setHeader (k v : jsstr) (config : Config) : Config :=
  {| c_method := c_method config;
     c_headers := <[k := v]> (c_headers config);
     c_body := c_body config |}.

(** The oldest revision of [request] (and the revision with the datastore
    readiness state): no identity header, no idempotency key. *)
Module Anonymous.
Definition requestConfig (options : Options) : Config :=
  attachBody options (initialConfig options).
End Anonymous.

(** The revision that sends the identity header only. *)
Module Identified.
Definition requestConfig (USER_ID : jsstr) (options : Options) : Config :=
  attachBody options
    (setHeader (Js.lit "X-User-ID") USER_ID (initialConfig options)).
End Identified.

(** The revision that sends both. *)
Module Idempotent.
Section WithPlatform.

(** [String.prototype.toUpperCase], a function of the platform: it follows
    the case mapping of Unicode, of which only the ASCII part is written
    out in this development. *)
Variable toUpperCase : jsstr -> jsstr.

Definition idempotentMethods : list jsstr :=
  [Js.lit "POST"; Js.lit "PUT"; Js.lit "DELETE"; Js.lit "PATCH"].

Definition requestConfig (USER_ID : jsstr) (options : Options)
    (rnd : Random) : Config * Random :=
  let config := initialConfig options in
  let config := setHeader (Js.lit "X-User-ID") USER_ID config in
  let '(config, rnd) :=
    if bool_decide (toUpperCase (c_method config) ∈ idempotentMethods)
    then
      let '(key, rnd) := generateUUID rnd in
      (setHeader (Js.lit "Idempotency-Key") key config, rnd)
    else (config, rnd) in
  (attachBody options config, rnd).

End WithPlatform.
End Idempotent.

(** ** Vocabulary of the properties stated further down *)

Definition isHexDigit (c : N) : bool :=
(((48 <=? c) && (c <=? 57)) || ((97 <=? c) && (c <=? 102)))%N.

(** [out] has the shape of [template]: a hexadecimal digit for each ["x"],
    one of [8], [9], [a], [b] for each ["y"], the template's own character
    elsewhere. *)
Fixpoint matchesTemplate (template out : jsstr) : bool :=
match template, out with
| [], [] => true
| c :: template, o :: out =>
    (if (c =? 120)%N then isHexDigit o
     else if (c =? 121)%N then
       ((o =? 56) || (o =? 57) || (o =? 97) || (o =? 98))%N
     else (o =? c)%N)
    && matchesTemplate template out
| _, _ => false
end.

(** The shape of a version-4 UUID in its textual form. *)
Definition uuidV4Shaped (s : jsstr) : bool := matchesTemplate UUID_TEMPLATE s.

(** The number of draws a template takes. *)
Definition drawsOf (template : jsstr) : nat :=
length (List.filter (fun c => ((c =? 120) || (c =? 121))%N) template).

(** The method is one of those the gateway treats as mutating. *)
Definition isMutating (toUpperCase : jsstr -> jsstr) (options : Options)
  : Prop :=
toUpperCase (Js.orElse (method options) (Js.lit "GET"))
  ∈ Idempotent.idempotentMethods.

(** On a string of ASCII characters the function puts the letters in upper
    case and leaves the rest, as [String.prototype.toUpperCase] does. *)
Definition upperCasesAscii (toUpperCase : jsstr -> jsstr) : Prop :=
forall s, Js.isAscii s -> toUpperCase s = Js.asciiUpperCase s.

(** The method, given or defaulted, as an ASCII string in any letter case,
    names one of the four methods. *)
Definition namesMutatingMethod (options : Options) : Prop :=
Js.isAscii (Js.orElse (method options) (Js.lit "GET"))
/\ Js.asciiUpperCase (Js.orElse (method options) (Js.lit "GET"))
   ∈ Idempotent.idempotentMethods.

End Gateway.

(* ===================================================================== *)
(** * Sample inputs                                                       *)
(* ===================================================================== *)

Module Samples.

(** A canvas whose glyphs have fixed advances: 17 pixels for ["W"], 10 for
    the ellipsis, 13 for any other unit; the width of a text is the sum of
    its advances. *)
Definition advance (c : N) : Z :=
  if (c =? 87)%N then 17 else if (c =? 8230)%N then 10 else 13.

Definition glyphMeasure (text font : jsstr) : Q :=
  inject_Z (foldr (fun c w => advance c + w) 0 text).

Definition FONT : jsstr :=
  Js.lit "600 16px " ++ [34%N] ++ Js.lit "Segoe UI" ++ [34%N].

(** Two payload nodes with one id and different names. *)
Definition twoNamesOneId : option GraphMerge.GraphData :=
Some {| GraphMerge.nodes :=
          Some [GraphMerge.mkPNode (Js.lit "n") (Some (Js.lit "A")) None;
                GraphMerge.mkPNode (Js.lit "n") (Some (Js.lit "B")) None];
        GraphMerge.edges := None |}.


(** The nodes ["a"] and ["b"], and the edge of the design document. *)
Definition nodesAB : option GraphMerge.GraphData :=
Some {| GraphMerge.nodes :=
          Some [GraphMerge.mkPNode (Js.lit "a") (Some (Js.lit "Alpha")) None;
                GraphMerge.mkPNode (Js.lit "b") (Some (Js.lit "Beta")) None];
        GraphMerge.edges := None |}.

Definition relatesAB : GraphMerge.PEdge :=
GraphMerge.mkPEdge (Js.lit "a") (Js.lit "b") (Js.lit "relates").

(** An outage in the revision with the datastore readiness state: a
    request answered 500, then a health reply that reports the backend
    online and the datastore not ready. *)
(** Bodies of responses: plain text without a content type, JSON, and a
    body declared as JSON that is cut short. *)
Definition plainBody (text : jsstr) : Browser.Body :=
{| Browser.contentType := None; Browser.bodyText := text;
   Browser.bodyJson := Browser.NotJson 85%N (Js.lit "nexpected token") |}.

Definition noBody : Browser.Body := plainBody [].

Definition jsonBody (text : jsstr) : Browser.Body :=
{| Browser.contentType := Some (Js.lit "application/json");
   Browser.bodyText := text; Browser.bodyJson := Browser.Parsed text |}.

Definition cutShortBody : Browser.Body :=
{| Browser.contentType := Some (Js.lit "application/json; charset=utf-8");
   Browser.bodyText := Js.lit "{";
   Browser.bodyJson :=
     Browser.NotJson 85%N (Js.lit "nexpected end of JSON input") |}.

Definition datastoreWarmingUp : ReadinessOverlay.Page :=
ReadinessOverlay.run ReadinessOverlay.initialPage
  [ReadinessOverlay.RequestSettled 0 (Browser.Response 500 noBody);
   ReadinessOverlay.PollContinued 10000
     (ReadinessOverlay.HealthResponse 200 (Some false) None)].

(** A request that uses a mutating method and gives no headers. *)
Definition postOptions : Gateway.Options :=
{| Gateway.method := Some (Js.lit "POST"); Gateway.body := None;
   Gateway.headers := None |}.

(** An upper-casing that knows the ASCII letters only. *)
Definition asciiOnly : jsstr -> jsstr := Js.asciiUpperCase.

(** A source of draws: 0, 7/16, 14/16, 5/16, ... *)
Definition sampleRandom : Gateway.Random :=
{| Gateway.position := 0;
   Gateway.draws := fun i => (Z.of_nat ((i * 7) mod 16) # 16)%Q |}.

End Samples.

(* ===================================================================== *)
(** * Vocabulary for strings and graphs                                   *)
(* ===================================================================== *)

Module JsText.

(** Every unit of the text is white space. *)
Definition blank (s : jsstr) : Prop :=
  Forall (fun c => Js.isWhiteSpace c = true) s.

(** Neither the first nor the last unit of the text is white space. *)
Definition trimmed (s : jsstr) : Prop :=
  (forall c r, s = c :: r -> Js.isWhiteSpace c = false)
  /\ (forall c r, s = r ++ [c] -> Js.isWhiteSpace c = false).

End JsText.

Module GraphShape.
Import Cytoscape GraphMerge.

Section WithCanvas.
Variable measure : jsstr -> jsstr -> Q.

(** The display name and the font size of an element are those
    [computeNodeVisuals] gives for its name; an edge may have none. *)
Definition labelled (g : Core) : Prop :=
  forall k d,
    g !! k = Some d ->
    (isEdge d = true /\ displayName d = None /\ fontSize d = None)
    \/ (displayName d
        = Some (TextMeasurer.nv_displayName
                  (TextMeasurer.computeNodeVisuals measure (name d)))
        /\ fontSize d
           = Some (TextMeasurer.nv_fontSize
                     (TextMeasurer.computeNodeVisuals measure (name d)))).

End WithCanvas.
End GraphShape.

Module OverlayHistory.
Import Overlay.

(** The message of the last task started among the events, if any. *)
Definition lastStarted (es : list Event) : option jsstr :=
  foldl (fun acc e =>
           match e with
           | ShowLoading message => Some message
           | _ => acc
           end) None es.

End OverlayHistory.

(* ===================================================================== *)
(** * The overlay, one task of the event loop at a time                   *)
(* ===================================================================== *)

(** In the revision without the datastore readiness state the code that
    follows [await pingBackend()] runs in the task in which [pingBackend]
    ends: [pingBackend] returns right after its own [await fetch], so the
    resumption of the caller is queued and run before any other code of the
    page. A turn is what one such task does to the page. *)
Module OverlayTurns.
Import Browser Overlay.

Inductive Turn :=
| Started (message : jsstr)         (* runTask: showLoading(message) *)
| Failed (errorMessage : jsstr)     (* runTask: the catch block *)
| Ended                             (* runTask: the finally block *)
| Ticked (h : positive) (now : Z)   (* a timer fires *)
| Polled (health : FetchOutcome)    (* the poller's fetch settles *)
| Evaluated (now : Z) (messagePrefix : jsstr) (health : FetchOutcome)
                                    (* evaluateHealthStatus's fetch settles *)
| Requested (now : Z) (outcome : FetchOutcome).
                                    (* the fetch of request settles *)

Definition turn (p : Page) (t : Turn) : Page :=
  match t with
  | Started message => showLoading message p
  | Failed errorMessage =>
      showTransientStatus
        (Js.orElse (Some errorMessage)
           (Js.lit "Something went wrong. Check the console for details."))
        3000 p
  | Ended => hideLoading p
  | Ticked h now => fire h now p
  | Polled health => healthCheckTick health p
  | Evaluated now messagePrefix health =>
      (evaluateHealthStatus now messagePrefix health p).2
  | Requested now outcome => (request now outcome p).2
  end.

Definition runTurns (p : Page) (ts : list Turn) : Page := foldl turn p ts.

(** ** Vocabulary of the properties stated further down *)

(** Whether a settled [fetch] of [/health] counts as a live backend. *)
Definition healthy (health : FetchOutcome) : bool :=
match health with
| Response status _ => ok status
| NetworkError => false
end.

(** The finer events a turn is made of. *)
Definition events (t : Turn) : list Event :=
match t with
| Started message => [ShowLoading message]
| Failed errorMessage =>
    [ShowTransientStatus
       (Js.orElse (Some errorMessage)
          (Js.lit "Something went wrong. Check the console for details."))
       3000]
| Ended => [HideLoading]
| Ticked h now => [TimerFired h now]
| Polled health => [PingSettled health; PollContinued (healthy health)]
| Evaluated now messagePrefix health =>
    [PingSettled health; HealthEvaluated now messagePrefix (healthy health)]
| Requested now outcome => [RequestSettled now outcome]
end.

(** The wait message is on exactly while a recovery poller is registered. *)
Definition guarded (p : Page) : Prop :=
active (backendWaitState p) = true
<-> is_Some (backendHealthCheckIntervalId p).

End OverlayTurns.

(* ===================================================================== *)
(** * Start-up in the revision with the datastore readiness state         *)
(* ===================================================================== *)

Module Startup.
Import Browser ReadinessOverlay.

(** One round of the loop of [waitForFullReadiness]: what happens on the
    page while the loop sleeps and its probe is in flight, then the moment
    the probe settles and the reply it gets. The timer of [delay] is not in
    the timer table: its handle is never kept and it cannot be cleared; its
    firing is the start of the next round. *)
Record Round := mkRound {
  meanwhile : list Event;
  settledAt : Z;
  reply : HealthReply
}.

(** [waitForFullReadiness], over the rounds that have been played so far:
    the page at which the promise resolves, or [None] while the loop is
    still going. *)
Fixpoint waitForFullReadiness (rounds : list Round) (p : Page)
  : option Page :=
  match rounds with
  | [] => None
  | r :: rounds =>
      let '(ready, p) :=
        evaluateHealthStatus (settledAt r) (Js.lit "Connecting to backend…")
          (checkBackendStatus (reply r)) (run p (meanwhile r)) in
      if ready then Some p else waitForFullReadiness rounds p
  end.

(** ** Vocabulary of the properties stated further down *)

(** The reply reports the backend online and the datastore ready. *)
Definition fullyReady (r : Round) : bool :=
online (checkBackendStatus (reply r))
&& neo4jReady (checkBackendStatus (reply r)).

(** The page after the given rounds, whatever their replies. *)
Definition played (rounds : list Round) (p : Page) : Page :=
foldl (fun p r =>
         (evaluateHealthStatus (settledAt r) (Js.lit "Connecting to backend…")
            (checkBackendStatus (reply r)) (run p (meanwhile r))).2)
  p rounds.

(** Nothing of the availability machinery is left running. *)
Definition quiet (p : Page) : Prop :=
active (backendWaitState p) = false
/\ active (databaseWaitState p) = false
/\ backend_active (overlayState p) = false
/\ database_active (overlayState p) = false
/\ backendHealthCheckIntervalId p = None
/\ running UpdateBackendWaitMessage (timers p) = ∅
/\ running UpdateDatabaseWaitMessage (timers p) = ∅
/\ running HealthCheck (timers p) = ∅.

End Startup.

(* ===================================================================== *)
(** * Node selection, details panel and tabs                              *)
(* ===================================================================== *)

(** The revision with a single selected node ([state.selectedNodeId]). The
    selection flags of the rendering engine are kept as the set of the ids
    of the selected elements. The program changes them through
    [unselect()] and [select()]; the engine changes them on its own when
    the user taps or drags a box, in ways this development does not
    describe: such a change is a step that may leave any set. *)
Module Selection.
Import Cytoscape.

Record DetailsPanel := mkDetailsPanel {
  detailsPlaceholderHidden : bool;
  detailsListHidden : bool;
  detailName : jsstr;
  detailDescription : jsstr;
  expandButtonDisabled : bool;
  deleteButtonDisabled : bool
}.

(** The tab buttons (their [data-tab] attribute and whether they carry the
    class [active]) and the two panes of [tabPanes]. *)
Record Tabs := mkTabs {
  tabButtons : list (option jsstr * bool);
  detailsPaneActive : bool;
  promptPaneActive : bool
}.

Record View := mkView {
  cy : Core;
  selectedEles : gset jsstr;
  selectedNodeId : option jsstr;
  panel : DetailsPanel;
  tabs : Tabs
}.

Definition withSelectedEles (s : gset jsstr) (v : View) : View :=
  mkView (cy v) s (selectedNodeId v) (panel v) (tabs v).

Definition withSelectedNodeId (i : option jsstr) (v : View) : View :=
  mkView (cy v) (selectedEles v) i (panel v) (tabs v).

Definition withPanel (d : DetailsPanel) (v : View) : View :=
  mkView (cy v) (selectedEles v) (selectedNodeId v) d (tabs v).

Definition withTabs (t : Tabs) (v : View) : View :=
  mkView (cy v) (selectedEles v) (selectedNodeId v) (panel v) t.

(** A collection of elements of the graph, each with its id and its data.
    A single element is the collection that holds it. *)
Abbreviation Collection := (list (jsstr * Data)).

(** [cy.getElementById(id)] as a collection: one element, or none. *)
Definition elementById (g : Core) (id : jsstr) : Collection :=
  match getElementById g id with
  | Some d => [(id, d)]
  | None => []
  end.

(** [eles.isNode()] answers for the first element of the collection, and
    [false] for the empty one; [eles.first()] is the collection of the first
    element. *)
Definition isNode (eles : Collection) : bool :=
  match eles with
  | (_, d) :: _ => negb (isEdge d)
  | [] => false
  end.

Definition first (eles : Collection) : Collection := take 1 eles.

Definition coerceNode (element : option Collection) : option Collection :=
  match element with
  | None => None
  | Some element =>
      if isNode element then Some element
      else
        let first := first element in
        if isNode first then Some first else None
  end.

(** The id names a node of the graph. *)
Definition isNodeId (g : Core) (k : jsstr) : bool :=
  match g !! k with
  | Some d => negb (isEdge d)
  | None => false
  end.

(** [cy.nodes().unselect()] *)
Definition unselectNodes (v : View) : View :=
  withSelectedEles
    (filter (fun k => isNodeId (cy v) k = false) (selectedEles v)) v.

(** [eles.select()] *)
Definition select (eles : Collection) (v : View) : View :=
  withSelectedEles (selectedEles v ∪ list_to_set eles.*1) v.

Definition setActionButtonsEnabled (isEnabled : bool) (v : View) : View :=
  let d := panel v in
  withPanel
    (mkDetailsPanel (detailsPlaceholderHidden d) (detailsListHidden d)
       (detailName d) (detailDescription d)
       (negb isEnabled) (negb isEnabled)) v.

Definition updateDetailsPanel (nodeData : option Data) (v : View) : View :=
  let d := panel v in
  match nodeData with
  | None =>
      setActionButtonsEnabled false
        (withPanel
           (mkDetailsPanel false true [] []
              (expandButtonDisabled d) (deleteButtonDisabled d)) v)
  | Some nodeData =>
      setActionButtonsEnabled true
        (withPanel
           (mkDetailsPanel true false
              (Js.orElse (name nodeData) (Js.lit "Untitled"))
              (Js.orElse (description nodeData)
                 (Js.lit "No description provided."))
              (expandButtonDisabled d) (deleteButtonDisabled d)) v)
  end.

Definition selectNode (element : option Collection) (v : View) : View :=
  match coerceNode element with
  | None => v
  | Some node =>
      match node with
      | [] => v
      | (nodeId, nodeData) :: _ =>
          let v := unselectNodes v in
          let v := select node v in
          let v := withSelectedNodeId (Some nodeId) v in
          updateDetailsPanel (Some nodeData) v
      end
  end.

Definition selectNodeById (nodeId : option jsstr) (v : View) : View :=
  match nodeId with
  | Some (c :: r) =>
      let nodeCollection := elementById (cy v) (c :: r) in
      match coerceNode (Some nodeCollection) with
      | Some node => selectNode (Some node) v
      | None => v
      end
  | _ => v
  end.

(** [button.dataset.tab === tabName], with [undefined] for a missing
    attribute or argument. *)
Definition switchTab (tabName : option jsstr) (v : View) : View :=
  let t := tabs v in
  withTabs
    (mkTabs
       ((fun b : option jsstr * bool => (b.1, bool_decide (b.1 = tabName)))
          <$> tabButtons t)
       (bool_decide (Some (Js.lit "details") = tabName))
       (bool_decide (Some (Js.lit "prompt") = tabName))) v.

Definition clearSelection (v : View) : View :=
  let v := withSelectedNodeId None v in
  let v := unselectNodes v in
  let v := updateDetailsPanel None v in
  switchTab (Some (Js.lit "details")) v.

(** What happens to the graph view, one listener or call at a time: the
    listener of a tap on a node (the engine calls it only for a node of the
    graph), the listener of a tap on the background, a click on the [i]-th
    tab button, the call of [selectNodeById] made after a node was created;
    and a change the engine makes to its selection flags on its own, before
    or after it calls a listener. *)
Inductive Gesture :=
| TapNode (id : jsstr)
| TapBackground
| TabClicked (i : nat)
| SelectById (nodeId : option jsstr)
| EngineSelects (selected : gset jsstr).

Definition act (v : View) (g : Gesture) : View :=
  match g with
  | TapNode id =>
      if isNodeId (cy v) id then selectNode (Some (elementById (cy v) id)) v
      else v
  | TapBackground => clearSelection v
  | TabClicked i =>
      match tabButtons (tabs v) !! i with
      | Some b => switchTab b.1 v
      | None => v
      end
  | SelectById nodeId => selectNodeById nodeId v
  | EngineSelects selected => withSelectedEles selected v
  end.

Definition acts (v : View) (gs : list Gesture) : View := foldl act v gs.

(** ** Vocabulary of the properties stated further down *)

(** The panel as [updateDetailsPanel] leaves it for a node. *)
Definition panelFor (d : Data) : DetailsPanel :=
mkDetailsPanel true false
  (Js.orElse (name d) (Js.lit "Untitled"))
  (Js.orElse (description d) (Js.lit "No description provided."))
  false false.

(** The panel with nothing selected. *)
Definition emptyPanel : DetailsPanel := mkDetailsPanel false true [] [] true true.

(** The panel and the action buttons agree with [state.selectedNodeId]. *)
Definition agrees (v : View) : Prop :=
match selectedNodeId v with
| Some _ =>
    detailsPlaceholderHidden (panel v) = true
    /\ detailsListHidden (panel v) = false
    /\ expandButtonDisabled (panel v) = false
    /\ deleteButtonDisabled (panel v) = false
| None => panel v = emptyPanel
end.

End Selection.

(* ===================================================================== *)
(** * Prompt editor                                                       *)
(* ===================================================================== *)

Module PromptEditor.

(** The text area, the module-level [promptSnapshot] and the two buttons. *)
Record Editor := mkEditor {
  value : jsstr;
  promptSnapshot : jsstr;
  saveDisabled : bool;
  resetDisabled : bool
}.

(** The value of a text area reads back with its line breaks normalised: a
    carriage return followed by a line feed, and a carriage return on its
    own, both read as one line feed. *)
Fixpoint normalizeNewlines (s : jsstr) : jsstr :=
  match s with
  | [] => []
  | c :: rest =>
      if (c =? 13)%N then
        10%N :: match rest with
                | c' :: rest' =>
                    if (c' =? 10)%N then normalizeNewlines rest'
                    else normalizeNewlines rest
                | [] => []
                end
      else c :: normalizeNewlines rest
  end.

Definition updatePromptActions (e : Editor) : Editor :=
  let isDirty := negb (bool_decide (value e = promptSnapshot e)) in
  mkEditor (value e) (promptSnapshot e) (negb isDirty) (negb isDirty).

Definition applyPrompt (promptText : option jsstr) (e : Editor) : Editor :=
  let promptSnapshot := Js.orElse promptText [] in
  updatePromptActions
    (mkEditor (normalizeNewlines promptSnapshot) promptSnapshot
       (saveDisabled e) (resetDisabled e)).

(** The [input] listener: the browser has put the typed text in the text
    area. *)
Definition onInput (typed : jsstr) (e : Editor) : Editor :=
  updatePromptActions
    (mkEditor (normalizeNewlines typed) (promptSnapshot e)
       (saveDisabled e) (resetDisabled e)).

(** The [click] listener of the reset button. *)
Definition onReset (e : Editor) : Editor :=
  updatePromptActions
    (mkEditor (normalizeNewlines (promptSnapshot e)) (promptSnapshot e)
       (saveDisabled e) (resetDisabled e)).

Inductive Action :=
| Typed (text : jsstr)
| ResetClicked
| Applied (promptText : option jsstr).

Definition edit (e : Editor) (a : Action) : Editor :=
  match a with
  | Typed text => onInput text e
  | ResetClicked => onReset e
  | Applied promptText => applyPrompt promptText e
  end.

Definition edits (e : Editor) (acts : list Action) : Editor :=
  foldl edit e acts.

(** ** Vocabulary of the properties stated further down *)

(** The prompt the last [Applied] action of the list applied, if any. *)
Definition lastApplied (acts : list Action) : option jsstr :=
foldl (fun acc a =>
         match a with
         | Applied promptText => Some (Js.orElse promptText [])
         | _ => acc
         end) None acts.

(** The text holds no carriage return. *)
Definition plain (s : jsstr) : Prop := 13%N ∉ s.

End PromptEditor.

(* ===================================================================== *)
(** * The form that creates a node                                        *)
(* ===================================================================== *)

Module NodeForm.

(** What the [submit] listener does before it talks to the server: an alert
    and nothing else, or a request with the two values. *)
Inductive Submission :=
| Alerted
| Submitted (name description : jsstr).

(** [(formData.get(field) || '').toString().trim()] for a text field. *)
Definition field (v : option jsstr) : jsstr := Js.trim (Js.orElse v []).

Definition submit (name description : option jsstr) : Submission :=
  let name := field name in
  let description := field description in
  if negb (Gateway.truthy (Some name))
     || negb (Gateway.truthy (Some description))
  then Alerted
  else Submitted name description.

(** ** Vocabulary of the properties stated further down *)

(** The text holds a unit that is not white space. *)
Definition hasInk (v : option jsstr) : Prop :=
exists s c, v = Some s /\ c ∈ s /\ Js.isWhiteSpace c = false.

End NodeForm.

(* ===================================================================== *)
(** * Service banner of the oldest revision                               *)
(* ===================================================================== *)

Module ServiceStatus.
Import Browser.

Record Banner := mkBanner {
  hidden : bool;
  textContent : jsstr
}.

(** The banner element (absent when the page has none) and the
    module-level [backendOnline]. *)
Record Service := mkService {
  serviceStatusBanner : option Banner;
  backendOnline : bool
}.

Definition setServiceStatus (isOnline : bool) (message : jsstr) (s : Service)
  : Service :=
  match serviceStatusBanner s with
  | None => s
  | Some _ =>
      if isOnline then
        if backendOnline s then s
        else mkService (Some (mkBanner true [])) true
      else mkService (Some (mkBanner false message)) false
  end.

(** [request] of this revision, from the moment [fetch] settles;
    [fetchError] is the message of the error a failed [fetch] rejects
    with, which is thrown again as it is. *)
Definition request (fetchError : jsstr) (outcome : FetchOutcome) (s : Service)
  : Overlay.Completion (option jsstr) * Service :=
  match outcome with
  | NetworkError =>
      (Overlay.Thrown fetchError,
       setServiceStatus false
         (Js.lit "Backend is waking up… please retry in a few seconds.") s)
  | Response status body =>
      if negb (ok status) then
        let s :=
          if 500 <=? status then
            setServiceStatus false
              (Js.lit "Backend issue detected… attempting to recover.") s
          else s in
        (Overlay.Thrown
           (Js.orElse (Some (bodyText body))
              (Js.lit "Request failed with status " ++ Js.ofInt status)),
         s)
      else
        (Overlay.readBody status body,
         setServiceStatus true (Js.lit "Backend is waking up…") s)
  end.


(** ** Vocabulary of the properties stated further down *)




End ServiceStatus.

(* ===================================================================== *)
(** * Handlers that change the graph and the view together                *)
(* ===================================================================== *)

Module Workspace.
Import Cytoscape.

(** The page of the overlay, the graph view, and the overlay that is shown
    over an empty workspace. *)
Record App := mkApp {
  page : Overlay.Page;
  view : Selection.View;
  emptyWorkspaceHidden : bool
}.

(** [cy.nodes()], as the ids and data of the node elements. *)
Definition nodesOf (g : Core) : Core :=
  filter (fun kd => isEdge kd.2 = false) g.

Definition updateEmptyStateMessage (a : App) : App :=
  let isEmpty := bool_decide (size (nodesOf (Selection.cy (view a))) = 0%nat) in
  mkApp (page a) (view a) (negb isEmpty).

(** [cy.elements().remove()]: the removed elements take their selection
    flags with them. *)
Definition removeAll (v : Selection.View) : Selection.View :=
  Selection.mkView ∅ ∅ (Selection.selectedNodeId v) (Selection.panel v)
    (Selection.tabs v).

(** The loop of the handler that clears the graph: one [DELETE] per node,
    each awaited before the next, over the fetches that have settled so
    far. [None] while a request is still in flight. *)
Fixpoint deleteEach (nodeIds : list jsstr)
    (settled : list (Z * Browser.FetchOutcome)) (p : Overlay.Page)
  : option (Overlay.Completion unit * Overlay.Page) :=
  match nodeIds with
  | [] => Some (Overlay.Returned tt, p)
  | _ :: nodeIds =>
      match settled with
      | [] => None
      | (now, outcome) :: settled =>
          match Overlay.request now outcome p with
          | (Overlay.Thrown message, p) => Some (Overlay.Thrown message, p)
          | (Overlay.Returned _, p) => deleteEach nodeIds settled p
          end
      end
  end.

(** The task the handler gives to [runTask], run without interruption
    between its requests. *)
Definition clearGraphTask (settled : list (Z * Browser.FetchOutcome))
    (a : App) : option (Overlay.Completion unit * App) :=
  let nodeIds := (map_to_list (nodesOf (Selection.cy (view a)))).*1 in
  match deleteEach nodeIds settled (page a) with
  | None => None
  | Some (Overlay.Thrown message, p) =>
      Some (Overlay.Thrown message, mkApp p (view a) (emptyWorkspaceHidden a))
  | Some (Overlay.Returned _, p) =>
      let v := removeAll (view a) in
      let v := Selection.clearSelection v in
      Some (Overlay.Returned tt,
            updateEmptyStateMessage (mkApp p v (emptyWorkspaceHidden a)))
  end.

Section WithCanvas.
Variable measure : jsstr -> jsstr -> Q.

(** The task of the form that creates a node, from the moment the server
    has answered with the new node. An error of [mergeGraph] ends the task:
    the graph stays as the call left it and the rest is not run. *)
Definition nodeCreated (newNode : GraphMerge.PNode) (a : App)
  : option AddError * App :=
  let v := view a in
  let merged :=
    GraphMerge.mergeGraph measure
      (Some {| GraphMerge.nodes := Some [newNode];
               GraphMerge.edges := Some [] |})
      (Selection.cy v) in
  let v :=
    Selection.mkView (graph merged) (Selection.selectedEles v)
      (Selection.selectedNodeId v) (Selection.panel v) (Selection.tabs v) in
  match thrown merged with
  | Some err => (Some err, mkApp (page a) v (emptyWorkspaceHidden a))
  | None =>
      let v := Selection.selectNodeById (Some (GraphMerge.id newNode)) v in
      (None, updateEmptyStateMessage (mkApp (page a) v (emptyWorkspaceHidden a)))
  end.

End WithCanvas.

(** ** Vocabulary of the properties stated further down *)

(** [request] returns on this outcome: the status is 2xx and the body, if
    it is read as JSON, is JSON. *)
Definition succeeds (outcome : Browser.FetchOutcome) : bool :=
match outcome with
| Browser.Response status body =>
    Browser.ok status
    && match Overlay.readBody status body with
       | Overlay.Returned _ => true
       | Overlay.Thrown _ => false
       end
| Browser.NetworkError => false
end.

(** The requests of the list on which [request] returned, up to the first
    on which it threw. *)
Fixpoint answered (settled : list (Z * Browser.FetchOutcome)) : nat :=
match settled with
| (_, outcome) :: settled =>
    if succeeds outcome then S (answered settled) else O
| [] => O
end.

End Workspace.

(* ===================================================================== *)
(** * Sample views                                                        *)
(* ===================================================================== *)

Module ViewSamples.
Import Cytoscape.

(** The nodes ["a"] and ["b"] joined by the edge ["a-b-relates"]. *)
Definition graphAB : Core :=
  GraphMerge.merges Samples.glyphMeasure
    [Samples.nodesAB;
     Some {| GraphMerge.nodes := None;
             GraphMerge.edges := Some [Samples.relatesAB] |}] ∅.

(** That graph with nothing selected and the details tab open. *)
Definition viewAB : Selection.View :=
  Selection.mkView graphAB ∅ None
    (Selection.mkDetailsPanel false true [] [] true true)
    (Selection.mkTabs
       [(Some (Js.lit "details"), true); (Some (Js.lit "prompt"), false)]
       true false).

Definition appAB : Workspace.App :=
  Workspace.mkApp Overlay.initialPage viewAB true.


End ViewSamples.

(* ===================================================================== *)
(** * Properties of the text measurer                                     *)
(* ===================================================================== *)

Module TextMeasurerFacts.
Import TextMeasurer.

Section WithCanvas.
Variable measure : jsstr -> jsstr -> Q.
Variables (maxWidth : Q) (font : jsstr).

Local Abbreviation fits := (TextMeasurer.fits measure maxWidth font).

Lemma truncateLoop_unfold truncated :
  truncateLoop measure maxWidth font truncated =
    if bool_decide (0 < length truncated)%nat
       && negb (Qle_bool (measure (truncated ++ Js.ELLIPSIS) font) maxWidth)
    then truncateLoop measure maxWidth font (Js.slice_0_m1 truncated)
    else truncated.
Proof.
  rewrite truncateLoop_equation_1. unfold truncateLoop_clause_1.
  destruct (Equations.Prop.Logic.inspect _) as [[] e]; simpl; rewrite e; reflexivity.
Qed.

Lemma prefix_slice_0_m1 (q t : jsstr) :
  q `prefix_of` t -> q = t \/ q `prefix_of` Js.slice_0_m1 t.
Proof.
  intros [k ->]. destruct (decide (k = [])) as [-> | Hk].
  - left. by rewrite app_nil_r.
  - right. unfold Js.slice_0_m1.
    assert (0 < length k)%nat by (destruct k; simpl; [done | lia]).
    rewrite take_app_ge; [| rewrite length_app; lia].
    by apply prefix_app_r.
Qed.

Lemma slice_0_m1_prefix (t : jsstr) : Js.slice_0_m1 t `prefix_of` t.
Proof. apply prefix_take. Qed.

(** The loop stops at the longest prefix that fits, or at the empty one. *)
Lemma truncateLoop_longest truncated :
  let p := truncateLoop measure maxWidth font truncated in
  p `prefix_of` truncated
  /\ (p = [] \/ fits p)
  /\ forall q : jsstr,
       q `prefix_of` truncated -> (length p < length q)%nat -> ~ fits q.
Proof.
  remember (length truncated) as n eqn:Hn. revert truncated Hn.
  induction n as [n IH] using lt_wf_ind. intros t Hn.
  rewrite truncateLoop_unfold.
  destruct (bool_decide (0 < length t)%nat) eqn:Hlen; simpl.
  - apply bool_decide_eq_true in Hlen.
    destruct (Qle_bool (measure (t ++ Js.ELLIPSIS) font) maxWidth) eqn:Hfit;
      simpl.
    + split; [done |]. split; [right; by apply Qle_bool_iff |].
      intros q Hq Hlt. apply prefix_length in Hq. lia.
    + assert (Hdec : (length (Js.slice_0_m1 t) < n)%nat).
      { unfold Js.slice_0_m1. rewrite length_take. lia. }
      destruct (IH _ Hdec (Js.slice_0_m1 t) eq_refl) as (Hp & Hf & Hmax).
      split; [etrans; [exact Hp | apply slice_0_m1_prefix] |].
      split; [exact Hf |].
      intros q Hq Hlt. destruct (prefix_slice_0_m1 q t Hq) as [-> | Hq'].
      * unfold fits. rewrite <- Qle_bool_iff. by rewrite Hfit.
      * by apply Hmax.
  - apply bool_decide_eq_false in Hlen.
    assert (t = []) as -> by (destruct t; simpl in *; [done | lia]).
    split; [done |]. split; [by left |].
    intros q Hq Hlt. apply prefix_length in Hq. simpl in *. lia.
Qed.

Lemma truncateLoop_length truncated :
  (length (truncateLoop measure maxWidth font truncated)
   <= length truncated)%nat.
Proof. apply prefix_length, truncateLoop_longest. Qed.

End WithCanvas.
End TextMeasurerFacts.

(* ===================================================================== *)
(** * Properties of the rendering engine model                            *)
(* ===================================================================== *)

Module CytoscapeFacts.
Import Cytoscape.

Lemma sameEnds_refl e : sameEnds e e.
Proof. by repeat split. Qed.

Lemma sameEnds_setData obj e : sameEnds e (setData obj e).
Proof. by repeat split. Qed.

Lemma setData_setData obj obj' e :
  setData obj (setData obj' e) = setData obj e.
Proof. reflexivity. Qed.

Lemma setData_nodeData obj : setData obj (nodeData obj) = nodeData obj.
Proof. reflexivity. Qed.

Lemma hasElementWithId_true (g : Core) k :
  hasElementWithId g k = true <-> is_Some (g !! k).
Proof. unfold hasElementWithId. apply bool_decide_eq_true. Qed.

Lemma hasElementWithId_false (g : Core) k :
  hasElementWithId g k = false <-> g !! k = None.
Proof.
  unfold hasElementWithId. rewrite bool_decide_eq_false.
  by rewrite eq_None_not_Some.
Qed.

Lemma absent_true (g : Core) j : absent g j = true <-> g !! jsonId j = None.
Proof. unfold absent. rewrite negb_true_iff. apply hasElementWithId_false. Qed.

Lemma endpointIn_mono (g g' : Core) s :
  (forall k, is_Some (g !! k) -> is_Some (g' !! k)) ->
  endpointIn g s -> endpointIn g' s.
Proof. intros H [Hne Hs]. split; [done | by apply H]. Qed.

(** ** The collection made of the list *)

Lemma created_elem (g : Core) ids js j :
  j ∈ created g ids js ->
  j ∈ js /\ g !! jsonId j = None /\ jsonId j ∉ ids.
Proof.
  revert ids. induction js as [| j0 js IH]; intros ids Hj; simpl in *;
    [by inversion Hj |].
  destruct (hasElementWithId g (jsonId j0)) eqn:Hhas; simpl in Hj.
  { destruct (IH _ Hj) as (? & ? & ?). split; [by right | done]. }
  case_bool_decide as Hids; simpl in Hj.
  { destruct (IH _ Hj) as (? & ? & ?). split; [by right | done]. }
  apply elem_of_cons in Hj as [-> | Hj].
  - split; [left |]. split; [by apply hasElementWithId_false | done].
  - destruct (IH _ Hj) as (? & ? & Hnot). split; [by right |].
    split; [done |]. intros Hin. apply Hnot, elem_of_union. by left.
Qed.

(** No two entries of the collection share an id. *)
Lemma created_NoDup (g : Core) ids js : NoDup (jsonId <$> created g ids js).
Proof.
  revert ids. induction js as [| j0 js IH]; intros ids; simpl; [constructor |].
  destruct (hasElementWithId g (jsonId j0) || bool_decide (jsonId j0 ∈ ids));
    [apply IH |].
  simpl. constructor; [| apply IH].
  intros (j & Hid & Hj)%list_elem_of_fmap.
  apply created_elem in Hj as (_ & _ & Hnot). apply Hnot, elem_of_union.
  right. by apply elem_of_singleton.
Qed.

(** The first entry of the list with a given id is kept, when the id is
    neither in the graph nor among the ids met before. *)
Lemma created_first (g : Core) ids q1 j q2 :
  g !! jsonId j = None -> jsonId j ∉ ids ->
  (forall j', j' ∈ q1 -> jsonId j' <> jsonId j) ->
  j ∈ created g ids (q1 ++ j :: q2).
Proof.
  intros Hg. revert ids. induction q1 as [| j0 q1 IH]; intros ids Hids Hq1;
    simpl.
  - apply hasElementWithId_false in Hg. rewrite Hg.
    rewrite bool_decide_eq_false_2 by done. left.
  - assert (Hne : jsonId j0 <> jsonId j) by (apply Hq1; left).
    assert (Hq1' : forall j', j' ∈ q1 -> jsonId j' <> jsonId j)
      by (intros j' Hj'; apply Hq1; by right).
    destruct (hasElementWithId g (jsonId j0) || bool_decide (jsonId j0 ∈ ids));
      [by apply IH |].
    right. apply IH; [| done].
    intros [Hin | Hin%elem_of_singleton]%elem_of_union; [done | congruence].
Qed.

Lemma created_seen (g : Core) ids k js :
  (forall j, j ∈ js -> jsonId j <> k) ->
  created g (ids ∪ {[k]}) js = created g ids js.
Proof.
  revert ids. induction js as [| j0 js IH]; intros ids H; simpl; [done |].
  assert (Hne : jsonId j0 <> k) by (apply H; left).
  assert (H' : forall j, j ∈ js -> jsonId j <> k)
    by (intros j Hj; apply H; by right).
  assert (Hmem : jsonId j0 ∈ ids ∪ {[k]} <-> jsonId j0 ∈ ids).
  { rewrite elem_of_union, elem_of_singleton. tauto. }
  rewrite (bool_decide_ext _ _ Hmem).
  destruct (hasElementWithId g (jsonId j0) || bool_decide (jsonId j0 ∈ ids));
    [by apply IH |].
  f_equal.
  assert (Hcomm : ids ∪ {[k]} ∪ {[jsonId j0]} = ids ∪ {[jsonId j0]} ∪ {[k]}).
  { rewrite <- !(assoc_L (∪)). f_equal. apply (comm_L (∪)). }
  rewrite Hcomm. by apply IH.
Qed.

(** The collection made of what is left of a list once part of it is in
    the graph is what is left of the collection made of the list. *)
Lemma created_filter (g g' : Core) ids js :
  (forall j, j ∈ js -> g !! jsonId j = None) ->
  created g' ids (List.filter (absent g') js)
  = List.filter (absent g') (created g ids js).
Proof.
  revert ids. induction js as [| j0 js IH]; intros ids H; [done |].
  assert (Hg : hasElementWithId g (jsonId j0) = false)
    by (apply hasElementWithId_false, H; left).
  assert (H' : forall j, j ∈ js -> g !! jsonId j = None)
    by (intros j Hj; apply H; by right).
  cbn [created List.filter]. rewrite Hg. cbn [orb].
  destruct (absent g' j0) eqn:Hab.
  - assert (Hg' : hasElementWithId g' (jsonId j0) = false)
      by (unfold absent in Hab; by apply negb_true_iff in Hab).
    cbn [created]. rewrite Hg'. cbn [orb].
    case_bool_decide; [by apply IH |].
    cbn [List.filter]. rewrite Hab. f_equal. by apply IH.
  - case_bool_decide; [by apply IH |].
    cbn [List.filter]. rewrite Hab. rewrite <- IH by done.
    symmetry. apply created_seen.
    intros j Hj E. apply list_elem_of_In, filter_In in Hj as [_ Hj].
    unfold absent in Hj, Hab. rewrite E in Hj. congruence.
Qed.

Lemma filter_absent_nodesFirst (g : Core) js :
  List.filter (absent g) (nodesFirst js)
  = nodesFirst (List.filter (absent g) js).
Proof.
  unfold nodesFirst. rewrite List.filter_app. f_equal.
  - induction js as [| j js IH]; simpl; [done |].
    destruct (isNodeJson j) eqn:Hn, (absent g j) eqn:Ha; simpl;
      rewrite ?Hn, ?Ha; simpl; by rewrite IH.
  - induction js as [| j js IH]; simpl; [done |].
    destruct (isEdgeJson j) eqn:Hn, (absent g j) eqn:Ha; simpl;
      rewrite ?Hn, ?Ha; simpl; by rewrite IH.
Qed.

Lemma elem_of_nodesFirst js j : j ∈ nodesFirst js <-> j ∈ js.
Proof.
  unfold nodesFirst. rewrite elem_of_app, !list_elem_of_In, !filter_In.
  unfold isEdgeJson. destruct (isNodeJson j); simpl; intuition congruence.
Qed.

Lemma filter_NoDup (f : ElementJson -> bool) js :
  NoDup (jsonId <$> js) -> NoDup (jsonId <$> List.filter f js).
Proof.
  induction js as [| j js IH]; intros H; simpl; [constructor |].
  simpl in H. apply NoDup_cons in H as [Hj H].
  destruct (f j); [| by apply IH]. simpl. constructor; [| by apply IH].
  intros (j' & Hid & Hj')%list_elem_of_fmap. apply Hj.
  apply list_elem_of_fmap. exists j'. split; [done |].
  apply list_elem_of_In, filter_In in Hj' as [Hj' _].
  by apply list_elem_of_In.
Qed.

Lemma NoDup_jsonId_inj js j1 j2 :
  NoDup (jsonId <$> js) -> j1 ∈ js -> j2 ∈ js -> jsonId j1 = jsonId j2 ->
  j1 = j2.
Proof.
  induction js as [| j js IH]; intros H H1 H2 Hid; [by inversion H1 |].
  simpl in H. apply NoDup_cons in H as [Hj H].
  apply elem_of_cons in H1 as [-> | H1], H2 as [-> | H2]; try done.
  - exfalso. apply Hj. apply list_elem_of_fmap. by exists j2.
  - exfalso. apply Hj. apply list_elem_of_fmap. by exists j1.
  - by apply IH.
Qed.

Lemma nodesFirst_NoDup js :
  NoDup (jsonId <$> js) -> NoDup (jsonId <$> nodesFirst js).
Proof.
  intros H. unfold nodesFirst. rewrite fmap_app. apply NoDup_app.
  split; [by apply filter_NoDup |]. split; [| by apply filter_NoDup].
  intros k (j1 & -> & H1)%list_elem_of_fmap (j2 & Hid & H2)%list_elem_of_fmap.
  apply list_elem_of_In, filter_In in H1 as [H1 Hn1].
  apply list_elem_of_In, filter_In in H2 as [H2 Hn2].
  apply list_elem_of_In in H1, H2.
  assert (j1 = j2) as -> by (by apply (NoDup_jsonId_inj js)).
  unfold isEdgeJson in Hn2. rewrite Hn1 in Hn2. done.
Qed.

(** ** The loop of [restore] *)

Lemma checkEndpoint_None (g : Core) edge v :
  checkEndpoint g edge v = None <-> endpointIn g v.
Proof.
  unfold checkEndpoint, endpointIn. case_bool_decide as Hv.
  { split; [done | tauto]. }
  destruct (hasElementWithId g v) eqn:Hhas; simpl.
  - apply hasElementWithId_true in Hhas. tauto.
  - apply hasElementWithId_false in Hhas. split; [done |].
    intros [_ [x Hx]]. congruence.
Qed.

(** An entry is accepted exactly when its id is not empty and not in the
    graph and, for an edge, both its ends are elements of the graph. *)
Lemma refusal_None (g : Core) j :
  refusal g j = None <->
  jsonId j <> [] /\ g !! jsonId j = None
  /\ (forall d, j = EdgeJson d ->
        endpointIn g (e_source d) /\ endpointIn g (e_target d)).
Proof.
  unfold refusal. case_bool_decide as Hid; [split; [done | tauto] |].
  destruct (hasElementWithId g (jsonId j)) eqn:Hhas.
  { apply hasElementWithId_true in Hhas as [x Hx].
    split; [done |]. intros (_ & ? & _). congruence. }
  apply hasElementWithId_false in Hhas.
  destruct j as [d | d]; simpl in *.
  - split; [| done]. intros _. by repeat split.
  - destruct (checkEndpoint g (e_id d) (e_source d)) eqn:Hs.
    + split; [done |]. intros (_ & _ & H).
      destruct (H d eq_refl) as [Hin _].
      apply (checkEndpoint_None g (e_id d)) in Hin. congruence.
    + apply checkEndpoint_None in Hs. rewrite checkEndpoint_None. split.
      * intros Ht. split; [done |]. split; [done |].
        intros d' [= <-]. by split.
      * intros (_ & _ & H). by destruct (H d eq_refl).
Qed.

Lemma restore_nil (g : Core) : restore g [] = {| graph := g; thrown := None |}.
Proof. reflexivity. Qed.

Lemma restore_old (q : list ElementJson) (g : Core) k e :
  g !! k = Some e -> graph (restore g q) !! k = Some e.
Proof.
  revert g. induction q as [| j q IH]; intros g Hk; simpl; [done |].
  destruct (refusal g j) eqn:Hr; [done |].
  apply refusal_None in Hr as (_ & Hnone & _).
  apply IH. rewrite lookup_insert_ne; [done | congruence].
Qed.

Lemma restore_new (q : list ElementJson) (g : Core) k e :
  graph (restore g q) !! k = Some e ->
  g !! k = Some e
  \/ (g !! k = None /\ k <> []
      /\ exists j, j ∈ q /\ k = jsonId j /\ e = dataOf j).
Proof.
  revert g. induction q as [| j q IH]; intros g Hk; simpl in *; [by left |].
  destruct (refusal g j) eqn:Hr; [by left |].
  apply refusal_None in Hr as (Hne & Hnone & _).
  destruct (IH _ Hk) as [Hold | (Hnone' & Hne' & j' & Hin & -> & ->)].
  - destruct (decide (jsonId j = k)) as [<- | Hkj].
    + rewrite lookup_insert_eq in Hold. injection Hold as <-.
      right. repeat split; try done. exists j. split; [left | done].
    + rewrite lookup_insert_ne in Hold by done. by left.
  - right. destruct (decide (jsonId j = jsonId j')) as [E | Hkj].
    + rewrite E, lookup_insert_eq in Hnone'. done.
    + rewrite lookup_insert_ne in Hnone' by done.
      repeat split; try done. exists j'. split; [by right | done].
Qed.

Lemma restore_None (q : list ElementJson) (g : Core) k :
  graph (restore g q) !! k = None -> g !! k = None.
Proof.
  intros H. destruct (g !! k) eqn:Hg; [| done].
  by rewrite (restore_old q _ _ _ Hg) in H.
Qed.

Lemma restore_app (g : Core) q1 q2 :
  restore g (q1 ++ q2)
  = match thrown (restore g q1) with
    | Some _ => restore g q1
    | None => restore (graph (restore g q1)) q2
    end.
Proof.
  revert g. induction q1 as [| j q1 IH]; intros g; simpl; [done |].
  destruct (refusal g j); [done |]. apply IH.
Qed.

(** When [restore] does not throw, every entry is in the graph with its
    own data. *)
Lemma restore_stored (q : list ElementJson) (g : Core) j :
  thrown (restore g q) = None -> j ∈ q ->
  graph (restore g q) !! jsonId j = Some (dataOf j).
Proof.
  revert g. induction q as [| j0 q IH]; intros g Hthrown Hj;
    [by inversion Hj |].
  simpl in *. destruct (refusal g j0) eqn:Hr; [done |].
  apply elem_of_cons in Hj as [-> | Hj]; [| by apply IH].
  apply restore_old. by rewrite lookup_insert_eq.
Qed.

(** [restore] does not throw on entries with distinct, non-empty ids that
    are new to the graph, when the ends of every edge are in the graph. *)
Lemma restore_ok (q : list ElementJson) (g : Core) :
  NoDup (jsonId <$> q) ->
  (forall j, j ∈ q ->
     jsonId j <> [] /\ g !! jsonId j = None
     /\ (forall d, j = EdgeJson d ->
           endpointIn g (e_source d) /\ endpointIn g (e_target d))) ->
  thrown (restore g q) = None.
Proof.
  revert g. induction q as [| j q IH]; intros g Hnd H; simpl; [done |].
  simpl in Hnd. apply NoDup_cons in Hnd as [Hj Hnd].
  assert (Hr : refusal g j = None) by (apply refusal_None, H; left).
  rewrite Hr. apply IH; [done |]. intros j' Hj'.
  destruct (H j' (ltac:(by right))) as (Hne & Hnone & Hends).
  split; [done |]. split.
  - rewrite lookup_insert_ne; [done |]. intros E. apply Hj.
    apply list_elem_of_fmap. by exists j'.
  - intros d ->. destruct (Hends d eq_refl) as [Hs Ht].
    assert (Hmono : forall k, is_Some (g !! k) ->
              is_Some (<[jsonId j := dataOf j]> g !! k)).
    { intros k [x Hx]. destruct (decide (jsonId j = k)) as [<- | Hk].
      - rewrite lookup_insert_eq. by eexists.
      - rewrite lookup_insert_ne by done. by eexists. }
    split; by eapply endpointIn_mono.
Qed.

(** Restoring what is left of a list, in the graph a first call left,
    ends as the first call did. *)
Lemma restore_again (q : list ElementJson) (g : Core) :
  NoDup (jsonId <$> q) ->
  (forall j, j ∈ q -> g !! jsonId j = None) ->
  let out := restore g q in
  restore (graph out) (List.filter (absent (graph out)) q) = out.
Proof.
  revert g. induction q as [| j q IH]; intros g Hnd H; simpl; [done |].
  simpl in Hnd. apply NoDup_cons in Hnd as [Hj Hnd].
  assert (Hg : g !! jsonId j = None) by (apply H; left).
  destruct (refusal g j) eqn:Hr; simpl.
  - assert (absent g j = true) as -> by (by apply absent_true).
    simpl. by rewrite Hr.
  - set (g1 := <[jsonId j := dataOf j]> g).
    assert (Hin : graph (restore g1 q) !! jsonId j = Some (dataOf j))
      by (apply restore_old; unfold g1; by rewrite lookup_insert_eq).
    assert (absent (graph (restore g1 q)) j = false) as ->.
    { apply not_true_iff_false. rewrite absent_true. congruence. }
    apply IH; [done |]. intros j' Hj'. unfold g1.
    rewrite lookup_insert_ne; [apply H; by right |].
    intros E. apply Hj. apply list_elem_of_fmap. by exists j'.
Qed.

End CytoscapeFacts.

(* ===================================================================== *)
(** * Properties of the graph merge engine                                *)
(* ===================================================================== *)

Module GraphMergeFacts.
Import Cytoscape GraphMerge CytoscapeFacts.

Lemma edgeId_nonempty e : edgeId e <> [].
Proof.
  unfold edgeId. intros H. apply (f_equal length) in H.
  rewrite !length_app in H. simpl in H. lia.
Qed.

Lemma edgeQueue_elem g seen es j :
  j ∈ edgeQueue g seen es ->
  exists e, e ∈ es /\ j = EdgeJson (edgeObj e) /\ g !! edgeId e = None.
Proof.
  revert seen. induction es as [| e es IH]; intros seen Hj; simpl in *;
    [by inversion Hj |].
  case_bool_decide.
  - destruct (IH _ Hj) as (e' & ? & ? & ?). exists e'. split; [by right | done].
  - apply elem_of_app in Hj as [Hj | Hj].
    + destruct (g !! edgeId e) eqn:Hg; [by inversion Hj |].
      apply list_elem_of_singleton in Hj as ->. exists e. split; [left | done].
    + destruct (IH _ Hj) as (e' & ? & ? & ?). exists e'.
      split; [by right | done].
Qed.



Lemma edgeQueue_all_edges g seen es j :
  j ∈ edgeQueue g seen es -> isNodeJson j = false.
Proof. intros (e & _ & -> & _)%edgeQueue_elem. reflexivity. Qed.

(** With more elements in the graph, the second loop queues what is left
    of what it queued before. *)
Lemma edgeQueue_filter (g g' : Core) seen es :
  (forall k, g' !! k = None -> g !! k = None) ->
  edgeQueue g' seen es = List.filter (absent g') (edgeQueue g seen es).
Proof.
  intros H. revert seen. induction es as [| e es IH]; intros seen; simpl;
    [done |].
  case_bool_decide; [apply IH |].
  rewrite List.filter_app, <- IH. f_equal.
  destruct (g' !! edgeId e) eqn:Hg'.
  - destruct (g !! edgeId e); simpl; [done |].
    assert (absent g' (EdgeJson (edgeObj e)) = false) as ->; [| done].
    apply not_true_iff_false. rewrite absent_true. simpl. congruence.
  - rewrite (H _ Hg'). simpl.
    assert (absent g' (EdgeJson (edgeObj e)) = true) as ->; [| done].
    by apply absent_true.
Qed.



Section WithCanvas.
Variable measure : jsstr -> jsstr -> Q.

Local Abbreviation nodeQueue := (GraphMerge.nodeQueue measure).
Local Abbreviation afterNodes := (GraphMerge.afterNodes measure).

Lemma nodeQueue_elem g ns j :
  j ∈ nodeQueue g ns <->
  exists n, n ∈ ns /\ j = NodeJson (nodeObj measure n) /\ g !! id n = None.
Proof.
  unfold GraphMerge.nodeQueue. rewrite list_elem_of_fmap. split.
  - intros (n & -> & Hn). apply list_elem_of_In, filter_In in Hn as [Hn Hb].
    apply bool_decide_eq_true in Hb. exists n.
    by rewrite list_elem_of_In.
  - intros (n & Hn & -> & Hg). exists n. split; [done |].
    apply list_elem_of_In, filter_In. split; [by apply list_elem_of_In |].
    by apply bool_decide_eq_true.
Qed.

Lemma nodeQueue_all_nodes g ns j : j ∈ nodeQueue g ns -> isNodeJson j = true.
Proof. intros (n & _ & -> & _)%nodeQueue_elem. reflexivity. Qed.

Lemma nodeQueue_ext (g g' : Core) ns :
  (forall k, g' !! k = None <-> g !! k = None) ->
  nodeQueue g' ns = nodeQueue g ns.
Proof.
  intros H. unfold GraphMerge.nodeQueue. f_equal.
  induction ns as [| n ns IH]; simpl; [done |].
  rewrite IH. by rewrite (bool_decide_ext _ _ (H (id n))).
Qed.

(** One step of the first loop: the set of ids in the graph is unchanged,
    as are the endpoints and label of every element, and every element but
    the one with the node's id. *)
Lemma mergeNode_None st n k :
  cy (mergeNode measure st n) !! k = None <-> cy st !! k = None.
Proof.
  unfold mergeNode, getElementById.
  destruct (cy st !! id n) eqn:Hn; simpl; [| done].
  destruct (decide (id n = k)) as [<- | Hk].
  - rewrite lookup_insert_eq, Hn. done.
  - by rewrite lookup_insert_ne.
Qed.

Lemma mergeNode_frame st n k e :
  cy st !! k = Some e ->
  exists e', cy (mergeNode measure st n) !! k = Some e'
    /\ sameEnds e e' /\ (k <> id n -> e' = e).
Proof.
  intros Hk. unfold mergeNode, getElementById.
  destruct (cy st !! id n) eqn:Hn; simpl.
  - destruct (decide (id n = k)) as [<- | Hne].
    + rewrite lookup_insert_eq. eexists. split; [done |].
      assert (d = e) as -> by congruence.
      split; [apply sameEnds_setData | done].
    + rewrite lookup_insert_ne by done. exists e.
      split; [done |]. split; [apply sameEnds_refl | done].
  - exists e. split; [done |]. split; [apply sameEnds_refl | done].
Qed.

Lemma mergeNode_seen st n :
  seenEdgeIds (mergeNode measure st n) = seenEdgeIds st.
Proof. unfold mergeNode. by destruct (getElementById _ _). Qed.

Lemma mergeNode_queue st n :
  elementsToAdd (mergeNode measure st n)
  = elementsToAdd st ++ nodeQueue (cy st) [n].
Proof.
  unfold mergeNode, getElementById, GraphMerge.nodeQueue. simpl.
  destruct (cy st !! id n) eqn:Hn; simpl.
  - by rewrite app_nil_r.
  - done.
Qed.

Lemma mergeNodes_None ns st k :
  cy (foldl (mergeNode measure) st ns) !! k = None <-> cy st !! k = None.
Proof.
  revert st. induction ns as [| n ns IH]; intros st; simpl; [done |].
  rewrite IH. apply mergeNode_None.
Qed.

Lemma mergeNodes_seen ns st :
  seenEdgeIds (foldl (mergeNode measure) st ns) = seenEdgeIds st.
Proof.
  revert st. induction ns as [| n ns IH]; intros st; simpl; [done |].
  rewrite IH. apply mergeNode_seen.
Qed.

Lemma mergeNodes_queue ns st :
  elementsToAdd (foldl (mergeNode measure) st ns)
  = elementsToAdd st ++ nodeQueue (cy st) ns.
Proof.
  revert st. induction ns as [| n ns IH]; intros st; simpl.
  - by rewrite app_nil_r.
  - rewrite IH, mergeNode_queue, <- app_assoc. f_equal.
    rewrite (nodeQueue_ext (cy st) (cy (mergeNode measure st n)))
      by (intros; apply mergeNode_None).
    unfold GraphMerge.nodeQueue. simpl. by destruct (bool_decide _).
Qed.

Lemma mergeNodes_frame ns st k e :
  cy st !! k = Some e ->
  exists e', cy (foldl (mergeNode measure) st ns) !! k = Some e'
    /\ sameEnds e e' /\ ((forall n, n ∈ ns -> k <> id n) -> e' = e).
Proof.
  revert st e. induction ns as [| n ns IH]; intros st e Hk; simpl.
  - exists e. split; [done |]. split; [apply sameEnds_refl | done].
  - destruct (mergeNode_frame st n k e Hk) as (e1 & H1 & Hs1 & Hf1).
    destruct (IH _ _ H1) as (e2 & H2 & Hs2 & Hf2).
    exists e2. split; [done |]. split.
    + destruct Hs1 as (? & ? & ?), Hs2 as (? & ? & ?).
      repeat split; congruence.
    + intros Hnot. rewrite Hf2, Hf1; [done | |].
      * apply Hnot. left.
      * intros n' Hn'. apply Hnot. by right.
Qed.

(** After the first loop every element that has the id of a payload node
    carries that node's data, provided equal ids mean equal nodes. *)
Lemma mergeNodes_stamped ns st :
  consistentNodes ns ->
  forall n e, n ∈ ns ->
    cy (foldl (mergeNode measure) st ns) !! id n = Some e ->
    setData (nodeObj measure n) e = e.
Proof.
  induction ns as [| x ns IH] using rev_ind; intros Hcons n e Hn He;
    [by inversion Hn |].
  rewrite foldl_app in He. simpl in He.
  set (st1 := foldl (mergeNode measure) st ns) in *.
  assert (Hcons' : consistentNodes ns).
  { intros a b Ha Hb. apply Hcons; apply elem_of_app; by left. }
  assert (Hx : x ∈ ns ++ [x]) by (apply elem_of_app; right; left).
  unfold mergeNode, getElementById in He.
  destruct (cy st1 !! id x) eqn:Hx1; simpl in He.
  - destruct (decide (id x = id n)) as [Heq | Hne].
    + rewrite Heq, lookup_insert_eq in He. injection He as <-.
      rewrite (Hcons n x Hn Hx (eq_sym Heq)). apply setData_setData.
    + rewrite lookup_insert_ne in He by done.
      apply elem_of_app in Hn as [Hn | Hn]; [by apply IH |].
      apply list_elem_of_singleton in Hn. by subst.
  - apply elem_of_app in Hn as [Hn | Hn]; [by apply IH |].
    apply list_elem_of_singleton in Hn. subst. congruence.
Qed.

(** The second loop leaves the graph alone and queues [edgeQueue]. *)
Lemma mergeEdges_spec es st :
  cy (foldl mergeEdge st es) = cy st
  /\ elementsToAdd (foldl mergeEdge st es)
     = elementsToAdd st ++ edgeQueue (cy st) (seenEdgeIds st) es.
Proof.
  revert st. induction es as [| e es IH]; intros st; simpl.
  - by rewrite app_nil_r.
  - destruct (IH (mergeEdge st e)) as [-> ->]. unfold mergeEdge, getElementById.
    case_bool_decide; simpl; [done |].
    destruct (cy st !! edgeId e); simpl; [done |].
    by rewrite <- app_assoc.
Qed.

Lemma nodeQueue_filter (g g' : Core) ns :
  (forall k, g' !! k = None -> g !! k = None) ->
  nodeQueue g' ns = List.filter (absent g') (nodeQueue g ns).
Proof.
  intros H. unfold GraphMerge.nodeQueue.
  induction ns as [| n ns IH]; [done |].
  cbn [List.filter].
  destruct (bool_decide (g' !! id n = None)) eqn:Hg'.
  - apply bool_decide_eq_true in Hg'.
    rewrite (bool_decide_eq_true_2 (g !! id n = None)) by (by apply H).
    rewrite !fmap_cons. cbn [List.filter].
    assert (absent g' (NodeJson (nodeObj measure n)) = true) as ->
      by (by apply absent_true).
    f_equal. exact IH.
  - apply bool_decide_eq_false in Hg'.
    destruct (bool_decide (g !! id n = None)); [| exact IH].
    rewrite fmap_cons. cbn [List.filter].
    assert (absent g' (NodeJson (nodeObj measure n)) = false) as ->;
      [| exact IH].
    apply not_true_iff_false. by rewrite absent_true.
Qed.


(** [mergeGraph] in two stages: data overwritten in place, then the queue
    given to [cy.add]. *)
Lemma mergeGraph_stages (g : Core) ns es :
  mergeGraph measure (Some {| nodes := ns; edges := es |}) g
  = add (afterNodes g (default [] ns))
      (batch measure g (default [] ns) (default [] es)).
Proof.
  unfold mergeGraph, GraphMerge.batch, GraphMerge.afterNodes. simpl.
  pose (st0 := {| cy := g; elementsToAdd := []; seenEdgeIds := ∅ |}).
  fold st0.
  remember (foldl (mergeNode measure) st0 (default [] ns)) as st1 eqn:Hst1.
  assert (Hq1 : elementsToAdd st1 = nodeQueue g (default [] ns))
    by (subst st1; by rewrite mergeNodes_queue).
  assert (Hs1 : seenEdgeIds st1 = ∅) by (subst st1; by rewrite mergeNodes_seen).
  destruct (mergeEdges_spec (default [] es) st1) as [Hcy Hq].
  rewrite Hcy, Hq, Hq1, Hs1.
  case_bool_decide as Hlen; [done |].
  destruct (nodeQueue g (default [] ns) ++ edgeQueue (cy st1) ∅ (default [] es))
    eqn:E; [done | simpl in Hlen; lia].
Qed.

Lemma afterNodes_None g ns k : afterNodes g ns !! k = None <-> g !! k = None.
Proof. unfold GraphMerge.afterNodes. by rewrite mergeNodes_None. Qed.

Lemma afterNodes_frame g ns k e :
  g !! k = Some e ->
  exists e', afterNodes g ns !! k = Some e'
    /\ sameEnds e e' /\ ((forall n, n ∈ ns -> k <> id n) -> e' = e).
Proof. intros H. unfold GraphMerge.afterNodes. by apply mergeNodes_frame. Qed.

Lemma afterNodes_back g ns k e' :
  afterNodes g ns !! k = Some e' ->
  exists e, g !! k = Some e /\ sameEnds e e'.
Proof.
  intros H. destruct (g !! k) as [e |] eqn:Hg.
  - destruct (afterNodes_frame g ns k e Hg) as (e1 & H1 & Hs & _).
    exists e. split; [done |]. congruence.
  - apply (afterNodes_None g ns) in Hg. congruence.
Qed.

(** When every payload node already has its data in the graph, the first
    loop changes nothing. *)
Lemma mergeNodes_fixpoint ns st :
  (forall n e, n ∈ ns -> cy st !! id n = Some e ->
     setData (nodeObj measure n) e = e) ->
  cy (foldl (mergeNode measure) st ns) = cy st.
Proof.
  revert st. induction ns as [| n ns IH]; intros st H; simpl; [done |].
  assert (Hstep : cy (mergeNode measure st n) = cy st).
  { unfold mergeNode, getElementById.
    destruct (cy st !! id n) eqn:Hn; simpl; [| done].
    rewrite (H n d) by (done || left). by apply insert_id. }
  rewrite IH; [done |]. intros n' e Hn' He. rewrite Hstep in He.
  apply H; [by right | done].
Qed.

(** ** The queue *)

(** An entry of the queue comes from a node or an edge of the payload, and
    its id is new to the graph. *)
Lemma batch_elem (g : Core) ns es j :
  j ∈ batch measure g ns es ->
  afterNodes g ns !! jsonId j = None
  /\ ((exists n, n ∈ ns /\ j = NodeJson (nodeObj measure n))
      \/ (exists e, e ∈ es /\ j = EdgeJson (edgeObj e))).
Proof.
  unfold GraphMerge.batch. intros [Hj | Hj]%elem_of_app.
  - apply nodeQueue_elem in Hj as (n & Hn & -> & Hg).
    split; [by apply afterNodes_None |]. left. by exists n.
  - apply edgeQueue_elem in Hj as (e & He & -> & Hg).
    split; [done |]. right. by exists e.
Qed.

(** The first entry of a list with a given id. *)
Lemma first_with_id (q : list ElementJson) k :
  (exists j, j ∈ q /\ jsonId j = k) ->
  exists q1 j0 q2, q = q1 ++ j0 :: q2 /\ jsonId j0 = k
    /\ forall j', j' ∈ q1 -> jsonId j' <> k.
Proof.
  induction q as [| j q IH]; intros (j1 & Hj1 & Hk); [by inversion Hj1 |].
  destruct (decide (jsonId j = k)) as [E | Hne].
  - exists [], j, q. split; [done |]. split; [done |].
    intros j' Hj'. by inversion Hj'.
  - destruct IH as (q1 & j0 & q2 & -> & ? & Hq1).
    { apply elem_of_cons in Hj1 as [-> | Hj1]; [done |]. by exists j1. }
    exists (j :: q1), j0, q2. split; [done |]. split; [done |].
    intros j' [-> | Hj']%elem_of_cons; [done | by apply Hq1].
Qed.


(** An edge entry that [cy.add] keeps does not have the id of a node of
    the payload. *)
Lemma created_edge_not_node (g : Core) ns es d n :
  EdgeJson d ∈ created (afterNodes g ns) ∅ (batch measure g ns es) ->
  n ∈ ns -> e_id d <> id n.
Proof.
  intros Hd Hn E.
  pose proof (created_elem _ _ _ _ Hd) as (Hq & Hnone & _). simpl in Hnone.
  assert (Hg : g !! id n = None) by (apply (afterNodes_None g ns); congruence).
  assert (Hex : exists j, j ∈ nodeQueue g ns /\ jsonId j = id n).
  { exists (NodeJson (nodeObj measure n)). split; [| done].
    apply nodeQueue_elem. by exists n. }
  destruct (first_with_id _ _ Hex) as (q1 & j0 & q2 & Hsplit & Hid & Hq1).
  assert (Hnode : isNodeJson j0 = true).
  { apply (nodeQueue_all_nodes g ns). rewrite Hsplit.
    apply elem_of_app. right. left. }
  assert (H0 : j0 ∈ created (afterNodes g ns) ∅ (batch measure g ns es)).
  { unfold GraphMerge.batch. rewrite Hsplit, <- app_assoc. simpl.
    apply created_first; [congruence | apply not_elem_of_empty |].
    intros j' Hj'. rewrite Hid. by apply Hq1. }
  assert (j0 = EdgeJson d) as ->; [| done].
  apply (NoDup_jsonId_inj _ _ _ (created_NoDup _ _ _) H0 Hd). simpl. congruence.
Qed.

(** ** The merged graph *)

(** Nothing is removed. *)
Lemma mergeGraph_keeps (g : Core) ns es k e :
  g !! k = Some e ->
  exists e',
    graph (mergeGraph measure (Some {| nodes := ns; edges := es |}) g) !! k
    = Some e'
    /\ sameEnds e e'
    /\ ((forall n, n ∈ default [] ns -> k <> id n) -> e' = e).
Proof.
  intros He. rewrite mergeGraph_stages.
  destruct (afterNodes_frame g (default [] ns) _ _ He) as (e' & H1 & Hs & Hf).
  exists e'. split; [by apply restore_old | done].
Qed.


Lemma isEdge_sameEnds e e' : sameEnds e e' -> isEdge e' = isEdge e.
Proof. intros (Hs & Ht & _). unfold isEdge. by rewrite Hs, Ht. Qed.




(** Upsert by id: the element with the id of a payload node ends with the
    node's data, its endpoints and label untouched. *)
Lemma mergeGraph_upsert (g : Core) ns es n e :
  consistentNodes (default [] ns) ->
  n ∈ default [] ns -> g !! id n = Some e ->
  graph (mergeGraph measure (Some {| nodes := ns; edges := es |}) g) !! id n
  = Some (setData (nodeObj measure n) e).
Proof.
  intros Hcons Hn He. rewrite mergeGraph_stages.
  destruct (afterNodes_frame g (default [] ns) _ _ He) as (e' & H1 & Hs & _).
  apply restore_old. rewrite H1. f_equal.
  unfold GraphMerge.afterNodes in H1.
  rewrite <- (mergeNodes_stamped (default [] ns) _ Hcons n e' Hn H1).
  destruct Hs as (Hs & Ht & Hl). unfold setData. by rewrite Hs, Ht, Hl.
Qed.

(** Idempotence: a second call with the payload ends as the first did, in
    the graph the first left. *)
Lemma mergeGraph_twice (g : Core) ns es :
  consistentNodes (default [] ns) ->
  let p := Some {| nodes := ns; edges := es |} in
  mergeGraph measure p (graph (mergeGraph measure p g))
  = mergeGraph measure p g.
Proof.
  intros Hcons p. unfold p. rewrite !mergeGraph_stages.
  set (ns' := default [] ns) in *. set (es' := default [] es).
  set (g1 := afterNodes g ns'). set (Q := batch measure g ns' es').
  set (g2 := graph (add g1 Q)).
  assert (Hsub1 : forall k, g2 !! k = None -> g1 !! k = None)
    by (intros k; apply restore_None).
  assert (Hsub : forall k, g2 !! k = None -> g !! k = None)
    by (intros k Hk; by apply (afterNodes_None g ns'), Hsub1).
  assert (HQ : forall j, j ∈ Q -> g1 !! jsonId j = None)
    by (intros j Hj; by apply batch_elem in Hj as [? _]).
  assert (H1 : afterNodes g2 ns' = g2).
  { unfold GraphMerge.afterNodes. apply mergeNodes_fixpoint. simpl.
    intros n e Hn He. unfold g2, add in He.
    apply restore_new in He as [He | (Hnone & _ & j & Hj & Hid & ->)].
    - by apply (mergeNodes_stamped ns' _ Hcons n e Hn He).
    - rewrite elem_of_nodesFirst in Hj.
      pose proof (created_elem _ _ _ _ Hj) as (HjQ & _).
      apply batch_elem in HjQ as (_ & [(n' & Hn' & ->) | (e' & He' & ->)]).
      + simpl in Hid. rewrite (Hcons n n' Hn Hn' Hid). apply setData_nodeData.
      + exfalso.
        apply (created_edge_not_node g ns' es' (edgeObj e') n Hj Hn).
        simpl in *. congruence. }
  assert (H2 : batch measure g2 ns' es' = List.filter (absent g2) Q).
  { unfold Q, GraphMerge.batch. rewrite H1, List.filter_app. f_equal.
    - by apply nodeQueue_filter.
    - by apply edgeQueue_filter. }
  rewrite H1, H2. unfold add. rewrite (created_filter g1 g2) by done.
  rewrite <- filter_absent_nodesFirst.
  apply (restore_again (nodesFirst (created g1 ∅ Q)) g1).
  - apply nodesFirst_NoDup, created_NoDup.
  - intros j Hj. rewrite elem_of_nodesFirst in Hj.
    by apply created_elem in Hj as (_ & ? & _).
Qed.

(** ** Payloads [cy.add] has no reason to refuse *)

Lemma mergeGraph_completes (g : Core) p :
  wellFormed g p -> thrown (mergeGraph measure p g) = None.
Proof.
  intros [Hids Hends]. destruct p as [[ns es] |]; [| done].
  rewrite mergeGraph_stages. simpl in Hids, Hends.
  set (ns' := default [] ns) in *. set (es' := default [] es) in *.
  set (g1 := afterNodes g ns'). set (Q := batch measure g ns' es').
  set (C := created g1 ∅ Q).
  assert (HC : forall j, j ∈ C ->
            g1 !! jsonId j = None
            /\ ((exists n, n ∈ ns' /\ j = NodeJson (nodeObj measure n))
                \/ (exists e, e ∈ es' /\ j = EdgeJson (edgeObj e)))).
  { intros j Hj. apply created_elem in Hj as (Hj & _). by apply batch_elem. }
  assert (Hfilter : forall (f : ElementJson -> bool) j,
            j ∈ List.filter f C -> j ∈ C /\ f j = true).
  { intros f j Hj. apply list_elem_of_In, filter_In in Hj as [Hj ?].
    by apply list_elem_of_In in Hj. }
  assert (Hnodes : thrown (restore g1 (List.filter isNodeJson C)) = None).
  { apply restore_ok; [apply filter_NoDup, created_NoDup |].
    intros j Hj. apply Hfilter in Hj as [Hj Hnode].
    destruct (HC j Hj) as (Hnone & [(n & Hn & ->) | (e & _ & ->)]); [| done].
    split; [by apply Hids |]. split; [done |]. intros d [=]. }
  unfold add, nodesFirst. fold C. rewrite restore_app, Hnodes.
  set (gN := graph (restore g1 (List.filter isNodeJson C))) in *.
  assert (Hdraw : forall v, drawable g (Some {| nodes := ns; edges := es |}) v ->
            endpointIn gN v).
  { intros v [Hne Hv]. split; [done |].
    destruct (g !! v) as [d |] eqn:Hg.
    - destruct (afterNodes_frame g ns' _ _ Hg) as (d' & Hd' & _).
      exists d'. by apply restore_old.
    - destruct Hv as [[d Hd] | (n & Hn & Hid)]; [congruence |].
      simpl in Hn. fold ns' in Hn.
      assert (Hg1 : g1 !! v = None) by (by apply (afterNodes_None g ns')).
      assert (Hex : exists j, j ∈ nodeQueue g ns' /\ jsonId j = v).
      { exists (NodeJson (nodeObj measure n)). split; [| done].
        apply nodeQueue_elem. exists n. split; [done |]. split; [done |].
        congruence. }
      destruct (first_with_id _ _ Hex) as (q1 & j0 & q2 & Hsplit & Hid0 & Hq1).
      assert (Hnode : isNodeJson j0 = true).
      { apply (nodeQueue_all_nodes g ns'). rewrite Hsplit.
        apply elem_of_app. right. left. }
      assert (H0 : j0 ∈ C).
      { unfold C, Q, GraphMerge.batch. rewrite Hsplit, <- app_assoc. simpl.
        apply created_first; [congruence | apply not_elem_of_empty |].
        intros j' Hj'. rewrite Hid0. by apply Hq1. }
      exists (dataOf j0). rewrite <- Hid0. apply restore_stored; [done |].
      apply list_elem_of_In, filter_In. split; [by apply list_elem_of_In | done]. }
  apply restore_ok; [apply filter_NoDup, created_NoDup |].
  intros j Hj. apply Hfilter in Hj as [Hj Hedge].
  destruct (HC j Hj) as (Hnone & [(n & _ & ->) | (e & He & ->)]); [done |].
  split; [apply edgeId_nonempty |]. split.
  - destruct (gN !! jsonId (EdgeJson (edgeObj e))) as [d |] eqn:HgN; [| done].
    exfalso.
    apply restore_new in HgN as [? | (_ & _ & j' & Hj' & Hid & _)];
      [congruence |].
    apply Hfilter in Hj' as [Hj' Hnode].
    assert (EdgeJson (edgeObj e) = j') as <-; [| done].
    by apply (NoDup_jsonId_inj C _ _ (created_NoDup _ _ _)).
  - intros d [= <-]. simpl. destruct (Hends e He) as [Hs Ht].
    split; by apply Hdraw.
Qed.




End WithCanvas.




End GraphMergeFacts.

(* ===================================================================== *)
(** * Properties of the timer table                                       *)
(* ===================================================================== *)

Module BrowserFacts.
Import Browser.

Lemma fresh_set a n cb :
  fresh (mkTimers a n) -> fresh (mkTimers (<[n := cb]> a) (n + 1)).
Proof.
  intros Hf h c. simpl. destruct (decide (n = h)) as [-> | Hne].
  - intros _. lia.
  - rewrite lookup_insert_ne by done. intros H. specialize (Hf h c H).
    simpl in Hf. lia.
Qed.

Lemma fresh_delete a n h :
  fresh (mkTimers a n) -> fresh (mkTimers (delete h a) n).
Proof.
  intros Hf h' c. simpl. intros H.
  apply lookup_delete_Some in H as [_ H]. by apply (Hf h' c).
Qed.

Lemma fresh_clear t o : fresh t -> fresh (clearTimer o t).
Proof. destruct t, o; simpl; [apply fresh_delete | done]. Qed.

Lemma owns_set_same a n cb :
  fresh (mkTimers a n) -> owns (mkTimers a n) cb None ->
  owns (mkTimers (<[n := cb]> a) (n + 1)) cb (Some n).
Proof.
  intros Hf Ho h. simpl. destruct (decide (n = h)) as [-> | Hne].
  - by rewrite lookup_insert_eq.
  - rewrite lookup_insert_ne by done. split.
    + intros H. by apply Ho in H.
    + intros [= ->]. done.
Qed.

Lemma owns_set_other a n cb cb' o :
  cb <> cb' -> fresh (mkTimers a n) -> owns (mkTimers a n) cb' o ->
  owns (mkTimers (<[n := cb]> a) (n + 1)) cb' o.
Proof.
  intros Hcb Hf Ho h. simpl. destruct (decide (n = h)) as [-> | Hne].
  - rewrite lookup_insert_eq. split; [congruence |].
    intros Hh. apply Ho in Hh. apply Hf in Hh. simpl in Hh. lia.
  - rewrite lookup_insert_ne by done. apply Ho.
Qed.

Lemma owns_delete_same a n cb h :
  owns (mkTimers a n) cb (Some h) -> owns (mkTimers (delete h a) n) cb None.
Proof.
  intros Ho h'. simpl. split; [| done].
  intros H. apply lookup_delete_Some in H as [Hne H].
  apply Ho in H. congruence.
Qed.

Lemma owns_delete_other a n cb cb' h o :
  cb <> cb' -> owns (mkTimers a n) cb (Some h) -> owns (mkTimers a n) cb' o ->
  owns (mkTimers (delete h a) n) cb' o.
Proof.
  intros Hcb Ho Ho' h'. simpl. rewrite <- (Ho' h'). split.
  - intros H. by apply lookup_delete_Some in H as [_ H].
  - intros H. apply lookup_delete_Some. split; [| done].
    intros ->. assert (Hh : a !! h' = Some cb) by (by apply Ho).
    simpl in *. congruence.
Qed.

Lemma running_owns t cb o :
  owns t cb o ->
  running cb t = match o with Some h => {[h]} | None => ∅ end.
Proof.
  intros Ho. apply set_eq. intros h. unfold running.
  rewrite elem_of_dom. unfold is_Some.
  setoid_rewrite map_lookup_filter_Some. simpl. split.
  - intros (c & Hc & ->). apply Ho in Hc. subst. set_solver.
  - intros Hh. exists cb. split; [| done]. apply Ho.
    destruct o; set_solver.
Qed.

Lemma running_size t cb o : owns t cb o -> (size (running cb t) <= 1)%nat.
Proof.
  intros Ho. rewrite (running_owns t cb o Ho). destruct o.
  - rewrite size_singleton. lia.
  - rewrite size_empty. lia.
Qed.

End BrowserFacts.

(* ===================================================================== *)
(** * Properties of the overlay state machine (backend wait only)         *)
(* ===================================================================== *)

Module OverlayFacts.
Import Browser BrowserFacts Overlay.

Lemma refreshOverlay_overlayState p :
  overlayState (refreshOverlay p) = overlayState p.
Proof. unfold refreshOverlay, display. by repeat case_match. Qed.

Lemma refreshOverlay_backendWaitState p :
  backendWaitState (refreshOverlay p) = backendWaitState p.
Proof. unfold refreshOverlay, display. by repeat case_match. Qed.

Lemma refreshOverlay_intervalId p :
  backendHealthCheckIntervalId (refreshOverlay p)
  = backendHealthCheckIntervalId p.
Proof. unfold refreshOverlay, display. by repeat case_match. Qed.

Lemma refreshOverlay_timers p : timers (refreshOverlay p) = timers p.
Proof. unfold refreshOverlay, display. by repeat case_match. Qed.

Ltac refresh_simpl :=
  rewrite ?refreshOverlay_overlayState, ?refreshOverlay_backendWaitState,
    ?refreshOverlay_intervalId, ?refreshOverlay_timers.

Lemma refreshOverlay_shown p : shown (refreshOverlay p).
Proof.
  unfold shown, refreshOverlay, display.
  destruct (0 <? taskDepth (overlayState p)) eqn:Hd;
    [apply Z.ltb_lt in Hd | apply Z.ltb_ge in Hd];
    destruct (backend_active (overlayState p)) eqn:Hb;
    destruct (transient_active (overlayState p)) eqn:Ht;
    simpl; rewrite ?Hb, ?Ht; repeat split; intros; try done; lia.
Qed.

Lemma consistent_refreshOverlay p : consistent p -> consistent (refreshOverlay p).
Proof. unfold consistent. by refresh_simpl. Qed.

Ltac open_page p :=
  destruct p as [[d tm ba bm ta tmsg tid] [wa wt ws wb] iid hid msg [a n]].

Ltac split5 := split; [| split; [| split; [| split]]].

Lemma consistent_showLoading message p :
  consistent p -> consistent (showLoading message p).
Proof.
  intros H. apply consistent_refreshOverlay. open_page p. exact H.
Qed.

Lemma consistent_hideLoading p : consistent p -> consistent (hideLoading p).
Proof.
  intros H. apply consistent_refreshOverlay. open_page p. exact H.
Qed.

Lemma consistent_transientExpired p h :
  consistent p ->
  Browser.active (timers p) !! h = Some TransientExpiry ->
  consistent
    (transientExpired (withTimers (clearTimer (Some h) (timers p)) p)).
Proof.
  intros (Hf & Hw & Hp & Ht & Hb) Hh. apply consistent_refreshOverlay.
  open_page p. unfold consistent, waitOwner in *. simpl in *.
  assert (tid = Some h) as -> by (by apply Ht).
  split5; try done.
  - by apply fresh_delete.
  - eapply owns_delete_other; [| exact Ht | exact Hw]. done.
  - eapply owns_delete_other; [| exact Ht | exact Hp]. done.
  - by apply owns_delete_same.
Qed.

Lemma consistent_showTransientStatus message duration p :
  consistent p -> consistent (showTransientStatus message duration p).
Proof.
  intros (Hf & Hw & Hp & Ht & Hb). unfold showTransientStatus.
  open_page p. unfold consistent, waitOwner in *. simpl in *.
  apply consistent_refreshOverlay. unfold consistent, waitOwner. simpl.
  destruct tid as [h |]; simpl.
  - split5; try done.
    + by apply fresh_set, fresh_delete.
    + apply owns_set_other; [done | by apply fresh_delete |].
      eapply owns_delete_other; [| exact Ht | exact Hw]. done.
    + apply owns_set_other; [done | by apply fresh_delete |].
      eapply owns_delete_other; [| exact Ht | exact Hp]. done.
    + apply owns_set_same; [by apply fresh_delete |].
      by apply owns_delete_same.
  - split5; try done.
    + by apply fresh_set.
    + by apply owns_set_other.
    + by apply owns_set_other.
    + by apply owns_set_same.
Qed.

Lemma updateBackendWaitMessage_restores now p :
  fresh (timers p) ->
  owns (timers p) UpdateBackendWaitMessage (waitOwner (backendWaitState p)) ->
  owns (timers p) HealthCheck (backendHealthCheckIntervalId p) ->
  owns (timers p) TransientExpiry (transient_timeoutId (overlayState p)) ->
  (active (backendWaitState p) = false ->
   backend_active (overlayState p) = false) ->
  consistent (updateBackendWaitMessage now p).
Proof.
  intros Hf Hw Hp Ht Hb. unfold updateBackendWaitMessage.
  destruct (active (backendWaitState p)) eqn:Ha; simpl.
  - apply consistent_refreshOverlay. open_page p.
    unfold consistent, waitOwner in *. simpl in *. by subst.
  - unfold consistent. rewrite Ha. by rewrite Hb.
Qed.

Lemma consistent_updateBackendWaitMessage now p :
  consistent p -> consistent (updateBackendWaitMessage now p).
Proof.
  intros (Hf & Hw & Hp & Ht & Hb).
  apply updateBackendWaitMessage_restores; try done.
  intros Ha. by rewrite Hb.
Qed.

Lemma consistent_startBackendWait now messagePrefix p :
  consistent p -> consistent (startBackendWait now messagePrefix p).
Proof.
  intros (Hf & Hw & Hp & Ht & Hb). unfold startBackendWait.
  open_page p. unfold waitOwner in *. simpl in *.
  destruct wa; simpl; apply updateBackendWaitMessage_restores; simpl;
    try done.
  - by apply fresh_set.
  - by apply owns_set_same.
  - by apply owns_set_other.
  - by apply owns_set_other.
Qed.

Lemma consistent_beginBackendRecovery now messagePrefix p :
  consistent p -> consistent (beginBackendRecovery now messagePrefix p).
Proof.
  intros H. apply (consistent_startBackendWait now messagePrefix) in H.
  unfold beginBackendRecovery.
  set (q := startBackendWait now messagePrefix p) in *. clearbody q.
  destruct (backendHealthCheckIntervalId q) eqn:Hi; [done |].
  destruct H as (Hf & Hw & Hp & Ht & Hb). rewrite Hi in Hp.
  open_page q. unfold consistent, waitOwner in *. simpl in *.
  split5; try done.
  - by apply fresh_set.
  - by apply owns_set_other.
  - by apply owns_set_same.
  - by apply owns_set_other.
Qed.

Lemma consistent_stopBackendWait p :
  consistent p -> consistent (stopBackendWait p).
Proof.
  intros H. pose proof H as (Hf & Hw & Hp & Ht & Hb). unfold stopBackendWait.
  destruct (active (backendWaitState p)) eqn:Ha; simpl; [| done].
  apply consistent_refreshOverlay.
  open_page p. unfold consistent, waitOwner in *. simpl in *. subst.
  destruct wt as [h |]; simpl; split5; try done.
  - by apply fresh_delete.
  - by apply owns_delete_same.
  - eapply owns_delete_other; [| exact Hw | exact Hp]. done.
  - eapply owns_delete_other; [| exact Hw | exact Ht]. done.
Qed.

Lemma consistent_clearPoller p :
  consistent p ->
  consistent
    (withIntervalId None
       (withTimers (clearTimer (backendHealthCheckIntervalId p) (timers p)) p)).
Proof.
  intros H. pose proof H as (Hf & Hw & Hp & Ht & Hb).
  open_page p. unfold consistent, waitOwner in *. simpl in *.
  destruct iid as [h |]; simpl; split5; try done.
  - by apply fresh_delete.
  - eapply owns_delete_other; [| exact Hp | exact Hw]. done.
  - by apply owns_delete_same.
  - eapply owns_delete_other; [| exact Hp | exact Ht]. done.
Qed.

Lemma markBackendOnline_eq p :
  markBackendOnline p
  = let q := stopBackendWait p in
    withIntervalId None
      (withTimers (clearTimer (backendHealthCheckIntervalId q) (timers q)) q).
Proof.
  unfold markBackendOnline. simpl.
  destruct (backendHealthCheckIntervalId (stopBackendWait p)) eqn:E;
    [done |].
  by destruct (stopBackendWait p) as [? ? ? ? ? []]; simpl in *; subst.
Qed.

Lemma consistent_markBackendOnline p :
  consistent p -> consistent (markBackendOnline p).
Proof.
  intros H. rewrite markBackendOnline_eq. simpl.
  by apply consistent_clearPoller, consistent_stopBackendWait.
Qed.

Lemma consistent_pollContinuation recovered p :
  consistent p -> consistent (pollContinuation recovered p).
Proof.
  intros H. unfold pollContinuation. destruct recovered; [| done].
  by apply consistent_clearPoller.
Qed.

Lemma consistent_pingBackend health p :
  consistent p -> consistent (pingBackend health p).2.
Proof.
  intros H. unfold pingBackend. destruct health as [| status body]; [done |].
  destruct (ok status); simpl; [| done]. by apply consistent_markBackendOnline.
Qed.

Lemma consistent_request now outcome p :
  consistent p -> consistent (request now outcome p).2.
Proof.
  intros H. unfold request. destruct outcome as [| status body]; simpl.
  - by apply consistent_beginBackendRecovery.
  - destruct (ok status); simpl.
    + by apply consistent_markBackendOnline.
    + destruct (500 <=? status); [| done].
      by apply consistent_beginBackendRecovery.
Qed.

Lemma consistent_fire h now p : consistent p -> consistent (fire h now p).
Proof.
  intros H. unfold fire.
  destruct (Browser.active (timers p) !! h) as [[] |] eqn:Hh; try done.
  - by apply consistent_updateBackendWaitMessage.
  - by apply consistent_transientExpired.
Qed.

Lemma consistent_step p e : consistent p -> consistent (step p e).
Proof.
  intros H. destruct e; simpl.
  - by apply consistent_showLoading.
  - by apply consistent_hideLoading.
  - by apply consistent_showTransientStatus.
  - by apply consistent_fire.
  - by apply consistent_pingBackend.
  - by apply consistent_pollContinuation.
  - destruct isOnline; simpl; [done |].
    by apply consistent_beginBackendRecovery.
  - by apply consistent_request.
Qed.

Lemma consistent_initial : consistent initialPage.
Proof.
  unfold consistent, initialPage, waitOwner, fresh, owns. simpl.
  split5; try done; intros h; rewrite lookup_empty; split; done.
Qed.

Lemma consistent_run es p : consistent p -> consistent (run p es).
Proof.
  revert p. induction es as [| e es IH]; intros p H; simpl; [done |].
  by apply IH, consistent_step.
Qed.

(** ** What each function does to the task depth, the wait state and the
       poller handle *)

Ltac unfold_updates :=
  unfold withOverlayState, withBackendWaitState, withIntervalId, withTimers,
    setTimer, clearTimer in *.

Ltac field_of f :=
  intros; unfold f; unfold_updates; simpl;
  repeat (refresh_simpl; simpl; try case_match); refresh_simpl; simpl;
  try reflexivity.

Lemma showLoading_taskDepth m p :
  taskDepth (overlayState (showLoading m p)) = taskDepth (overlayState p) + 1.
Proof. field_of showLoading. Qed.

Lemma hideLoading_taskDepth p :
  taskDepth (overlayState (hideLoading p))
  = Z.max 0 (taskDepth (overlayState p) - 1).
Proof. field_of hideLoading. Qed.

Lemma showTransientStatus_taskDepth m dur p :
  taskDepth (overlayState (showTransientStatus m dur p))
  = taskDepth (overlayState p).
Proof. field_of showTransientStatus. Qed.

Lemma transientExpired_taskDepth p :
  taskDepth (overlayState (transientExpired p)) = taskDepth (overlayState p).
Proof. field_of transientExpired. Qed.

Lemma updateBackendWaitMessage_taskDepth now p :
  taskDepth (overlayState (updateBackendWaitMessage now p))
  = taskDepth (overlayState p).
Proof. field_of updateBackendWaitMessage. Qed.

Lemma startBackendWait_taskDepth now m p :
  taskDepth (overlayState (startBackendWait now m p))
  = taskDepth (overlayState p).
Proof.
  intros. unfold startBackendWait. rewrite updateBackendWaitMessage_taskDepth.
  unfold_updates. simpl. by case_match.
Qed.

Lemma beginBackendRecovery_taskDepth now m p :
  taskDepth (overlayState (beginBackendRecovery now m p))
  = taskDepth (overlayState p).
Proof.
  intros. unfold beginBackendRecovery.
  rewrite <- (startBackendWait_taskDepth now m p).
  unfold_updates. simpl. by case_match.
Qed.

Lemma stopBackendWait_taskDepth p :
  taskDepth (overlayState (stopBackendWait p)) = taskDepth (overlayState p).
Proof. field_of stopBackendWait. Qed.

Lemma markBackendOnline_taskDepth p :
  taskDepth (overlayState (markBackendOnline p)) = taskDepth (overlayState p).
Proof.
  rewrite markBackendOnline_eq. simpl.
  by rewrite <- (stopBackendWait_taskDepth p).
Qed.

Lemma pollContinuation_taskDepth r p :
  taskDepth (overlayState (pollContinuation r p)) = taskDepth (overlayState p).
Proof. field_of pollContinuation. Qed.

Lemma pingBackend_taskDepth health p :
  taskDepth (overlayState (pingBackend health p).2)
  = taskDepth (overlayState p).
Proof.
  unfold pingBackend. repeat case_match; simpl; try done.
  apply markBackendOnline_taskDepth.
Qed.

Lemma request_taskDepth now outcome p :
  taskDepth (overlayState (request now outcome p).2)
  = taskDepth (overlayState p).
Proof.
  unfold request. repeat case_match; simpl; try done;
    auto using markBackendOnline_taskDepth, beginBackendRecovery_taskDepth.
Qed.

Lemma fire_taskDepth h now p :
  taskDepth (overlayState (fire h now p)) = taskDepth (overlayState p).
Proof.
  unfold fire. repeat case_match; try done.
  - apply updateBackendWaitMessage_taskDepth.
  - by rewrite transientExpired_taskDepth.
Qed.

(** Only [showLoading] and [hideLoading] change the task depth. *)
Lemma step_taskDepth p e :
  taskDepth (overlayState (step p e))
  = match e with
    | ShowLoading _ => taskDepth (overlayState p) + 1
    | HideLoading => Z.max 0 (taskDepth (overlayState p) - 1)
    | _ => taskDepth (overlayState p)
    end.
Proof.
  destruct e; simpl;
    auto using showLoading_taskDepth, hideLoading_taskDepth,
      showTransientStatus_taskDepth, fire_taskDepth, pingBackend_taskDepth,
      pollContinuation_taskDepth, request_taskDepth.
  destruct isOnline; simpl; [done |]. apply beginBackendRecovery_taskDepth.
Qed.

Lemma runTask_taskDepth {A} m (task : Page -> Completion A * Page) p :
  taskDepth (overlayState (runTask m task p))
  = Z.max 0 (taskDepth (overlayState (task (showLoading m p)).2) - 1).
Proof.
  unfold runTask. destruct (task (showLoading m p)) as [[v | msg] q]; simpl.
  - apply hideLoading_taskDepth.
  - by rewrite hideLoading_taskDepth, showTransientStatus_taskDepth.
Qed.

Lemma run_taskDepth_nonneg es p :
  0 <= taskDepth (overlayState p) ->
  0 <= taskDepth (overlayState (run p es)).
Proof.
  revert p. induction es as [| e es IH]; intros p H; simpl; [done |].
  apply IH. rewrite step_taskDepth. destruct e; lia.
Qed.

(** ** The wait state and the poller handle *)

Lemma showLoading_wait m p :
  backendWaitState (showLoading m p) = backendWaitState p
  /\ backendHealthCheckIntervalId (showLoading m p)
     = backendHealthCheckIntervalId p.
Proof. field_of showLoading. done. Qed.

Lemma hideLoading_wait p :
  backendWaitState (hideLoading p) = backendWaitState p
  /\ backendHealthCheckIntervalId (hideLoading p)
     = backendHealthCheckIntervalId p.
Proof. field_of hideLoading. done. Qed.

Lemma showTransientStatus_wait m dur p :
  backendWaitState (showTransientStatus m dur p) = backendWaitState p
  /\ backendHealthCheckIntervalId (showTransientStatus m dur p)
     = backendHealthCheckIntervalId p.
Proof. field_of showTransientStatus; done. Qed.

Lemma transientExpired_wait p :
  backendWaitState (transientExpired p) = backendWaitState p
  /\ backendHealthCheckIntervalId (transientExpired p)
     = backendHealthCheckIntervalId p.
Proof. field_of transientExpired. done. Qed.

Lemma updateBackendWaitMessage_wait now p :
  backendWaitState (updateBackendWaitMessage now p) = backendWaitState p
  /\ backendHealthCheckIntervalId (updateBackendWaitMessage now p)
     = backendHealthCheckIntervalId p.
Proof. field_of updateBackendWaitMessage; done. Qed.

(** Entering the wait: the prefix is always replaced; the clock and its
    timer are started only when the wait was off. *)
Lemma startBackendWait_wait now m p :
  backendWaitState (startBackendWait now m p)
  = (if active (backendWaitState p)
     then mkBackendWaitState true (timerId (backendWaitState p))
            (startTime (backendWaitState p)) m
     else mkBackendWaitState true (Some (nextHandle (timers p))) (Some now) m)
  /\ backendHealthCheckIntervalId (startBackendWait now m p)
     = backendHealthCheckIntervalId p.
Proof.
  unfold startBackendWait. cbv zeta.
  match goal with
  | |- context [updateBackendWaitMessage now ?q] =>
      destruct (updateBackendWaitMessage_wait now q) as [-> ->]
  end.
  open_page p. simpl. destruct wa; simpl; done.
Qed.

Lemma startBackendWait_message now m p :
  backend_message (overlayState (startBackendWait now m p))
  = waitMessage m
      (roundSeconds
         (now - default 0
                  (if active (backendWaitState p)
                   then startTime (backendWaitState p) else Some now)))
  /\ backend_active (overlayState (startBackendWait now m p)) = true.
Proof.
  unfold startBackendWait. open_page p. simpl.
  destruct wa; simpl; unfold updateBackendWaitMessage; simpl;
    refresh_simpl; simpl; done.
Qed.

Lemma beginBackendRecovery_wait now m p :
  backendWaitState (beginBackendRecovery now m p)
  = backendWaitState (startBackendWait now m p)
  /\ (forall h, backendHealthCheckIntervalId p = Some h ->
        backendHealthCheckIntervalId (beginBackendRecovery now m p) = Some h)
  /\ is_Some (backendHealthCheckIntervalId (beginBackendRecovery now m p))
  /\ overlayState (beginBackendRecovery now m p)
     = overlayState (startBackendWait now m p).
Proof.
  unfold beginBackendRecovery.
  destruct (startBackendWait_wait now m p) as [_ Hi].
  destruct (backendHealthCheckIntervalId (startBackendWait now m p)) eqn:E.
  - repeat split; try done. intros h Hh. congruence.
  - unfold_updates. simpl. repeat split; try done. intros h Hh. congruence.
Qed.

Lemma pollContinuation_wait r p :
  backendWaitState (pollContinuation r p) = backendWaitState p
  /\ (r = false ->
      backendHealthCheckIntervalId (pollContinuation r p)
      = backendHealthCheckIntervalId p).
Proof. unfold pollContinuation. destruct r; simpl; done. Qed.

Lemma fire_wait h now p :
  backendWaitState (fire h now p) = backendWaitState p
  /\ backendHealthCheckIntervalId (fire h now p)
     = backendHealthCheckIntervalId p.
Proof.
  unfold fire. repeat case_match; try done.
  - apply updateBackendWaitMessage_wait.
  - destruct (transientExpired_wait
                (withTimers (clearTimer (Some h) (timers p)) p)) as [-> ->].
    done.
Qed.

(** While the wait is on, an event that does not report the backend online
    keeps the wait on, with the same clock and the same timer. *)
Lemma step_keeps_clock p e :
  active (backendWaitState p) = true -> reportsOnline e = false ->
  active (backendWaitState (step p e)) = true
  /\ startTime (backendWaitState (step p e)) = startTime (backendWaitState p)
  /\ timerId (backendWaitState (step p e)) = timerId (backendWaitState p).
Proof.
  intros Ha He.
  assert (Hbegin : forall now m,
    let w := backendWaitState (beginBackendRecovery now m p) in
    active w = true /\ startTime w = startTime (backendWaitState p)
    /\ timerId w = timerId (backendWaitState p)).
  { intros now m. simpl. destruct (beginBackendRecovery_wait now m p) as [-> _].
    destruct (startBackendWait_wait now m p) as [-> _]. by rewrite Ha. }
  destruct e; simpl in *.
  - by destruct (showLoading_wait message p) as [-> _].
  - by destruct (hideLoading_wait p) as [-> _].
  - by destruct (showTransientStatus_wait message duration p) as [-> _].
  - by destruct (fire_wait h now p) as [-> _].
  - unfold pingBackend. destruct health as [| status body]; [done |].
    by rewrite He.
  - by destruct (pollContinuation_wait recovered p) as [-> _].
  - destruct isOnline; simpl; [done | apply Hbegin].
  - unfold request. destruct outcome as [| status body]; simpl;
      [apply Hbegin |].
    rewrite He. simpl. destruct (500 <=? status); [apply Hbegin | done].
Qed.

Lemma run_keeps_clock es p :
  active (backendWaitState p) = true ->
  Forall (fun e => reportsOnline e = false) es ->
  active (backendWaitState (run p es)) = true
  /\ startTime (backendWaitState (run p es)) = startTime (backendWaitState p)
  /\ timerId (backendWaitState (run p es)) = timerId (backendWaitState p).
Proof.
  revert p. induction es as [| e es IH]; intros p Ha Hes; simpl; [done |].
  apply Forall_cons in Hes as [He Hes].
  destruct (step_keeps_clock p e Ha He) as (Ha' & <- & <-). by apply IH.
Qed.

(** While a poller is registered, such an event keeps its handle. *)
Lemma step_keeps_poller p e h :
  backendHealthCheckIntervalId p = Some h -> reportsOnline e = false ->
  backendHealthCheckIntervalId (step p e) = Some h.
Proof.
  intros Hi He.
  assert (Hbegin : forall now m,
    backendHealthCheckIntervalId (beginBackendRecovery now m p) = Some h).
  { intros now m. by apply beginBackendRecovery_wait. }
  destruct e; simpl in *.
  - by destruct (showLoading_wait message p) as [_ ->].
  - by destruct (hideLoading_wait p) as [_ ->].
  - by destruct (showTransientStatus_wait message duration p) as [_ ->].
  - by destruct (fire_wait h0 now p) as [_ ->].
  - unfold pingBackend. destruct health as [| status body]; [done |].
    by rewrite He.
  - subst. done.
  - destruct isOnline; simpl; [done | apply Hbegin].
  - unfold request. destruct outcome as [| status body]; simpl;
      [apply Hbegin |].
    rewrite He. simpl. destruct (500 <=? status); [apply Hbegin | done].
Qed.

Lemma run_keeps_poller es p h :
  backendHealthCheckIntervalId p = Some h ->
  Forall (fun e => reportsOnline e = false) es ->
  backendHealthCheckIntervalId (run p es) = Some h.
Proof.
  revert p. induction es as [| e es IH]; intros p Hi Hes; simpl; [done |].
  apply Forall_cons in Hes as [He Hes]. apply IH; [| done].
  by apply step_keeps_poller.
Qed.

(** Marking the backend online turns the wait off and drops the poller. *)
Lemma markBackendOnline_fields p :
  active (backendWaitState (markBackendOnline p)) = false
  /\ backendHealthCheckIntervalId (markBackendOnline p) = None.
Proof.
  rewrite markBackendOnline_eq. simpl. split; [| done].
  unfold stopBackendWait. destruct (active (backendWaitState p)) eqn:Ha; simpl;
    [| done].
  refresh_simpl. unfold_updates. simpl. by case_match.
Qed.

Lemma markBackendOnline_clears p :
  consistent p ->
  let q := markBackendOnline p in
  active (backendWaitState q) = false
  /\ backend_active (overlayState q) = false
  /\ backendHealthCheckIntervalId q = None
  /\ running UpdateBackendWaitMessage (timers q) = ∅
  /\ running HealthCheck (timers q) = ∅.
Proof.
  intros H q. destruct (markBackendOnline_fields p) as [Ha Hi].
  destruct (consistent_markBackendOnline p H) as (_ & Hw & Hp & _ & Hb).
  fold q in Ha, Hi, Hw, Hp, Hb.
  split; [done |]. split; [congruence |]. split; [done |]. split.
  - rewrite (running_owns _ _ _ Hw). unfold waitOwner. by rewrite Ha.
  - rewrite (running_owns _ _ _ Hp). by rewrite Hi.
Qed.

Lemma markBackendOnline_idempotent p :
  consistent p -> markBackendOnline (markBackendOnline p) = markBackendOnline p.
Proof.
  intros H. destruct (markBackendOnline_fields p) as [Ha Hi].
  unfold markBackendOnline at 1. unfold stopBackendWait. rewrite Ha. simpl.
  by rewrite Hi.
Qed.

(** ** The overlay element follows the overlay state *)

Lemma shown_ext p q :
  overlayState q = overlayState p -> overlayHidden q = overlayHidden p ->
  overlayMessage q = overlayMessage p -> shown p -> shown q.
Proof. unfold shown. by intros -> -> ->. Qed.

Lemma shown_updateBackendWaitMessage now p :
  shown p -> shown (updateBackendWaitMessage now p).
Proof.
  intros H. unfold updateBackendWaitMessage. case_match; [done |].
  apply refreshOverlay_shown.
Qed.

Lemma shown_startBackendWait now m p :
  shown p -> shown (startBackendWait now m p).
Proof.
  intros H. unfold startBackendWait. apply shown_updateBackendWaitMessage.
  open_page p. simpl. by destruct wa.
Qed.

Lemma shown_beginBackendRecovery now m p :
  shown p -> shown (beginBackendRecovery now m p).
Proof.
  intros H. apply (shown_startBackendWait now m) in H.
  unfold beginBackendRecovery. by case_match.
Qed.

Lemma shown_stopBackendWait p : shown p -> shown (stopBackendWait p).
Proof.
  intros H. unfold stopBackendWait. case_match; [done |].
  apply refreshOverlay_shown.
Qed.

Lemma shown_markBackendOnline p : shown p -> shown (markBackendOnline p).
Proof.
  intros H. apply shown_stopBackendWait in H. unfold markBackendOnline.
  by case_match.
Qed.

Lemma shown_step p e : shown p -> shown (step p e).
Proof.
  intros H. destruct e; simpl.
  - apply refreshOverlay_shown.
  - apply refreshOverlay_shown.
  - unfold showTransientStatus. cbv zeta. case_match.
    apply refreshOverlay_shown.
  - unfold fire. repeat case_match; try done.
    + by apply shown_updateBackendWaitMessage.
    + apply refreshOverlay_shown.
  - unfold pingBackend. repeat case_match; simpl; try done.
    by apply shown_markBackendOnline.
  - unfold pollContinuation. by case_match.
  - case_match; simpl; [| done]. by apply shown_beginBackendRecovery.
  - unfold request. repeat case_match; simpl; try done;
      auto using shown_markBackendOnline, shown_beginBackendRecovery.
Qed.

Lemma shown_initial : shown initialPage.
Proof. unfold shown, initialPage. simpl. repeat split; intros; done || lia. Qed.

Lemma shown_run es p : shown p -> shown (run p es).
Proof.
  revert p. induction es as [| e es IH]; intros p H; simpl; [done |].
  by apply IH, shown_step.
Qed.

(** When the last task ends while the backend wait is on, the backend
    message takes the overlay. *)
Lemma hideLoading_reveals_backend p :
  taskDepth (overlayState p) = 1 -> backend_active (overlayState p) = true ->
  overlayHidden (hideLoading p) = false
  /\ overlayMessage (hideLoading p) = backend_message (overlayState p).
Proof.
  intros Hd Hb. unfold hideLoading, refreshOverlay, display, withOverlayState.
  simpl. rewrite Hd, Hb. done.
Qed.

Lemma hideLoading_overlayState p :
  overlayState (hideLoading p)
  = let o := overlayState p in
    mkOverlayState (Z.max 0 (taskDepth o - 1)) (taskMessage o)
      (backend_active o) (backend_message o) (transient_active o)
      (transient_message o) (transient_timeoutId o).
Proof. unfold hideLoading. refresh_simpl. reflexivity. Qed.

End OverlayFacts.

(* ===================================================================== *)
(** * Properties of the overlay state machine (with datastore readiness)  *)
(* ===================================================================== *)

Module ReadinessOverlayFacts.
Import Browser BrowserFacts ReadinessOverlay.

Lemma db_refreshOverlay_overlayState p :
  overlayState (refreshOverlay p) = overlayState p.
Proof. unfold refreshOverlay, display. by repeat case_match. Qed.

Lemma db_refreshOverlay_backendWaitState p :
  backendWaitState (refreshOverlay p) = backendWaitState p.
Proof. unfold refreshOverlay, display. by repeat case_match. Qed.

Lemma refreshOverlay_databaseWaitState p :
  databaseWaitState (refreshOverlay p) = databaseWaitState p.
Proof. unfold refreshOverlay, display. by repeat case_match. Qed.

Lemma db_refreshOverlay_intervalId p :
  backendHealthCheckIntervalId (refreshOverlay p)
  = backendHealthCheckIntervalId p.
Proof. unfold refreshOverlay, display. by repeat case_match. Qed.

Lemma db_refreshOverlay_timers p : timers (refreshOverlay p) = timers p.
Proof. unfold refreshOverlay, display. by repeat case_match. Qed.

Ltac refresh_simpl :=
  rewrite ?db_refreshOverlay_overlayState, ?db_refreshOverlay_backendWaitState,
    ?refreshOverlay_databaseWaitState, ?db_refreshOverlay_intervalId,
    ?db_refreshOverlay_timers.

Lemma db_refreshOverlay_shown p : shown (refreshOverlay p).
Proof.
  unfold shown, refreshOverlay, display.
  destruct (0 <? taskDepth (overlayState p)) eqn:Hd;
    [apply Z.ltb_lt in Hd | apply Z.ltb_ge in Hd];
    destruct (backend_active (overlayState p)) eqn:Hb;
    destruct (database_active (overlayState p)) eqn:Hdb;
    destruct (transient_active (overlayState p)) eqn:Ht;
    simpl; rewrite ?Hb, ?Hdb, ?Ht; repeat split; intros; try done; lia.
Qed.

Lemma db_consistent_refreshOverlay p : consistent p -> consistent (refreshOverlay p).
Proof. unfold consistent. by refresh_simpl. Qed.

Ltac open_page p :=
  destruct p as [[d tm ba bm da dm ta tmsg tid] [wa wt ws wb] [xa xt xs xb]
                   iid hid msg [a n]].

Ltac split7 :=
  split; [| split; [| split; [| split; [| split; [| split]]]]].

Ltac unfold_updates :=
  unfold withOverlayState, withBackendWaitState, withDatabaseWaitState,
    withIntervalId, withTimers, setTimer, clearTimer in *.

Lemma db_consistent_showLoading message p :
  consistent p -> consistent (showLoading message p).
Proof.
  intros H. apply db_consistent_refreshOverlay. open_page p. exact H.
Qed.

Lemma db_consistent_hideLoading p : consistent p -> consistent (hideLoading p).
Proof.
  intros H. apply db_consistent_refreshOverlay. open_page p. exact H.
Qed.

Lemma db_consistent_transientExpired p h :
  consistent p ->
  Browser.active (timers p) !! h = Some TransientExpiry ->
  consistent
    (transientExpired (withTimers (clearTimer (Some h) (timers p)) p)).
Proof.
  intros (Hf & Hw & Hx & Hp & Ht & Hb & Hd) Hh. apply db_consistent_refreshOverlay.
  open_page p. unfold consistent, waitOwner in *. simpl in *.
  assert (tid = Some h) as -> by (by apply Ht).
  split7; try done.
  - by apply fresh_delete.
  - eapply owns_delete_other; [| exact Ht | exact Hw]. done.
  - eapply owns_delete_other; [| exact Ht | exact Hx]. done.
  - eapply owns_delete_other; [| exact Ht | exact Hp]. done.
  - by apply owns_delete_same.
Qed.

Lemma db_consistent_showTransientStatus message duration p :
  consistent p -> consistent (showTransientStatus message duration p).
Proof.
  intros (Hf & Hw & Hx & Hp & Ht & Hb & Hd). unfold showTransientStatus.
  open_page p. unfold consistent, waitOwner in *. simpl in *.
  apply db_consistent_refreshOverlay. unfold consistent, waitOwner. simpl.
  destruct tid as [h |]; simpl.
  - split7; try done.
    + by apply fresh_set, fresh_delete.
    + apply owns_set_other; [done | by apply fresh_delete |].
      eapply owns_delete_other; [| exact Ht | exact Hw]. done.
    + apply owns_set_other; [done | by apply fresh_delete |].
      eapply owns_delete_other; [| exact Ht | exact Hx]. done.
    + apply owns_set_other; [done | by apply fresh_delete |].
      eapply owns_delete_other; [| exact Ht | exact Hp]. done.
    + apply owns_set_same; [by apply fresh_delete |].
      by apply owns_delete_same.
  - split7; try done.
    + by apply fresh_set.
    + by apply owns_set_other.
    + by apply owns_set_other.
    + by apply owns_set_other.
    + by apply owns_set_same.
Qed.

Lemma db_updateBackendWaitMessage_restores now p :
  fresh (timers p) ->
  owns (timers p) UpdateBackendWaitMessage (waitOwner (backendWaitState p)) ->
  owns (timers p) UpdateDatabaseWaitMessage
    (waitOwner (databaseWaitState p)) ->
  owns (timers p) HealthCheck (backendHealthCheckIntervalId p) ->
  owns (timers p) TransientExpiry (transient_timeoutId (overlayState p)) ->
  (active (backendWaitState p) = false ->
   backend_active (overlayState p) = false) ->
  database_active (overlayState p) = active (databaseWaitState p) ->
  consistent (updateBackendWaitMessage now p).
Proof.
  intros Hf Hw Hx Hp Ht Hb Hd. unfold updateBackendWaitMessage.
  destruct (active (backendWaitState p)) eqn:Ha; simpl.
  - apply db_consistent_refreshOverlay. open_page p.
    unfold consistent, waitOwner in *. simpl in *. by subst.
  - unfold consistent. rewrite Ha. by rewrite Hb.
Qed.

Lemma updateDatabaseWaitMessage_restores now p :
  fresh (timers p) ->
  owns (timers p) UpdateBackendWaitMessage (waitOwner (backendWaitState p)) ->
  owns (timers p) UpdateDatabaseWaitMessage
    (waitOwner (databaseWaitState p)) ->
  owns (timers p) HealthCheck (backendHealthCheckIntervalId p) ->
  owns (timers p) TransientExpiry (transient_timeoutId (overlayState p)) ->
  backend_active (overlayState p) = active (backendWaitState p) ->
  (active (databaseWaitState p) = false ->
   database_active (overlayState p) = false) ->
  consistent (updateDatabaseWaitMessage now p).
Proof.
  intros Hf Hw Hx Hp Ht Hb Hd. unfold updateDatabaseWaitMessage.
  destruct (active (databaseWaitState p)) eqn:Ha; simpl.
  - apply db_consistent_refreshOverlay. open_page p.
    unfold consistent, waitOwner in *. simpl in *. by subst.
  - unfold consistent. rewrite Ha. by rewrite Hd.
Qed.

Lemma db_consistent_updateBackendWaitMessage now p :
  consistent p -> consistent (updateBackendWaitMessage now p).
Proof.
  intros (Hf & Hw & Hx & Hp & Ht & Hb & Hd).
  apply db_updateBackendWaitMessage_restores; try done.
  intros Ha. by rewrite Hb.
Qed.

Lemma consistent_updateDatabaseWaitMessage now p :
  consistent p -> consistent (updateDatabaseWaitMessage now p).
Proof.
  intros (Hf & Hw & Hx & Hp & Ht & Hb & Hd).
  apply updateDatabaseWaitMessage_restores; try done.
  intros Ha. by rewrite Hd.
Qed.

Lemma db_consistent_startBackendWait now messagePrefix p :
  consistent p -> consistent (startBackendWait now messagePrefix p).
Proof.
  intros (Hf & Hw & Hx & Hp & Ht & Hb & Hd). unfold startBackendWait.
  open_page p. unfold waitOwner in *. simpl in *.
  destruct wa; simpl; apply db_updateBackendWaitMessage_restores; simpl;
    try done.
  - by apply fresh_set.
  - by apply owns_set_same.
  - by apply owns_set_other.
  - by apply owns_set_other.
  - by apply owns_set_other.
Qed.

Lemma consistent_startDatabaseWait now messagePrefix p :
  consistent p -> consistent (startDatabaseWait now messagePrefix p).
Proof.
  intros (Hf & Hw & Hx & Hp & Ht & Hb & Hd). unfold startDatabaseWait.
  open_page p. unfold waitOwner in *. simpl in *.
  destruct xa; simpl; apply updateDatabaseWaitMessage_restores; simpl;
    try done.
  - by apply fresh_set.
  - by apply owns_set_other.
  - by apply owns_set_same.
  - by apply owns_set_other.
  - by apply owns_set_other.
Qed.

Lemma db_consistent_stopBackendWait p :
  consistent p -> consistent (stopBackendWait p).
Proof.
  intros H. pose proof H as (Hf & Hw & Hx & Hp & Ht & Hb & Hd).
  unfold stopBackendWait.
  destruct (active (backendWaitState p)) eqn:Ha; simpl; [| done].
  apply db_consistent_refreshOverlay.
  open_page p. unfold consistent, waitOwner in *. simpl in *. subst.
  destruct wt as [h |]; simpl; split7; try done.
  - by apply fresh_delete.
  - by apply owns_delete_same.
  - eapply owns_delete_other; [| exact Hw | exact Hx]. done.
  - eapply owns_delete_other; [| exact Hw | exact Hp]. done.
  - eapply owns_delete_other; [| exact Hw | exact Ht]. done.
Qed.

Lemma consistent_stopDatabaseWait p :
  consistent p -> consistent (stopDatabaseWait p).
Proof.
  intros H. pose proof H as (Hf & Hw & Hx & Hp & Ht & Hb & Hd).
  unfold stopDatabaseWait.
  destruct (active (databaseWaitState p)) eqn:Ha; simpl; [| done].
  apply db_consistent_refreshOverlay.
  open_page p. unfold consistent, waitOwner in *. simpl in *. subst.
  destruct xt as [h |]; simpl; split7; try done.
  - by apply fresh_delete.
  - eapply owns_delete_other; [| exact Hx | exact Hw]. done.
  - by apply owns_delete_same.
  - eapply owns_delete_other; [| exact Hx | exact Hp]. done.
  - eapply owns_delete_other; [| exact Hx | exact Ht]. done.
Qed.

Lemma consistent_stopBackendRecoveryPolling p :
  consistent p -> consistent (stopBackendRecoveryPolling p).
Proof.
  intros H. pose proof H as (Hf & Hw & Hx & Hp & Ht & Hb & Hd).
  unfold stopBackendRecoveryPolling.
  destruct (backendHealthCheckIntervalId p) as [h |] eqn:Hi; [| done].
  open_page p. unfold consistent, waitOwner in *. simpl in *. subst.
  split7; try done.
  - by apply fresh_delete.
  - eapply owns_delete_other; [| exact Hp | exact Hw]. done.
  - eapply owns_delete_other; [| exact Hp | exact Hx]. done.
  - by apply owns_delete_same.
  - eapply owns_delete_other; [| exact Hp | exact Ht]. done.
Qed.

Lemma db_consistent_beginBackendRecovery now messagePrefix p :
  consistent p -> consistent (beginBackendRecovery now messagePrefix p).
Proof.
  intros H. apply consistent_stopDatabaseWait in H.
  apply (db_consistent_startBackendWait now messagePrefix) in H.
  unfold beginBackendRecovery.
  set (q := startBackendWait now messagePrefix (stopDatabaseWait p)) in *.
  clearbody q.
  destruct (backendHealthCheckIntervalId q) eqn:Hi; [done |].
  destruct H as (Hf & Hw & Hx & Hp & Ht & Hb & Hd). rewrite Hi in Hp.
  open_page q. unfold consistent, waitOwner in *. simpl in *.
  split7; try done.
  - by apply fresh_set.
  - by apply owns_set_other.
  - by apply owns_set_other.
  - by apply owns_set_same.
  - by apply owns_set_other.
Qed.

Lemma db_consistent_pollContinuation now status p :
  consistent p -> consistent (pollContinuation now status p).
Proof.
  intros H. unfold pollContinuation, markBackendOnline.
  destruct (online status); simpl; [| done].
  destruct (neo4jReady status).
  - by apply consistent_stopBackendRecoveryPolling, consistent_stopDatabaseWait,
      db_consistent_stopBackendWait.
  - by apply consistent_startDatabaseWait, db_consistent_stopBackendWait.
Qed.

Lemma consistent_evaluateHealthStatus now m status p :
  consistent p -> consistent (evaluateHealthStatus now m status p).2.
Proof.
  intros H. unfold evaluateHealthStatus, markBackendOnline.
  destruct (online status); simpl.
  - destruct (neo4jReady status); simpl.
    + by apply consistent_stopBackendRecoveryPolling,
        consistent_stopDatabaseWait, db_consistent_stopBackendWait.
    + by apply consistent_startDatabaseWait, db_consistent_stopBackendWait.
  - by apply db_consistent_beginBackendRecovery.
Qed.

Lemma db_consistent_request now outcome p :
  consistent p -> consistent (request now outcome p).2.
Proof.
  intros H. unfold request, markBackendOnline.
  destruct outcome as [| status body]; simpl.
  - by apply db_consistent_beginBackendRecovery.
  - destruct (ok status); simpl.
    + by apply db_consistent_stopBackendWait.
    + destruct (500 <=? status); [| done].
      by apply db_consistent_beginBackendRecovery.
Qed.

Lemma db_consistent_fire h now p : consistent p -> consistent (fire h now p).
Proof.
  intros H. unfold fire.
  destruct (Browser.active (timers p) !! h) as [[] |] eqn:Hh; try done.
  - by apply db_consistent_updateBackendWaitMessage.
  - by apply consistent_updateDatabaseWaitMessage.
  - by apply db_consistent_transientExpired.
Qed.

Lemma db_consistent_step p e : consistent p -> consistent (step p e).
Proof.
  intros H. destruct e; simpl.
  - by apply db_consistent_showLoading.
  - by apply db_consistent_hideLoading.
  - by apply db_consistent_showTransientStatus.
  - by apply db_consistent_fire.
  - by apply db_consistent_pollContinuation.
  - by apply consistent_evaluateHealthStatus.
  - by apply db_consistent_request.
Qed.

Lemma db_consistent_initial : consistent initialPage.
Proof.
  unfold consistent, initialPage, waitOwner, fresh, owns. simpl.
  split7; try done; intros h; rewrite lookup_empty; split; done.
Qed.

Lemma db_consistent_run es p : consistent p -> consistent (run p es).
Proof.
  revert p. induction es as [| e es IH]; intros p H; simpl; [done |].
  by apply IH, db_consistent_step.
Qed.

(** ** The overlay element follows the overlay state *)

Lemma db_shown_updateBackendWaitMessage now p :
  shown p -> shown (updateBackendWaitMessage now p).
Proof.
  intros H. unfold updateBackendWaitMessage. case_match; [done |].
  apply db_refreshOverlay_shown.
Qed.

Lemma shown_updateDatabaseWaitMessage now p :
  shown p -> shown (updateDatabaseWaitMessage now p).
Proof.
  intros H. unfold updateDatabaseWaitMessage. case_match; [done |].
  apply db_refreshOverlay_shown.
Qed.

Lemma db_shown_startBackendWait now m p :
  shown p -> shown (startBackendWait now m p).
Proof.
  intros H. unfold startBackendWait. apply db_shown_updateBackendWaitMessage.
  open_page p. simpl. by destruct wa.
Qed.

Lemma shown_startDatabaseWait now m p :
  shown p -> shown (startDatabaseWait now m p).
Proof.
  intros H. unfold startDatabaseWait. apply shown_updateDatabaseWaitMessage.
  open_page p. simpl. by destruct xa.
Qed.

Lemma db_shown_stopBackendWait p : shown p -> shown (stopBackendWait p).
Proof.
  intros H. unfold stopBackendWait. case_match; [done |].
  apply db_refreshOverlay_shown.
Qed.

Lemma shown_stopDatabaseWait p : shown p -> shown (stopDatabaseWait p).
Proof.
  intros H. unfold stopDatabaseWait. case_match; [done |].
  apply db_refreshOverlay_shown.
Qed.

Lemma shown_stopBackendRecoveryPolling p :
  shown p -> shown (stopBackendRecoveryPolling p).
Proof. intros H. unfold stopBackendRecoveryPolling. by case_match. Qed.

Lemma db_shown_beginBackendRecovery now m p :
  shown p -> shown (beginBackendRecovery now m p).
Proof.
  intros H. apply shown_stopDatabaseWait in H.
  apply (db_shown_startBackendWait now m) in H.
  unfold beginBackendRecovery. by case_match.
Qed.

Lemma shown_afterOnline now status p :
  shown p ->
  shown (if neo4jReady status
         then stopBackendRecoveryPolling (stopDatabaseWait (stopBackendWait p))
         else startDatabaseWait now (Js.lit "Waiting for database…")
                (stopBackendWait p)).
Proof.
  intros H. apply db_shown_stopBackendWait in H. case_match.
  - by apply shown_stopBackendRecoveryPolling, shown_stopDatabaseWait.
  - by apply shown_startDatabaseWait.
Qed.

Lemma db_shown_step p e : shown p -> shown (step p e).
Proof.
  intros H. destruct e; simpl.
  - apply db_refreshOverlay_shown.
  - apply db_refreshOverlay_shown.
  - unfold showTransientStatus. cbv zeta. case_match.
    apply db_refreshOverlay_shown.
  - unfold fire. repeat case_match; try done.
    + by apply db_shown_updateBackendWaitMessage.
    + by apply shown_updateDatabaseWaitMessage.
    + apply db_refreshOverlay_shown.
  - unfold pollContinuation, markBackendOnline.
    destruct (online _); simpl; [| done]. by apply shown_afterOnline.
  - unfold evaluateHealthStatus, markBackendOnline.
    destruct (online _); simpl; [| by apply db_shown_beginBackendRecovery].
    pose proof (shown_afterOnline now (checkBackendStatus reply) p H) as H'.
    by destruct (neo4jReady _).
  - unfold request, markBackendOnline. repeat case_match; simpl; try done;
      auto using db_shown_stopBackendWait, db_shown_beginBackendRecovery.
Qed.

Lemma db_shown_initial : shown initialPage.
Proof. unfold shown, initialPage. simpl. repeat split; intros; done || lia. Qed.

Lemma db_shown_run es p : shown p -> shown (run p es).
Proof.
  revert p. induction es as [| e es IH]; intros p H; simpl; [done |].
  by apply IH, db_shown_step.
Qed.

(** ** The backend wait state *)

Ltac field_of f :=
  intros; unfold f; unfold_updates; simpl;
  repeat (refresh_simpl; simpl; try case_match); refresh_simpl; simpl;
  try reflexivity.

Lemma db_showLoading_wait m p :
  backendWaitState (showLoading m p) = backendWaitState p.
Proof. field_of showLoading. Qed.

Lemma db_hideLoading_wait p :
  backendWaitState (hideLoading p) = backendWaitState p.
Proof. field_of hideLoading. Qed.

Lemma db_showTransientStatus_wait m dur p :
  backendWaitState (showTransientStatus m dur p) = backendWaitState p.
Proof. field_of showTransientStatus. Qed.

Lemma db_transientExpired_wait p :
  backendWaitState (transientExpired p) = backendWaitState p.
Proof. field_of transientExpired. Qed.

Lemma db_updateBackendWaitMessage_wait now p :
  backendWaitState (updateBackendWaitMessage now p) = backendWaitState p.
Proof. field_of updateBackendWaitMessage. Qed.

Lemma updateDatabaseWaitMessage_wait now p :
  backendWaitState (updateDatabaseWaitMessage now p) = backendWaitState p.
Proof. field_of updateDatabaseWaitMessage. Qed.

Lemma stopDatabaseWait_wait p :
  backendWaitState (stopDatabaseWait p) = backendWaitState p
  /\ backendHealthCheckIntervalId (stopDatabaseWait p)
     = backendHealthCheckIntervalId p.
Proof. field_of stopDatabaseWait; done. Qed.

Lemma startDatabaseWait_wait now m p :
  backendWaitState (startDatabaseWait now m p) = backendWaitState p.
Proof.
  unfold startDatabaseWait. rewrite updateDatabaseWaitMessage_wait.
  unfold_updates. simpl. by case_match.
Qed.

Lemma db_startBackendWait_wait now m p :
  backendWaitState (startBackendWait now m p)
  = (if active (backendWaitState p)
     then mkWaitState true (timerId (backendWaitState p))
            (startTime (backendWaitState p)) m
     else mkWaitState true (Some (nextHandle (timers p))) (Some now) m).
Proof.
  unfold startBackendWait. rewrite db_updateBackendWaitMessage_wait.
  open_page p. simpl. destruct wa; simpl; done.
Qed.

Lemma db_startBackendWait_message now m p :
  backend_message (overlayState (startBackendWait now m p))
  = backendWaitMessage m
      (roundSeconds
         (now - default 0
                  (if active (backendWaitState p)
                   then startTime (backendWaitState p) else Some now)))
  /\ backend_active (overlayState (startBackendWait now m p)) = true.
Proof.
  unfold startBackendWait. open_page p. simpl.
  destruct wa; simpl; unfold updateBackendWaitMessage; simpl;
    refresh_simpl; simpl; done.
Qed.

Lemma db_beginBackendRecovery_wait now m p :
  active (backendWaitState p) = true ->
  let w := backendWaitState (beginBackendRecovery now m p) in
  active w = true /\ startTime w = startTime (backendWaitState p)
  /\ timerId w = timerId (backendWaitState p).
Proof.
  intros Ha. simpl. unfold beginBackendRecovery.
  assert (Hw : backendWaitState (startBackendWait now m (stopDatabaseWait p))
               = mkWaitState true (timerId (backendWaitState p))
                   (startTime (backendWaitState p)) m).
  { rewrite db_startBackendWait_wait.
    destruct (stopDatabaseWait_wait p) as [-> _]. by rewrite Ha. }
  case_match; unfold_updates; simpl; rewrite Hw; done.
Qed.

Lemma db_fire_wait h now p :
  backendWaitState (fire h now p) = backendWaitState p.
Proof.
  unfold fire. repeat case_match; try done.
  - apply db_updateBackendWaitMessage_wait.
  - apply updateDatabaseWaitMessage_wait.
  - by rewrite db_transientExpired_wait.
Qed.

Lemma db_step_keeps_clock p e :
  active (backendWaitState p) = true -> reportsOnline e = false ->
  active (backendWaitState (step p e)) = true
  /\ startTime (backendWaitState (step p e)) = startTime (backendWaitState p)
  /\ timerId (backendWaitState (step p e)) = timerId (backendWaitState p).
Proof.
  intros Ha He. destruct e; simpl in *.
  - by rewrite db_showLoading_wait.
  - by rewrite db_hideLoading_wait.
  - by rewrite db_showTransientStatus_wait.
  - by rewrite db_fire_wait.
  - unfold pollContinuation. by rewrite He.
  - unfold evaluateHealthStatus. rewrite He. simpl.
    by apply db_beginBackendRecovery_wait.
  - unfold request. destruct outcome as [| status body]; simpl;
      [by apply db_beginBackendRecovery_wait |].
    rewrite He. simpl.
    destruct (500 <=? status); [by apply db_beginBackendRecovery_wait | done].
Qed.

Lemma db_run_keeps_clock es p :
  active (backendWaitState p) = true ->
  Forall (fun e => reportsOnline e = false) es ->
  active (backendWaitState (run p es)) = true
  /\ startTime (backendWaitState (run p es)) = startTime (backendWaitState p)
  /\ timerId (backendWaitState (run p es)) = timerId (backendWaitState p).
Proof.
  revert p. induction es as [| e es IH]; intros p Ha Hes; simpl; [done |].
  apply Forall_cons in Hes as [He Hes].
  destruct (db_step_keeps_clock p e Ha He) as (Ha' & <- & <-). by apply IH.
Qed.

(** ** What a good response clears *)

Lemma stopBackendWait_off p : active (backendWaitState (stopBackendWait p)) = false.
Proof.
  unfold stopBackendWait. destruct (active (backendWaitState p)) eqn:Ha; simpl;
    [| done].
  refresh_simpl. unfold_updates. simpl. by case_match.
Qed.

Lemma stopBackendWait_others p :
  databaseWaitState (stopBackendWait p) = databaseWaitState p
  /\ backendHealthCheckIntervalId (stopBackendWait p)
     = backendHealthCheckIntervalId p
  /\ database_active (overlayState (stopBackendWait p))
     = database_active (overlayState p).
Proof. field_of stopBackendWait; done. Qed.

Lemma stopDatabaseWait_off p :
  active (databaseWaitState (stopDatabaseWait p)) = false.
Proof.
  unfold stopDatabaseWait.
  destruct (active (databaseWaitState p)) eqn:Ha; simpl; [| done].
  refresh_simpl. unfold_updates. simpl. by case_match.
Qed.

Lemma stopBackendRecoveryPolling_fields p :
  backendHealthCheckIntervalId (stopBackendRecoveryPolling p) = None
  /\ backendWaitState (stopBackendRecoveryPolling p) = backendWaitState p
  /\ databaseWaitState (stopBackendRecoveryPolling p) = databaseWaitState p.
Proof. unfold stopBackendRecoveryPolling. by case_match. Qed.

(** A successful request turns the backend wait off and stops its timer;
    it leaves the datastore wait and the poller as they were. *)
Lemma request_2xx_clears now status body p :
  consistent p -> ok status = true ->
  let q := (request now (Response status body) p).2 in
  active (backendWaitState q) = false
  /\ backend_active (overlayState q) = false
  /\ running UpdateBackendWaitMessage (timers q) = ∅
  /\ databaseWaitState q = databaseWaitState p
  /\ database_active (overlayState q) = database_active (overlayState p)
  /\ backendHealthCheckIntervalId q = backendHealthCheckIntervalId p.
Proof.
  intros H Hok q.
  assert (Hq : q = stopBackendWait p).
  { unfold q, request, markBackendOnline. by rewrite Hok. }
  rewrite Hq. pose proof (stopBackendWait_off p) as Ha.
  destruct (db_consistent_stopBackendWait p H) as (_ & Hw & _ & _ & _ & Hb & _).
  destruct (stopBackendWait_others p) as (Hd & Hi & Hda).
  split; [done |]. split; [congruence |]. split; [| done].
  rewrite (running_owns _ _ _ Hw). unfold waitOwner. by rewrite Ha.
Qed.

(** A health reply that reports the backend online and the datastore ready
    clears both waits, stops both timers and stops the poller. *)
Lemma ready_clears p :
  consistent p ->
  let q := stopBackendRecoveryPolling (stopDatabaseWait (stopBackendWait p)) in
  active (backendWaitState q) = false
  /\ active (databaseWaitState q) = false
  /\ backend_active (overlayState q) = false
  /\ database_active (overlayState q) = false
  /\ backendHealthCheckIntervalId q = None
  /\ running UpdateBackendWaitMessage (timers q) = ∅
  /\ running UpdateDatabaseWaitMessage (timers q) = ∅
  /\ running HealthCheck (timers q) = ∅.
Proof.
  intros H q.
  assert (Hc : consistent q)
    by (by apply consistent_stopBackendRecoveryPolling,
             consistent_stopDatabaseWait, db_consistent_stopBackendWait).
  destruct (stopBackendRecoveryPolling_fields
              (stopDatabaseWait (stopBackendWait p))) as (Hi & Hw & Hx).
  fold q in Hi, Hw, Hx.
  assert (Ha : active (backendWaitState q) = false).
  { rewrite Hw. destruct (stopDatabaseWait_wait (stopBackendWait p)) as [-> _].
    apply stopBackendWait_off. }
  assert (Hxa : active (databaseWaitState q) = false)
    by (rewrite Hx; apply stopDatabaseWait_off).
  destruct Hc as (_ & Hcw & Hcx & Hcp & _ & Hb & Hd).
  split; [done |]. split; [done |]. split; [congruence |].
  split; [congruence |]. split; [done |].
  rewrite (running_owns _ _ _ Hcw), (running_owns _ _ _ Hcx),
    (running_owns _ _ _ Hcp).
  unfold waitOwner. by rewrite Ha, Hxa, Hi.
Qed.

(** A health reply that reports the backend online turns the backend wait
    off and stops its timer, whatever it says of the datastore. *)
Lemma online_clears_backend_wait now prefix status p q :
  consistent p -> online status = true ->
  q = (evaluateHealthStatus now prefix status p).2
  \/ q = pollContinuation now status p ->
  active (backendWaitState q) = false
  /\ backend_active (overlayState q) = false
  /\ running UpdateBackendWaitMessage (timers q) = ∅.
Proof.
  intros H Hon Hq.
  assert (Hc : consistent q).
  { destruct Hq as [-> | ->];
      [by apply consistent_evaluateHealthStatus
      | by apply db_consistent_pollContinuation]. }
  assert (Ha : active (backendWaitState q) = false).
  { assert (q = (if neo4jReady status
                 then stopBackendRecoveryPolling
                        (stopDatabaseWait (stopBackendWait p))
                 else startDatabaseWait now (Js.lit "Waiting for database…")
                        (stopBackendWait p))) as ->.
    { destruct Hq as [-> | ->];
        unfold evaluateHealthStatus, pollContinuation, markBackendOnline;
        rewrite Hon; simpl; by destruct (neo4jReady status). }
    destruct (neo4jReady status).
    - destruct (stopBackendRecoveryPolling_fields
                  (stopDatabaseWait (stopBackendWait p))) as (_ & -> & _).
      destruct (stopDatabaseWait_wait (stopBackendWait p)) as [-> _].
      apply stopBackendWait_off.
    - rewrite startDatabaseWait_wait. apply stopBackendWait_off. }
  destruct Hc as (_ & Hcw & _ & _ & _ & Hb & _).
  split; [done |]. split; [congruence |].
  rewrite (running_owns _ _ _ Hcw). unfold waitOwner. by rewrite Ha.
Qed.

End ReadinessOverlayFacts.

(* ===================================================================== *)
(** * Properties of the request gateway                                   *)
(* ===================================================================== *)

Module GatewayFacts.
Import Gateway.

Lemma floor16_range (q : Q) :
  (0 <= q)%Q -> (q < 1)%Q -> 0 <= Qfloor (q * 16) < 16.
Proof.
  intros H0 H1. split.
  - change 0 with (Qfloor 0). apply Qfloor_resp_le.
    apply Qmult_le_0_compat; [done | by compute].
  - assert (H : (q * 16 < 16)%Q).
    { apply Qlt_le_trans with (1 * 16)%Q.
      - apply Qmult_lt_compat_r; [reflexivity | done].
      - unfold Qle. simpl. lia. }
    pose proof (Qfloor_le (q * 16)) as Hle.
    assert (Hlt : (inject_Z (Qfloor (q * 16)) < inject_Z 16)%Q)
      by (eapply Qle_lt_trans; [exact Hle | exact H]).
    by rewrite <- Zlt_Qlt in Hlt.
Qed.

Lemma hexDigit_isHex v : 0 <= v < 16 -> isHexDigit (Js.hexDigit v) = true.
Proof.
  intros H. assert (Hcases : v = 0 \/ v = 1 \/ v = 2 \/ v = 3 \/ v = 4
    \/ v = 5 \/ v = 6 \/ v = 7 \/ v = 8 \/ v = 9 \/ v = 10 \/ v = 11
    \/ v = 12 \/ v = 13 \/ v = 14 \/ v = 15) by lia.
  repeat destruct Hcases as [-> | Hcases]; try reflexivity. by subst.
Qed.

Lemma hexDigit_variant r :
  0 <= r < 16 ->
  let o := Js.hexDigit (Z.lor (Z.land r 3) 8) in
  ((o =? 56) || (o =? 57) || (o =? 97) || (o =? 98))%N = true.
Proof.
  intros H. assert (Hcases : r = 0 \/ r = 1 \/ r = 2 \/ r = 3 \/ r = 4
    \/ r = 5 \/ r = 6 \/ r = 7 \/ r = 8 \/ r = 9 \/ r = 10 \/ r = 11
    \/ r = 12 \/ r = 13 \/ r = 14 \/ r = 15) by lia.
  repeat destruct Hcases as [-> | Hcases]; try reflexivity. by subst.
Qed.

Lemma inRange_mathRandom rnd : inRange rnd -> inRange (mathRandom rnd).2.
Proof. done. Qed.

Lemma replaceXY_shape template rnd :
  inRange rnd ->
  matchesTemplate template (replaceXY template rnd).1 = true
  /\ position (replaceXY template rnd).2
     = (position rnd + drawsOf template)%nat
  /\ draws (replaceXY template rnd).2 = draws rnd.
Proof.
  revert rnd. induction template as [| c template IH]; intros rnd Hr; simpl.
  - unfold drawsOf. simpl. repeat split. lia.
  - unfold drawsOf. simpl.
    destruct ((c =? 120) || (c =? 121))%N eqn:Hxy.
    + unfold replaceChar, mathRandom. simpl.
      set (rnd' := {| position := S (position rnd); draws := draws rnd |}).
      destruct (IH rnd' Hr) as (Hm & Hp & Hd).
      destruct (replaceXY template rnd') as [out rnd''] eqn:E. simpl in *.
      destruct (Hr (position rnd)) as [H0 H1].
      pose proof (floor16_range _ H0 H1) as Hfloor.
      split; [| split; [unfold drawsOf in Hp; lia | done]].
      rewrite Hm, andb_true_r.
      destruct (c =? 120)%N eqn:Hx; [by apply hexDigit_isHex |].
      rewrite orb_false_l in Hxy. rewrite Hxy. by apply hexDigit_variant.
    + destruct (IH rnd Hr) as (Hm & Hp & Hd).
      destruct (replaceXY template rnd) as [out rnd''] eqn:E. simpl in *.
      apply orb_false_iff in Hxy as [-> ->].
      rewrite N.eqb_refl. simpl. by repeat split.
Qed.

(** A generated token has the shape of a version-4 UUID and takes 31
    draws. *)
Lemma generateUUID_shape rnd :
  inRange rnd ->
  uuidV4Shaped (generateUUID rnd).1 = true
  /\ position (generateUUID rnd).2 = (position rnd + 31)%nat
  /\ draws (generateUUID rnd).2 = draws rnd.
Proof. intros H. by apply (replaceXY_shape UUID_TEMPLATE). Qed.

Lemma matchesTemplate_length template out :
  matchesTemplate template out = true -> length out = length template.
Proof.
  revert out. induction template as [| c t IH]; intros [| o out] H; simpl in *;
    try done.
  apply andb_prop in H as [_ H]. by rewrite (IH _ H).
Qed.

Lemma generateUUID_inRange rnd : inRange rnd -> inRange (generateUUID rnd).2.
Proof.
  intros H i. destruct (generateUUID_shape rnd H) as (_ & _ & ->). apply H.
Qed.

Lemma uuidV4Shaped_nonempty u : uuidV4Shaped u = true -> u <> [].
Proof. intros H ->. discriminate. Qed.

Lemma getOrSetUserId_spec storage rnd :
  inRange rnd ->
  let '(userId, storage', rnd') := getOrSetUserId storage rnd in
  storage' !! USER_ID_KEY = Some userId
  /\ userId <> []
  /\ inRange rnd'
  /\ (truthy (storage !! USER_ID_KEY) = true ->
      storage !! USER_ID_KEY = Some userId /\ storage' = storage
      /\ rnd' = rnd)
  /\ (truthy (storage !! USER_ID_KEY) = false ->
      uuidV4Shaped userId = true
      /\ storage' = <[USER_ID_KEY := userId]> storage).
Proof.
  intros Hr. unfold getOrSetUserId. generalize USER_ID_KEY. intros key.
  assert (Hgen : forall u rnd', generateUUID rnd = (u, rnd') ->
            uuidV4Shaped u = true /\ inRange rnd').
  { intros u rnd' E. destruct (generateUUID_shape rnd Hr) as (Hshape & _).
    pose proof (generateUUID_inRange rnd Hr) as Hr'.
    rewrite E in Hshape, Hr'. by split. }
  destruct (storage !! key) as [[| c v] |] eqn:Hs; cbn [truthy].
  - destruct (generateUUID rnd) as [u rnd'] eqn:E.
    destruct (Hgen u rnd' eq_refl) as [Hshape Hr'].
    split; [apply lookup_insert_eq |].
    split; [by apply uuidV4Shaped_nonempty |].
    split; [exact Hr' |]. split; [intros [=] |]. intros _. by split.
  - split; [exact Hs |]. split; [intros [=] |]. split; [exact Hr |].
    split; [intros _; by repeat split | intros [=]].
  - destruct (generateUUID rnd) as [u rnd'] eqn:E.
    destruct (Hgen u rnd' eq_refl) as [Hshape Hr'].
    split; [apply lookup_insert_eq |].
    split; [by apply uuidV4Shaped_nonempty |].
    split; [exact Hr' |]. split; [intros [=] |]. intros _. by split.
Qed.

Lemma attachBody_other options config k :
  k <> Js.lit "Content-Type" ->
  c_headers (attachBody options config) !! k = c_headers config !! k.
Proof.
  unfold attachBody. generalize (Js.lit "Content-Type"). intros ct Hk.
  repeat case_match; cbn [c_headers]; try done.
  by rewrite lookup_insert_ne.
Qed.

Lemma attachBody_method options config :
  c_method (attachBody options config) = c_method config.
Proof. unfold attachBody. by case_match. Qed.

End GatewayFacts.

(* ===================================================================== *)
(** * The properties of the design document                               *)
(* ===================================================================== *)

Import Cytoscape GraphMerge CytoscapeFacts GraphMergeFacts.

(** C1, as the code has it. For every graph and every payload in which
    nodes that share an id are equal, a second call of [mergeGraph] with the
    payload, in the graph the first call left, ends as the first did: it
    leaves that graph as it is and, when [cy.add] threw, throws the same
    error. And an element whose id is that of a payload node ends with the
    node's name, description, display name and font size, its id, endpoints
    and label unchanged. *)
Theorem mergeGraph_idempotent
    (measure : jsstr -> jsstr -> Q) (g : Core) (p : option GraphData) :
  consistentNodes (payloadNodes p) ->
  mergeGraph measure p (graph (mergeGraph measure p g))
  = mergeGraph measure p g
  /\ forall n e, n ∈ payloadNodes p -> g !! id n = Some e ->
       graph (mergeGraph measure p g) !! id n
       = Some (setData (nodeObj measure n) e).
Proof.
  intros Hcons. destruct p as [[ns es] |]; simpl in Hcons.
  - split.
    + by apply mergeGraph_twice.
    + intros n e Hn He. by apply mergeGraph_upsert.
  - split; [done |]. intros n e Hn. by inversion Hn.
Qed.

Lemma mergeGraph_idempotent_witness :
  let p := Some {| nodes := Some [mkPNode (Js.lit "a") (Some (Js.lit "Alpha")) None];
                   edges := Some [Samples.relatesAB] |} in
  let g : Core := graph (mergeGraph Samples.glyphMeasure Samples.nodesAB ∅) in
  mergeGraph Samples.glyphMeasure p (graph (mergeGraph Samples.glyphMeasure p g))
  = mergeGraph Samples.glyphMeasure p g
  /\ is_Some (graph (mergeGraph Samples.glyphMeasure p g) !! Js.lit "a-b-relates").
Proof.
  intros p g. split.
  - apply (mergeGraph_idempotent Samples.glyphMeasure g p).
    intros n n' Hn Hn' _. simpl in *.
    apply list_elem_of_singleton in Hn, Hn'. congruence.
  - eexists. vm_compute. reflexivity.
Defined.

(** C1 as stated fails: a payload that lists the id ["n"] twice, first
    named ["A"] and then ["B"], leaves the node named ["A"] when merged once
    into the empty graph and named ["B"] when merged twice. *)
Lemma mergeGraph_not_idempotent_on_repeated_id :
  let merge g := graph (mergeGraph Samples.glyphMeasure Samples.twoNamesOneId g) in
  (name <$> merge ∅ !! Js.lit "n") = Some (Some (Js.lit "A"))
  /\ (name <$> merge (merge ∅) !! Js.lit "n") = Some (Some (Js.lit "B"))
  /\ merge (merge ∅) <> merge ∅.
Proof.
  cbv zeta. split; [by vm_compute |]. split; [by vm_compute |].
  intros H.
  apply (f_equal (fun g : Core => name <$> g !! Js.lit "n")) in H.
  vm_compute in H. discriminate.
Qed.




(** C3. Every element of the graph before a merge is an element of the
    graph after it, whether the call threw or not, under the same id, with
    the same source, target and label (so a node stays a node and an edge
    stays an edge); and an element whose id is not the id of a payload node
    is exactly as it was. *)
Theorem mergeGraph_never_removes
    (measure : jsstr -> jsstr -> Q) (g : Core) (p : option GraphData)
    (k : jsstr) (d : Data) :
  g !! k = Some d ->
  exists d', graph (mergeGraph measure p g) !! k = Some d'
    /\ source d' = source d /\ target d' = target d /\ label d' = label d
    /\ isEdge d' = isEdge d
    /\ ((forall n, n ∈ payloadNodes p -> k <> id n) -> d' = d).
Proof.
  intros Hd. destruct p as [[ns es] |].
  - destruct (mergeGraph_keeps measure g ns es k d Hd) as (d' & H & Hs & Hf).
    exists d'. split; [done |]. pose proof (isEdge_sameEnds _ _ Hs).
    destruct Hs as (? & ? & ?). by repeat split.
  - exists d. by repeat split.
Qed.

Lemma mergeGraph_never_removes_witness :
  let g : Core :=
    merges Samples.glyphMeasure
      [Samples.nodesAB;
       Some {| nodes := None; edges := Some [Samples.relatesAB] |}] ∅ in
  is_Some (graph (mergeGraph Samples.glyphMeasure Samples.twoNamesOneId g)
             !! Js.lit "a-b-relates").
Proof.
  intros g.
  destruct (mergeGraph_never_removes Samples.glyphMeasure g
              Samples.twoNamesOneId (Js.lit "a-b-relates")
              (edgeData (edgeObj Samples.relatesAB)))
    as (d' & H & _).
  - by vm_compute.
  - by exists d'.
Defined.

(** C4, as the code has it. In both revisions the overlay element shows
    one text, chosen by rank, after every [refreshOverlay] and at every page
    the program can reach: the task message when [taskDepth > 0]; otherwise
    the backend message when the backend wait is on; otherwise, in the
    revision with the datastore readiness state, the datastore message when
    that wait is on; otherwise the transient message when one is pending;
    otherwise the overlay is hidden. When the last task ends while the
    backend wait is on, the backend message is shown again. *)
Theorem overlay_priority :
  (forall p, Overlay.shown (Overlay.refreshOverlay p))
  /\ (forall es, Overlay.shown (Overlay.run Overlay.initialPage es))
  /\ (forall es,
        let p := Overlay.run Overlay.initialPage es in
        Overlay.taskDepth (Overlay.overlayState p) = 1 ->
        Overlay.backend_active (Overlay.overlayState p) = true ->
        (Overlay.overlayHidden p = false
         /\ Overlay.overlayMessage p
            = Overlay.taskMessage (Overlay.overlayState p))
        /\ (Overlay.overlayHidden (Overlay.hideLoading p) = false
            /\ Overlay.overlayMessage (Overlay.hideLoading p)
               = Overlay.backend_message (Overlay.overlayState p)))
  /\ (forall p, ReadinessOverlay.shown (ReadinessOverlay.refreshOverlay p))
  /\ (forall es,
        ReadinessOverlay.shown
          (ReadinessOverlay.run ReadinessOverlay.initialPage es)).
Proof.
  split; [apply OverlayFacts.refreshOverlay_shown |].
  split; [intros es; apply OverlayFacts.shown_run, OverlayFacts.shown_initial |].
  split; [| split].
  - intros es p Hd Hb.
    pose proof (OverlayFacts.shown_run es _ OverlayFacts.shown_initial)
      as (Htask & _).
    fold p in Htask. split; [apply Htask; lia |].
    by apply OverlayFacts.hideLoading_reveals_backend.
  - apply ReadinessOverlayFacts.db_refreshOverlay_shown.
  - intros es. apply ReadinessOverlayFacts.db_shown_run,
      ReadinessOverlayFacts.db_shown_initial.
Qed.

Lemma overlay_priority_witness :
  let p := Overlay.run Overlay.initialPage
             [Overlay.ShowLoading (Js.lit "Expanding node…");
              Overlay.RequestSettled 0 Browser.NetworkError] in
  Overlay.overlayMessage p = Js.lit "Expanding node…"
  /\ Overlay.overlayMessage (Overlay.hideLoading p)
     = Js.lit "Backend is waking up… please hold tight. 0s / ~50s".
Proof.
  intros p. destruct overlay_priority as (_ & _ & H & _).
  destruct (H [Overlay.ShowLoading (Js.lit "Expanding node…");
               Overlay.RequestSettled 0 Browser.NetworkError])
    as ((_ & Htask) & (_ & Hback)).
  - vm_compute. reflexivity.
  - vm_compute. reflexivity.
  - fold p in Htask, Hback. rewrite Htask, Hback. split; vm_compute; reflexivity.
Defined.

(** C4 as stated fails in the revision with the datastore readiness state:
    with no task, the backend wait off, the datastore wait on and a
    transient message pending, the overlay shows the datastore message, not
    the transient one. *)
Lemma overlay_datastore_outranks_transient :
  let p := ReadinessOverlay.showTransientStatus (Js.lit "Request failed") 3000
             Samples.datastoreWarmingUp in
  let o := ReadinessOverlay.overlayState p in
  ReadinessOverlay.taskDepth o = 0
  /\ ReadinessOverlay.backend_active o = false
  /\ ReadinessOverlay.transient_active o = true
  /\ ReadinessOverlay.overlayHidden p = false
  /\ ReadinessOverlay.overlayMessage p = Js.lit "Waiting for database… 0s elapsed"
  /\ ReadinessOverlay.overlayMessage p <> ReadinessOverlay.transient_message o.
Proof. vm_compute. repeat split; discriminate. Qed.

(** C5, as the code has it. In the revision without the datastore state, a
    request that completes with a 2xx status, or a successful health probe,
    turns the backend wait off, stops its timer and stops the recovery
    poller at once. In the revision with the datastore readiness state, a
    2xx request turns the backend wait off and stops its timer; so does
    every health reply that reports the backend online, whatever it reports
    of the datastore; and a health reply that reports the backend online and
    the datastore ready clears both waits, both timers and the poller. *)
Theorem good_response_clears_recovery :
  (forall es now status body,
     Browser.ok status = true ->
     let p := Overlay.run Overlay.initialPage es in
     forall q,
       q = (Overlay.request now (Browser.Response status body) p).2
       \/ q = (Overlay.pingBackend (Browser.Response status body) p).2 ->
       Overlay.active (Overlay.backendWaitState q) = false
       /\ Overlay.backend_active (Overlay.overlayState q) = false
       /\ Overlay.backendHealthCheckIntervalId q = None
       /\ Browser.running Browser.UpdateBackendWaitMessage (Overlay.timers q)
          = ∅
       /\ Browser.running Browser.HealthCheck (Overlay.timers q) = ∅)
  /\ (forall es now status body,
        Browser.ok status = true ->
        let p := ReadinessOverlay.run ReadinessOverlay.initialPage es in
        let q := (ReadinessOverlay.request now
                    (Browser.Response status body) p).2 in
        ReadinessOverlay.active (ReadinessOverlay.backendWaitState q) = false
        /\ ReadinessOverlay.backend_active (ReadinessOverlay.overlayState q)
           = false
        /\ Browser.running Browser.UpdateBackendWaitMessage
             (ReadinessOverlay.timers q) = ∅)
  /\ (forall es now prefix reply,
        ReadinessOverlay.online (ReadinessOverlay.checkBackendStatus reply)
          = true ->
        ReadinessOverlay.neo4jReady (ReadinessOverlay.checkBackendStatus reply)
          = true ->
        let p := ReadinessOverlay.run ReadinessOverlay.initialPage es in
        forall q,
          q = (ReadinessOverlay.evaluateHealthStatus now prefix
                 (ReadinessOverlay.checkBackendStatus reply) p).2
          \/ q = ReadinessOverlay.pollContinuation now
                   (ReadinessOverlay.checkBackendStatus reply) p ->
          ReadinessOverlay.active (ReadinessOverlay.backendWaitState q) = false
          /\ ReadinessOverlay.active (ReadinessOverlay.databaseWaitState q)
             = false
          /\ ReadinessOverlay.backend_active (ReadinessOverlay.overlayState q)
             = false
          /\ ReadinessOverlay.database_active (ReadinessOverlay.overlayState q)
             = false
          /\ ReadinessOverlay.backendHealthCheckIntervalId q = None
          /\ Browser.running Browser.UpdateBackendWaitMessage
               (ReadinessOverlay.timers q) = ∅
          /\ Browser.running Browser.UpdateDatabaseWaitMessage
               (ReadinessOverlay.timers q) = ∅
          /\ Browser.running Browser.HealthCheck (ReadinessOverlay.timers q)
             = ∅)
  /\ (forall es now prefix reply,
        ReadinessOverlay.online (ReadinessOverlay.checkBackendStatus reply)
          = true ->
        let p := ReadinessOverlay.run ReadinessOverlay.initialPage es in
        forall q,
          q = (ReadinessOverlay.evaluateHealthStatus now prefix
                 (ReadinessOverlay.checkBackendStatus reply) p).2
          \/ q = ReadinessOverlay.pollContinuation now
                   (ReadinessOverlay.checkBackendStatus reply) p ->
          ReadinessOverlay.active (ReadinessOverlay.backendWaitState q) = false
          /\ ReadinessOverlay.backend_active (ReadinessOverlay.overlayState q)
             = false
          /\ Browser.running Browser.UpdateBackendWaitMessage
               (ReadinessOverlay.timers q) = ∅).
Proof.
  split; [| split; [| split]].
  4:{ intros es now prefix reply Hon p q Hq.
      apply (ReadinessOverlayFacts.online_clears_backend_wait now prefix
               (ReadinessOverlay.checkBackendStatus reply) p q); try done.
      apply ReadinessOverlayFacts.db_consistent_run,
        ReadinessOverlayFacts.db_consistent_initial. }
  - intros es now status body Hok p q Hq.
    assert (Hc : Overlay.consistent p)
      by apply OverlayFacts.consistent_run, OverlayFacts.consistent_initial.
    assert (q = Overlay.markBackendOnline p) as ->.
    { destruct Hq as [-> | ->];
        unfold Overlay.request, Overlay.pingBackend; by rewrite Hok. }
    by apply OverlayFacts.markBackendOnline_clears.
  - intros es now status body Hok p q.
    assert (Hc : ReadinessOverlay.consistent p)
      by apply ReadinessOverlayFacts.db_consistent_run,
           ReadinessOverlayFacts.db_consistent_initial.
    destruct (ReadinessOverlayFacts.request_2xx_clears now status body p Hc Hok)
      as (? & ? & ? & _).
    done.
  - intros es now prefix reply Hon Hready p q Hq.
    assert (Hc : ReadinessOverlay.consistent p)
      by apply ReadinessOverlayFacts.db_consistent_run,
           ReadinessOverlayFacts.db_consistent_initial.
    assert (q = ReadinessOverlay.stopBackendRecoveryPolling
                  (ReadinessOverlay.stopDatabaseWait
                     (ReadinessOverlay.stopBackendWait p))) as ->.
    { destruct Hq as [-> | ->];
        unfold ReadinessOverlay.evaluateHealthStatus,
          ReadinessOverlay.pollContinuation, ReadinessOverlay.markBackendOnline;
        by rewrite Hon, Hready. }
    by apply ReadinessOverlayFacts.ready_clears.
Qed.

Lemma good_response_clears_recovery_witness :
  let p := Overlay.run Overlay.initialPage
             [Overlay.RequestSettled 0 Browser.NetworkError] in
  let q := (Overlay.request 1000 (Browser.Response 200 Samples.noBody) p).2 in
  let p' := ReadinessOverlay.run ReadinessOverlay.initialPage
              [ReadinessOverlay.RequestSettled 0 Browser.NetworkError] in
  let warming := ReadinessOverlay.HealthResponse 200 (Some false) None in
  let q' := ReadinessOverlay.pollContinuation 10000
              (ReadinessOverlay.checkBackendStatus warming) p' in
  (Overlay.active (Overlay.backendWaitState p) = true
   /\ Overlay.active (Overlay.backendWaitState q) = false
   /\ Overlay.backendHealthCheckIntervalId q = None
   /\ Browser.running Browser.HealthCheck (Overlay.timers q) = ∅)
  /\ (ReadinessOverlay.active (ReadinessOverlay.backendWaitState p') = true
      /\ ReadinessOverlay.active (ReadinessOverlay.backendWaitState q') = false
      /\ Browser.running Browser.UpdateBackendWaitMessage
           (ReadinessOverlay.timers q') = ∅).
Proof.
  intros p q p' warming q'.
  destruct good_response_clears_recovery as (H & _ & _ & H').
  split.
  - destruct (H [Overlay.RequestSettled 0 Browser.NetworkError] 1000 200
                Samples.noBody eq_refl q (or_introl eq_refl))
      as (Ha & _ & Hi & _ & Hr).
    split; [vm_compute; reflexivity |]. by repeat split.
  - destruct (H' [ReadinessOverlay.RequestSettled 0 Browser.NetworkError]
                10000 [] warming eq_refl q' (or_intror eq_refl))
      as (Ha & _ & Hr).
    split; [vm_compute; reflexivity |]. by split.
Defined.

(** C5 as stated fails in the revision with the datastore readiness state:
    while the datastore wait is on, a request answered 200 leaves that wait
    on, its timer live and the recovery poller registered. *)
Lemma good_request_keeps_datastore_wait :
  let p := Samples.datastoreWarmingUp in
  let q := (ReadinessOverlay.request 12000 (Browser.Response 200 Samples.noBody) p).2 in
  ReadinessOverlay.active (ReadinessOverlay.databaseWaitState q) = true
  /\ ReadinessOverlay.database_active (ReadinessOverlay.overlayState q) = true
  /\ ReadinessOverlay.backendHealthCheckIntervalId q = Some 2%positive
  /\ Browser.active (ReadinessOverlay.timers q) !! 2%positive
     = Some Browser.HealthCheck
  /\ Browser.active (ReadinessOverlay.timers q) !! 3%positive
     = Some Browser.UpdateDatabaseWaitMessage.
Proof. vm_compute. by repeat split. Qed.

(** C6. In both revisions, once the backend wait is on, whatever sequence
    of events that do not report the backend online follows, entering the
    wait again replaces only the message prefix: the wait stays on, its
    start time and its timer are those of the first entry, and the message
    counts the seconds from that start time. *)
Theorem backend_wait_clock_not_restarted :
  (forall p es now prefix,
     Overlay.active (Overlay.backendWaitState p) = true ->
     Forall (fun e => Overlay.reportsOnline e = false) es ->
     let w0 := Overlay.backendWaitState p in
     let q := Overlay.startBackendWait now prefix (Overlay.run p es) in
     let w := Overlay.backendWaitState q in
     Overlay.active w = true
     /\ Overlay.startTime w = Overlay.startTime w0
     /\ Overlay.timerId w = Overlay.timerId w0
     /\ Overlay.baseMessage w = prefix
     /\ Overlay.backend_message (Overlay.overlayState q)
        = Overlay.waitMessage prefix
            (Browser.roundSeconds (now - default 0 (Overlay.startTime w0))))
  /\ (forall p es now prefix,
        ReadinessOverlay.active (ReadinessOverlay.backendWaitState p) = true ->
        Forall (fun e => ReadinessOverlay.reportsOnline e = false) es ->
        let w0 := ReadinessOverlay.backendWaitState p in
        let q := ReadinessOverlay.startBackendWait now prefix
                   (ReadinessOverlay.run p es) in
        let w := ReadinessOverlay.backendWaitState q in
        ReadinessOverlay.active w = true
        /\ ReadinessOverlay.startTime w = ReadinessOverlay.startTime w0
        /\ ReadinessOverlay.timerId w = ReadinessOverlay.timerId w0
        /\ ReadinessOverlay.baseMessage w = prefix
        /\ ReadinessOverlay.backend_message (ReadinessOverlay.overlayState q)
           = ReadinessOverlay.backendWaitMessage prefix
               (Browser.roundSeconds
                  (now - default 0 (ReadinessOverlay.startTime w0)))).
Proof.
  split.
  - intros p es now prefix Ha Hes w0 q w.
    destruct (OverlayFacts.run_keeps_clock es p Ha Hes) as (Ha' & Hs & Ht).
    destruct (OverlayFacts.startBackendWait_wait now prefix (Overlay.run p es))
      as [Hw _].
    destruct (OverlayFacts.startBackendWait_message now prefix
                (Overlay.run p es)) as [Hm _].
    unfold w, q, w0. rewrite Hw, Hm, Ha', Hs. simpl. by rewrite Ht.
  - intros p es now prefix Ha Hes w0 q w.
    destruct (ReadinessOverlayFacts.db_run_keeps_clock es p Ha Hes)
      as (Ha' & Hs & Ht).
    pose proof (ReadinessOverlayFacts.db_startBackendWait_wait now prefix
                  (ReadinessOverlay.run p es)) as Hw.
    destruct (ReadinessOverlayFacts.db_startBackendWait_message now prefix
                (ReadinessOverlay.run p es)) as [Hm _].
    unfold w, q, w0. rewrite Hw, Hm, Ha', Hs. simpl. by rewrite Ht.
Qed.

Lemma backend_wait_clock_not_restarted_witness :
  let first := (Overlay.request 5000 Browser.NetworkError Overlay.initialPage).2 in
  let second := Overlay.startBackendWait 6000
                  (Js.lit "Backend issue detected… attempting to recover.")
                  first in
  Overlay.startTime (Overlay.backendWaitState second) = Some 5000
  /\ Overlay.backend_message (Overlay.overlayState second)
     = Js.lit "Backend issue detected… attempting to recover. 1s / ~50s".
Proof.
  intros first second.
  destruct backend_wait_clock_not_restarted as (H & _).
  destruct (H first [] 6000
              (Js.lit "Backend issue detected… attempting to recover."))
    as (_ & Hs & _ & _ & Hm).
  - vm_compute. reflexivity.
  - constructor.
  - split.
    + etrans; [exact Hs | vm_compute; reflexivity].
    + etrans; [exact Hm | vm_compute; reflexivity].
Defined.

(** C7. The task depth is never negative: it is at least 0 at every page
    the program can reach, and after [hideLoading] on any page at all.
    [runTask] raises it by one on entry and lowers it by one, not below 0,
    when the task has returned or thrown; around a task that leaves the
    depth as it found it, [runTask] leaves it as it found it. *)
Theorem task_depth_never_negative :
  (forall es,
     0 <= Overlay.taskDepth
            (Overlay.overlayState (Overlay.run Overlay.initialPage es)))
  /\ (forall p,
        0 <= Overlay.taskDepth (Overlay.overlayState (Overlay.hideLoading p)))
  /\ (forall (A : Type) message
             (task : Overlay.Page -> Overlay.Completion A * Overlay.Page) p,
        let entered := Overlay.showLoading message p in
        Overlay.taskDepth (Overlay.overlayState entered)
        = Overlay.taskDepth (Overlay.overlayState p) + 1
        /\ Overlay.taskDepth
             (Overlay.overlayState (Overlay.runTask message task p))
           = Z.max 0
               (Overlay.taskDepth (Overlay.overlayState (task entered).2) - 1))
  /\ (forall (A : Type) message
             (task : Overlay.Page -> Overlay.Completion A * Overlay.Page) p,
        let entered := Overlay.showLoading message p in
        0 <= Overlay.taskDepth (Overlay.overlayState p) ->
        Overlay.taskDepth (Overlay.overlayState (task entered).2)
        = Overlay.taskDepth (Overlay.overlayState entered) ->
        Overlay.taskDepth
          (Overlay.overlayState (Overlay.runTask message task p))
        = Overlay.taskDepth (Overlay.overlayState p)).
Proof.
  split; [| split; [| split]].
  - intros es. by apply OverlayFacts.run_taskDepth_nonneg.
  - intros p. rewrite OverlayFacts.hideLoading_taskDepth. lia.
  - intros A message task p entered. split.
    + apply OverlayFacts.showLoading_taskDepth.
    + apply OverlayFacts.runTask_taskDepth.
  - intros A message task p entered H0 Htask.
    rewrite OverlayFacts.runTask_taskDepth. fold entered. rewrite Htask.
    unfold entered. rewrite OverlayFacts.showLoading_taskDepth. lia.
Qed.

Lemma task_depth_never_negative_witness :
  let failing (p : Overlay.Page) : Overlay.Completion unit * Overlay.Page :=
    (Overlay.Thrown (Js.lit "Request failed with status 404"), p) in
  Overlay.taskDepth
    (Overlay.overlayState
       (Overlay.runTask (Js.lit "Deleting node…") failing Overlay.initialPage))
  = 0.
Proof.
  intros failing. destruct task_depth_never_negative as (_ & _ & _ & H).
  apply (H unit (Js.lit "Deleting node…") failing Overlay.initialPage).
  - vm_compute. discriminate.
  - reflexivity.
Defined.

(** C10. At every page the program can reach, at most one recovery poller
    is live, and it is the one whose handle [backendHealthCheckIntervalId]
    holds. [beginBackendRecovery] keeps a registered poller and registers
    one only when none is; events that do not report the backend online
    leave the registered poller as the only one; [markBackendOnline] stops
    it and forgets its handle, and doing so again changes nothing. *)
Theorem single_health_poller :
  (forall es,
     let p := Overlay.run Overlay.initialPage es in
     (size (Browser.running Browser.HealthCheck (Overlay.timers p)) <= 1)%nat
     /\ Browser.running Browser.HealthCheck (Overlay.timers p)
        = match Overlay.backendHealthCheckIntervalId p with
          | Some h => {[h]}
          | None => ∅
          end)
  /\ (forall es now prefix,
        let p := Overlay.run Overlay.initialPage es in
        let q := Overlay.beginBackendRecovery now prefix p in
        (forall h, Overlay.backendHealthCheckIntervalId p = Some h ->
                   Overlay.backendHealthCheckIntervalId q = Some h)
        /\ exists h, Overlay.backendHealthCheckIntervalId q = Some h
             /\ Browser.running Browser.HealthCheck (Overlay.timers q) = {[h]})
  /\ (forall es es' h,
        let p := Overlay.run Overlay.initialPage es in
        Overlay.backendHealthCheckIntervalId p = Some h ->
        Forall (fun e => Overlay.reportsOnline e = false) es' ->
        let q := Overlay.run p es' in
        Overlay.backendHealthCheckIntervalId q = Some h
        /\ Browser.running Browser.HealthCheck (Overlay.timers q) = {[h]})
  /\ (forall es,
        let q := Overlay.markBackendOnline
                   (Overlay.run Overlay.initialPage es) in
        Overlay.backendHealthCheckIntervalId q = None
        /\ Browser.running Browser.HealthCheck (Overlay.timers q) = ∅
        /\ Overlay.markBackendOnline q = q).
Proof.
  assert (Hreach : forall es,
            Overlay.consistent (Overlay.run Overlay.initialPage es))
    by (intros; apply OverlayFacts.consistent_run,
          OverlayFacts.consistent_initial).
  split; [| split; [| split]].
  - intros es p. destruct (Hreach es) as (_ & _ & Hp & _). fold p in Hp. split.
    + by apply (BrowserFacts.running_size _ _ _ Hp).
    + by apply BrowserFacts.running_owns.
  - intros es now prefix p q.
    destruct (OverlayFacts.beginBackendRecovery_wait now prefix p)
      as (_ & Hkeep & [h Hh] & _).
    split; [exact Hkeep |]. exists h. split; [exact Hh |].
    destruct (OverlayFacts.consistent_beginBackendRecovery now prefix p
                (Hreach es)) as (_ & _ & Hp & _).
    unfold q. rewrite (BrowserFacts.running_owns _ _ _ Hp). by rewrite Hh.
  - intros es es' h p Hi Hes q.
    pose proof (OverlayFacts.run_keeps_poller es' p h Hi Hes) as Hq.
    split; [exact Hq |].
    destruct (OverlayFacts.consistent_run es' p (Hreach es)) as (_ & _ & Hp & _).
    unfold q. rewrite (BrowserFacts.running_owns _ _ _ Hp). by rewrite Hq.
  - intros es q.
    destruct (OverlayFacts.markBackendOnline_clears _ (Hreach es))
      as (_ & _ & Hi & _ & Hr).
    split; [exact Hi |]. split; [exact Hr |].
    by apply OverlayFacts.markBackendOnline_idempotent.
Qed.

Lemma single_health_poller_witness :
  let p := Overlay.run Overlay.initialPage
             [Overlay.RequestSettled 0 Browser.NetworkError] in
  let q := Overlay.run p
             [Overlay.RequestSettled 1000 Browser.NetworkError;
              Overlay.RequestSettled 2000 (Browser.Response 503 Samples.noBody)] in
  Overlay.backendHealthCheckIntervalId q = Some 2%positive
  /\ Browser.running Browser.HealthCheck (Overlay.timers q) = {[2%positive]}.
Proof.
  intros p q. destruct single_health_poller as (_ & _ & H & _).
  apply (H [Overlay.RequestSettled 0 Browser.NetworkError]
           [Overlay.RequestSettled 1000 Browser.NetworkError;
            Overlay.RequestSettled 2000 (Browser.Response 503 Samples.noBody)]
           2%positive).
  - vm_compute. reflexivity.
  - repeat constructor.
Defined.

(** C8, as the code has it. In the revision of the gateway that sends
    both headers, every request carries [X-User-ID] with the identity that
    [getOrSetUserId] returned at start-up: the value found in local storage,
    or else a freshly generated token of version-4 UUID shape, stored there,
    so that the next start-up returns the same identity. A request whose
    method, put in upper case by [toUpperCase], is POST, PUT, DELETE or
    PATCH carries an [Idempotency-Key] generated during that call from the
    next 31 draws of the random source, of version-4 UUID shape; a method
    written in ASCII in any letter case that names one of the four is such
    a method. A request with another method draws nothing and gets no key
    from the gateway. *)
Theorem gateway_identity_and_idempotency
    (toUpperCase : jsstr -> jsstr)
    (storage : Gateway.Storage) (rnd : Gateway.Random)
    (options : Gateway.Options) :
  Gateway.inRange rnd ->
  let started := Gateway.getOrSetUserId storage rnd in
  let USER_ID := started.1.1 in
  let storage' := started.1.2 in
  let rnd1 := started.2 in
  let sent :=
    Gateway.Idempotent.requestConfig toUpperCase USER_ID options rnd1 in
  Gateway.c_headers sent.1 !! Js.lit "X-User-ID" = Some USER_ID
  /\ storage' !! Gateway.USER_ID_KEY = Some USER_ID
  /\ (Gateway.getOrSetUserId storage' sent.2).1.1 = USER_ID
  /\ (Gateway.truthy (storage !! Gateway.USER_ID_KEY) = true ->
      storage !! Gateway.USER_ID_KEY = Some USER_ID)
  /\ (Gateway.truthy (storage !! Gateway.USER_ID_KEY) = false ->
      Gateway.uuidV4Shaped USER_ID = true)
  /\ (Gateway.isMutating toUpperCase options ->
      Gateway.c_headers sent.1 !! Js.lit "Idempotency-Key"
      = Some (Gateway.generateUUID rnd1).1
      /\ Gateway.uuidV4Shaped (Gateway.generateUUID rnd1).1 = true
      /\ Gateway.position sent.2 = (Gateway.position rnd1 + 31)%nat)
  /\ (~ Gateway.isMutating toUpperCase options ->
      Gateway.c_headers sent.1 !! Js.lit "Idempotency-Key"
      = default ∅ (Gateway.headers options) !! Js.lit "Idempotency-Key"
      /\ sent.2 = rnd1)
  /\ (Gateway.upperCasesAscii toUpperCase ->
      Gateway.namesMutatingMethod options ->
      Gateway.isMutating toUpperCase options).
Proof.
  intros Hr started USER_ID storage' rnd1 sent.
  pose proof (GatewayFacts.getOrSetUserId_spec storage rnd Hr) as Hspec.
  fold started in Hspec.
  destruct started as [[u st] r1] eqn:Hstarted. simpl in USER_ID, storage', rnd1.
  destruct Hspec as (Hst & Hne & Hr1 & Hold & Hnew).
  assert (Hxu : Js.lit "X-User-ID" <> Js.lit "Content-Type")
    by (vm_compute; discriminate).
  assert (Hik : Js.lit "Idempotency-Key" <> Js.lit "Content-Type")
    by (vm_compute; discriminate).
  assert (Hix : Js.lit "X-User-ID" <> Js.lit "Idempotency-Key")
    by (vm_compute; discriminate).
  assert (Hlaw : Gateway.upperCasesAscii toUpperCase ->
                 Gateway.namesMutatingMethod options ->
                 Gateway.isMutating toUpperCase options).
  { intros Hlaw [Hascii Hin]. unfold Gateway.isMutating.
    by rewrite (Hlaw _ Hascii). }
  revert Hlaw.
  unfold sent, Gateway.Idempotent.requestConfig, Gateway.isMutating.
  cbv zeta.
  change (Gateway.c_method
            (Gateway.setHeader (Js.lit "X-User-ID") USER_ID
               (Gateway.initialConfig options)))
    with (Js.orElse (Gateway.method options) (Js.lit "GET")).
  generalize dependent (Js.lit "X-User-ID").
  generalize dependent (Js.lit "Idempotency-Key").
  intros ik Hik xu Hxu Hix Hlaw.
  case_bool_decide as Hm.
  - destruct (GatewayFacts.generateUUID_shape r1 Hr1) as (Hshape & Hpos & _).
    fold rnd1 in Hshape, Hpos.
    destruct (Gateway.generateUUID rnd1) as [key r2] eqn:Hkey.
    cbn [fst snd] in *.
    rewrite !GatewayFacts.attachBody_other by assumption.
    unfold Gateway.setHeader. cbn [Gateway.c_headers].
    rewrite lookup_insert_ne by (intros E; by apply Hix). rewrite !lookup_insert_eq.
    split; [reflexivity |]. split; [exact Hst |]. split.
    { unfold Gateway.getOrSetUserId. unfold storage'. rewrite Hst.
      unfold USER_ID.
      destruct u as [| c u']; [exfalso; apply Hne; reflexivity | reflexivity]. }
    split; [intros H; apply Hold; exact H |].
    split; [intros H; apply Hnew; exact H |].
    split; [intros _; repeat split; assumption |].
    split; [| exact Hlaw].
    intros Hnot. exfalso. apply Hnot. exact Hm.
  - cbn [fst snd].
    rewrite !GatewayFacts.attachBody_other by assumption.
    unfold Gateway.setHeader, Gateway.initialConfig. cbn [Gateway.c_headers].
    rewrite lookup_insert_eq. rewrite lookup_insert_ne by assumption.
    split; [reflexivity |]. split; [exact Hst |]. split.
    { unfold Gateway.getOrSetUserId. unfold storage'. rewrite Hst.
      unfold USER_ID.
      destruct u as [| c u']; [exfalso; apply Hne; reflexivity | reflexivity]. }
    split; [intros H; apply Hold; exact H |].
    split; [intros H; apply Hnew; exact H |].
    split; [intros Hyes; exfalso; apply Hm; exact Hyes |].
    split; [| exact Hlaw].
    intros _. split; reflexivity.
Qed.

Lemma gateway_identity_and_idempotency_witness :
  let started := Gateway.getOrSetUserId ∅ Samples.sampleRandom in
  let sent :=
    Gateway.Idempotent.requestConfig Samples.asciiOnly started.1.1
      Samples.postOptions started.2 in
  Gateway.c_headers sent.1 !! Js.lit "X-User-ID"
  = Some (Js.lit "07e5c3a1-8f6d-44b2-907e-5c3a18f6d4b2")
  /\ Gateway.c_headers sent.1 !! Js.lit "Idempotency-Key"
     = Some (Js.lit "907e5c3a-18f6-4d4b-a907-e5c3a18f6d4b").
Proof.
  intros started sent.
  assert (Hr : Gateway.inRange Samples.sampleRandom).
  { intros i. unfold Samples.sampleRandom. simpl. unfold Qle, Qlt. simpl.
    pose proof (Nat.mod_upper_bound (i * 7) 16). lia. }
  destruct (gateway_identity_and_idempotency Samples.asciiOnly ∅
              Samples.sampleRandom Samples.postOptions Hr)
    as (Hx & _ & _ & _ & _ & Hm & _ & Hlaw).
  destruct Hm as (Hk & _).
  { apply Hlaw.
    - intros s _. reflexivity.
    - split.
      + unfold Js.isAscii. vm_compute. repeat constructor.
      + vm_compute. left. }
  split.
  - etrans; [exact Hx | vm_compute; reflexivity].
  - etrans; [exact Hk | vm_compute; reflexivity].
Defined.

(** C8 as stated fails in the oldest revision of the gateway, which sends
    neither header, and in the revision that sends the identity only, whose
    mutating requests carry no idempotency key. *)
Lemma older_gateways_send_no_key :
  let anonymous := Gateway.Anonymous.requestConfig Samples.postOptions in
  let identified :=
    Gateway.Identified.requestConfig (Js.lit "user-1") Samples.postOptions in
  Gateway.c_method anonymous = Js.lit "POST"
  /\ Gateway.c_headers anonymous !! Js.lit "X-User-ID" = None
  /\ Gateway.c_headers anonymous !! Js.lit "Idempotency-Key" = None
  /\ Gateway.c_headers identified !! Js.lit "X-User-ID"
     = Some (Js.lit "user-1")
  /\ Gateway.c_headers identified !! Js.lit "Idempotency-Key" = None.
Proof. vm_compute. by repeat split. Qed.

(** C9, as the code has it. [truncateTextToFit] returns the text unchanged
  when it fits; otherwise the result is [p ++ "…"] where [p] is the longest
  prefix of the text (the whole text included) for which [p ++ "…"] fits,
  or the empty prefix when none does. So a text that does not fit comes
  back ending in the ellipsis and at most one unit longer than it was; it
  need not be shorter. *)
Theorem truncateTextToFit_longest_fitting_prefix
  (measure : jsstr -> jsstr -> Q) (text : jsstr) (maxWidth : Q)
  (font : jsstr) :
let result := TextMeasurer.truncateTextToFit measure text maxWidth font in
((measure text font <= maxWidth)%Q -> result = text)
/\ (~ (measure text font <= maxWidth)%Q ->
    exists p : jsstr,
      result = p ++ Js.ELLIPSIS
      /\ p `prefix_of` text
      /\ (p = [] \/ (measure (p ++ Js.ELLIPSIS) font <= maxWidth)%Q)
      /\ (forall q : jsstr,
            q `prefix_of` text -> (length p < length q)%nat ->
            ~ (measure (q ++ Js.ELLIPSIS) font <= maxWidth)%Q)
      /\ (length result <= length text + 1)%nat).
Proof.
unfold TextMeasurer.truncateTextToFit. simpl. split.
- intros H. apply Qle_bool_iff in H. by rewrite H.
- intros H. destruct (Qle_bool (measure text font) maxWidth) eqn:E.
  { exfalso. apply H. by apply Qle_bool_iff. }
  exists (TextMeasurer.truncateLoop measure maxWidth font text).
  destruct (TextMeasurerFacts.truncateLoop_longest measure maxWidth font text)
    as (Hp & Hf & Hmax).
  repeat split; try done.
  rewrite length_app. simpl. apply prefix_length in Hp. lia.
Qed.

Lemma truncateTextToFit_longest_fitting_prefix_witness :
  let fit text :=
    TextMeasurer.truncateTextToFit Samples.glyphMeasure text 94 Samples.FONT in
  fit (Js.lit "Alpha") = Js.lit "Alpha"
  /\ fit (Js.lit "WWWWWWWW") = Js.lit "WWWW…".
Proof.
  intros fit. split.
  - destruct (truncateTextToFit_longest_fitting_prefix Samples.glyphMeasure
                (Js.lit "Alpha") 94 Samples.FONT) as [H _].
    apply H. apply Qle_bool_iff. vm_compute. reflexivity.
  - destruct (truncateTextToFit_longest_fitting_prefix Samples.glyphMeasure
                (Js.lit "WWWWWWWW") 94 Samples.FONT) as [_ H].
    destruct H as (p & Hres & Hpre & Hfit & Hmax & _).
    { intros H. apply Qle_bool_iff in H. vm_compute in H. discriminate. }
    unfold fit. rewrite Hres.
    assert (Hp : p = take (length p) (Js.lit "WWWWWWWW")).
    { destruct Hpre as [r Hr]. rewrite Hr. by rewrite take_app_length. }
    assert (Hlen : (length p <= 8)%nat)
      by (apply prefix_length in Hpre; exact Hpre).
    assert (Hfour : (Js.lit "WWWW") `prefix_of` (Js.lit "WWWWWWWW"))
      by (exists (Js.lit "WWWW"); reflexivity).
    assert (Hfits : (Samples.glyphMeasure (Js.lit "WWWW" ++ Js.ELLIPSIS)
                       Samples.FONT <= 94)%Q)
      by (apply Qle_bool_iff; vm_compute; reflexivity).
    destruct (decide (length p < 4)%nat) as [Hlt | Hge].
    { exfalso. apply (Hmax (Js.lit "WWWW") Hfour); [exact Hlt | exact Hfits]. }
    destruct (decide (length p = 4)%nat) as [H4 | Hne].
    { rewrite Hp, H4. reflexivity. }
    exfalso. destruct Hfit as [Hnil | Hfit]; [rewrite Hnil in Hge; simpl in Hge; lia |].
    apply Qle_bool_iff in Hfit. rewrite Hp in Hfit.
    destruct (length p) as [| [| [| [| [| [| [| [| [| n]]]]]]]]];
      try lia; vm_compute in Hfit; discriminate.
Defined.

(** C9 as stated fails: on a canvas with fixed glyph advances the text
  ["aaaaaaW"] is 95 pixels wide, does not fit 94, and comes back as
  ["aaaaaa…"], which is as long as the original. *)
Lemma truncateTextToFit_not_always_shorter :
let text := Js.lit "aaaaaaW" in
let result :=
  TextMeasurer.truncateTextToFit Samples.glyphMeasure text 94 Samples.FONT in
~ (Samples.glyphMeasure text Samples.FONT <= 94)%Q
/\ result = Js.lit "aaaaaa…"
/\ ~ (length result < length text)%nat.
Proof.
simpl. split; [| split].
- intros H. apply Qle_bool_iff in H. vm_compute in H. discriminate.
- vm_compute. reflexivity.
- vm_compute. lia.
Qed.

(* ===================================================================== *)
(** * Properties of trimming                                              *)
(* ===================================================================== *)

Module JsTextFacts.
Import JsText.

Lemma trimStart_blank ws t : blank ws -> Js.trimStart (ws ++ t) = Js.trimStart t.
Proof. induction 1 as [| c ws Hc _ IH]; simpl; [done |]. by rewrite Hc. Qed.

Lemma trimStart_ink c r :
  Js.isWhiteSpace c = false -> Js.trimStart (c :: r) = c :: r.
Proof. intros H. simpl. by rewrite H. Qed.

Lemma blank_rev ws : blank ws -> blank (rev ws).
Proof. apply Forall_rev. Qed.

Lemma trimStart_spec s :
  exists ws, blank ws /\ s = ws ++ Js.trimStart s
    /\ forall c r, Js.trimStart s = c :: r -> Js.isWhiteSpace c = false.
Proof.
  induction s as [| c s (ws & Hws & Hs & Hc)].
  - exists []. split; [constructor |]. split; [done |]. intros c r H. inversion H.
  - simpl. destruct (Js.isWhiteSpace c) eqn:E.
    + exists (c :: ws). split; [by constructor |]. split; [| done].
      simpl. by rewrite <- Hs.
    + exists []. split; [constructor |]. split; [done |].
      intros c' r H. by inversion H; subst.
Qed.

Lemma trimEnd_spec s :
  exists ws, blank ws /\ s = Js.trimEnd s ++ ws
    /\ forall c r, Js.trimEnd s = r ++ [c] -> Js.isWhiteSpace c = false.
Proof.
  destruct (trimStart_spec (rev s)) as (ws & Hws & Hs & Hc).
  exists (rev ws). split; [by apply blank_rev |]. unfold Js.trimEnd. split.
  - rewrite <- rev_app_distr, <- Hs. by rewrite rev_involutive.
  - intros c r H. apply (Hc c (rev r)).
    rewrite <- (rev_involutive (Js.trimStart (rev s))), H.
    by rewrite rev_app_distr.
Qed.

(** [trim] drops a blank prefix and a blank suffix, and what it leaves
    neither starts nor ends with white space. *)
Lemma trim_spec s :
  exists ws1 ws2, blank ws1 /\ blank ws2 /\ s = ws1 ++ Js.trim s ++ ws2
    /\ trimmed (Js.trim s).
Proof.
  destruct (trimStart_spec s) as (ws1 & H1 & Hs & Hc).
  destruct (trimEnd_spec (Js.trimStart s)) as (ws2 & H2 & Ht & Hl).
  exists ws1, ws2. unfold Js.trim. split; [done |]. split; [done |]. split.
  - by rewrite <- Ht.
  - split; [| exact Hl]. intros c r E. apply (Hc c (r ++ ws2)).
    by rewrite Ht, E.
Qed.

Lemma trim_sandwich ws1 s ws2 :
  blank ws1 -> blank ws2 -> trimmed s -> Js.trim (ws1 ++ s ++ ws2) = s.
Proof.
  intros H1 H2 [Hfirst Hlast]. unfold Js.trim. rewrite trimStart_blank by done.
  destruct s as [| c r].
  - simpl. rewrite <- (app_nil_r ws2), trimStart_blank by done. reflexivity.
  - change ((c :: r) ++ ws2) with (c :: (r ++ ws2)).
    rewrite trimStart_ink by (by eapply Hfirst).
    unfold Js.trimEnd.
    change (c :: r ++ ws2) with ((c :: r) ++ ws2).
    rewrite rev_app_distr, trimStart_blank by (by apply blank_rev).
    destruct (exists_last (l := c :: r)) as (r' & c' & E); [done |].
    rewrite E, rev_app_distr. simpl.
    rewrite (Hlast c' r') by done. simpl. by rewrite rev_involutive.
Qed.

Lemma trim_blank ws : blank ws -> Js.trim ws = [].
Proof.
  intros H. rewrite <- (app_nil_r ws). change [] with (@nil N ++ []) at 1.
  apply trim_sandwich; [done | constructor |]. split; intros c r E.
  - inversion E.
  - by destruct r.
Qed.

Lemma blank_no_ink ws c : blank ws -> c ∈ ws -> Js.isWhiteSpace c = true.
Proof. intros H Hc. unfold blank in H. rewrite Forall_forall in H. by apply H. Qed.

(** A text keeps something after trimming exactly when one of its units is
    not white space. *)
Lemma trim_nonempty s :
  Js.trim s <> [] <-> exists c, c ∈ s /\ Js.isWhiteSpace c = false.
Proof.
  destruct (trim_spec s) as (ws1 & ws2 & H1 & H2 & Hs & Hfirst & _). split.
  - intros Hne. destruct (Js.trim s) as [| c r] eqn:E; [done |].
    exists c. split; [| by eapply Hfirst].
    rewrite Hs. apply elem_of_app. right. apply elem_of_app. left. left.
  - intros (c & Hc & Hink) E. rewrite E in Hs. simpl in Hs. rewrite Hs in Hc.
    apply elem_of_app in Hc as [Hc | Hc].
    + rewrite (blank_no_ink ws1 c) in Hink; done.
    + rewrite (blank_no_ink ws2 c) in Hink; done.
Qed.

End JsTextFacts.

(* ===================================================================== *)
(** * Further properties of the graph merge                               *)
(* ===================================================================== *)

Module GraphShapeFacts.
Import Cytoscape GraphMerge CytoscapeFacts GraphMergeFacts GraphShape.

Section WithCanvas.
Variable measure : jsstr -> jsstr -> Q.

Lemma setData_sameEnds obj e e' :
  sameEnds e e' -> setData obj e' = setData obj e.
Proof. intros (Hs & Ht & Hl). unfold setData. by rewrite Hs, Ht, Hl. Qed.

Lemma afterNodes_last (g : Core) ns1 n ns2 e :
  g !! id n = Some e -> (forall n', n' ∈ ns2 -> id n' <> id n) ->
  afterNodes measure g (ns1 ++ n :: ns2) !! id n
  = Some (setData (nodeObj measure n) e).
Proof.
  intros He Hlast. unfold GraphMerge.afterNodes.
  rewrite foldl_app. simpl.
  set (st0 := {| cy := g; elementsToAdd := []; seenEdgeIds := ∅ |}).
  destruct (mergeNodes_frame measure ns1 st0 (id n) e He) as (e1 & H1 & Hs1 & _).
  set (st1 := foldl (mergeNode measure) st0 ns1) in *.
  assert (H2 : cy (mergeNode measure st1 n) !! id n
               = Some (setData (nodeObj measure n) e)).
  { unfold mergeNode, getElementById. rewrite H1. simpl.
    rewrite lookup_insert_eq. by rewrite (setData_sameEnds _ e e1). }
  destruct (mergeNodes_frame measure ns2 (mergeNode measure st1 n) (id n) _ H2)
    as (e2 & H3 & _ & Hsame).
  rewrite H3. f_equal. apply Hsame. intros n' Hn' E. by apply (Hlast n').
Qed.

(** For an id that is in the graph, the last payload node with the id sets
    the data, whether [cy.add] throws afterwards or not. *)
Lemma mergeGraph_last (g : Core) ns1 n ns2 es e :
  g !! id n = Some e -> (forall n', n' ∈ ns2 -> id n' <> id n) ->
  graph (mergeGraph measure
           (Some {| nodes := Some (ns1 ++ n :: ns2); edges := es |}) g)
    !! id n
  = Some (setData (nodeObj measure n) e).
Proof.
  intros He Hlast. rewrite mergeGraph_stages.
  change (default [] (Some (ns1 ++ n :: ns2))) with (ns1 ++ n :: ns2).
  by apply restore_old, afterNodes_last.
Qed.

Lemma nodeQueue_app (g : Core) ns1 ns2 :
  nodeQueue measure g (ns1 ++ ns2)
  = nodeQueue measure g ns1 ++ nodeQueue measure g ns2.
Proof. unfold GraphMerge.nodeQueue. by rewrite List.filter_app, fmap_app. Qed.

(** For an id that is not in the graph, the first payload node with the id
    is the one stored, when the call does not throw. *)
Lemma mergeGraph_first (g : Core) ns1 n ns2 es :
  g !! id n = None -> (forall n', n' ∈ ns1 -> id n' <> id n) ->
  let out :=
    mergeGraph measure
      (Some {| nodes := Some (ns1 ++ n :: ns2); edges := es |}) g in
  thrown out = None ->
  graph out !! id n = Some (nodeData (nodeObj measure n)).
Proof.
  intros Hg Hfirst out. unfold out. rewrite mergeGraph_stages.
  change (default [] (Some (ns1 ++ n :: ns2))) with (ns1 ++ [n] ++ ns2).
  intros Hthrown. unfold add in *.
  apply (restore_stored _ _ (NodeJson (nodeObj measure n)) Hthrown).
  rewrite elem_of_nodesFirst. unfold GraphMerge.batch.
  rewrite !nodeQueue_app.
  assert (nodeQueue measure g [n] = [NodeJson (nodeObj measure n)]) as ->.
  { unfold GraphMerge.nodeQueue. cbn [List.filter].
    by rewrite bool_decide_eq_true_2. }
  rewrite <- !app_assoc. cbn [app].
  apply created_first.
  - by apply afterNodes_None.
  - apply not_elem_of_empty.
  - intros j' Hj'. apply nodeQueue_elem in Hj' as (n' & Hn' & -> & _).
    by apply Hfirst.
Qed.

Lemma labelled_empty : labelled measure ∅.
Proof. intros k d H. by rewrite lookup_empty in H. Qed.

Lemma labelled_setData n e :
  let d := setData (nodeObj measure n) e in
  displayName d
  = Some (TextMeasurer.nv_displayName
            (TextMeasurer.computeNodeVisuals measure (name d)))
  /\ fontSize d
     = Some (TextMeasurer.nv_fontSize
               (TextMeasurer.computeNodeVisuals measure (name d))).
Proof. done. Qed.

Lemma labelled_nodeData n :
  let d := nodeData (nodeObj measure n) in
  displayName d
  = Some (TextMeasurer.nv_displayName
            (TextMeasurer.computeNodeVisuals measure (name d)))
  /\ fontSize d
     = Some (TextMeasurer.nv_fontSize
               (TextMeasurer.computeNodeVisuals measure (name d))).
Proof. done. Qed.

Lemma labelled_mergeNode st n :
  labelled measure (cy st) -> labelled measure (cy (mergeNode measure st n)).
Proof.
  intros H k d. unfold mergeNode, getElementById.
  destruct (cy st !! id n) as [e |] eqn:E; simpl; [| apply H].
  rewrite lookup_insert_Some. intros [[_ <-] | [_ Hk]]; [| by eapply H].
  right. apply labelled_setData.
Qed.

Lemma labelled_mergeNodes ns st :
  labelled measure (cy st) ->
  labelled measure (cy (foldl (mergeNode measure) st ns)).
Proof.
  revert st. induction ns as [| n ns IH]; intros st H; [done |].
  simpl. by apply IH, labelled_mergeNode.
Qed.

Lemma labelled_restore (q : list ElementJson) (g : Core) :
  (forall j, j ∈ q ->
     (exists n, j = NodeJson (nodeObj measure n)) \/ isNodeJson j = false) ->
  labelled measure g -> labelled measure (graph (restore g q)).
Proof.
  intros Hq Hg k d Hk.
  apply restore_new in Hk as [Hk | (_ & _ & j & Hj & _ & ->)]; [by eapply Hg |].
  destruct (Hq j Hj) as [[n ->] | Hedge].
  - right. apply labelled_nodeData.
  - destruct j as [? | e]; [done |]. left. done.
Qed.

Lemma labelled_mergeGraph (g : Core) p :
  labelled measure g -> labelled measure (graph (mergeGraph measure p g)).
Proof.
  intros H. destruct p as [[ns es] |]; [| done].
  rewrite mergeGraph_stages. unfold add. apply labelled_restore.
  - intros j Hj. rewrite elem_of_nodesFirst in Hj.
    apply created_elem in Hj as (Hj & _).
    apply batch_elem in Hj as (_ & [(n & _ & ->) | (e & _ & ->)]);
      [left; by exists n | by right].
  - by apply labelled_mergeNodes.
Qed.

Lemma labelled_merges (ps : list (option GraphData)) (g : Core) :
  labelled measure g -> labelled measure (merges measure ps g).
Proof.
  unfold merges. revert g. induction ps as [| p ps IH]; intros g H; [done |].
  simpl. by apply IH, labelled_mergeGraph.
Qed.

End WithCanvas.
End GraphShapeFacts.

(* ===================================================================== *)
(** * Further properties of the text measurer                             *)
(* ===================================================================== *)

Module NodeVisualsFacts.
Import TextMeasurer TextMeasurerFacts.

Section WithCanvas.
Variable measure : jsstr -> jsstr -> Q.

Lemma computeNodeVisuals_eq rawName :
  computeNodeVisuals measure rawName
  = {| nv_displayName :=
         truncateTextToFit measure
           (Js.trim (Js.orElse rawName (Js.lit "Untitled"))) 94 Samples.FONT;
       nv_fontSize := 16 |}.
Proof. reflexivity. Qed.

Lemma truncateTextToFit_within text maxWidth font :
  (measure Js.ELLIPSIS font <= maxWidth)%Q ->
  (measure (truncateTextToFit measure text maxWidth font) font <= maxWidth)%Q.
Proof.
  intros Hdots. unfold truncateTextToFit.
  destruct (Qle_bool (measure text font) maxWidth) eqn:E.
  - by apply Qle_bool_iff.
  - destruct (truncateLoop_longest measure maxWidth font text)
      as (_ & [Hnil | Hfit] & _).
    + by rewrite Hnil.
    + exact Hfit.
Qed.

End WithCanvas.
End NodeVisualsFacts.

(* ===================================================================== *)
(** * Further properties of the overlay (backend wait only)               *)
(* ===================================================================== *)

Module OverlayTimerFacts.
Import Browser BrowserFacts Overlay OverlayFacts.

Local Abbreviation transientOf p :=
  (transient_active (overlayState p), transient_message (overlayState p),
   transient_timeoutId (overlayState p)).

Lemma showLoading_transient m p : transientOf (showLoading m p) = transientOf p.
Proof. field_of showLoading. Qed.

Lemma hideLoading_transient p : transientOf (hideLoading p) = transientOf p.
Proof. field_of hideLoading. Qed.

Lemma updateBackendWaitMessage_transient now p :
  transientOf (updateBackendWaitMessage now p) = transientOf p.
Proof. field_of updateBackendWaitMessage. Qed.

Lemma startBackendWait_transient now m p :
  transientOf (startBackendWait now m p) = transientOf p.
Proof.
  unfold startBackendWait. cbv zeta.
  rewrite updateBackendWaitMessage_transient.
  by destruct (active (backendWaitState p)).
Qed.

Lemma beginBackendRecovery_transient now m p :
  transientOf (beginBackendRecovery now m p) = transientOf p.
Proof.
  destruct (beginBackendRecovery_wait now m p) as (_ & _ & _ & ->).
  apply startBackendWait_transient.
Qed.

Lemma stopBackendWait_transient p :
  transientOf (stopBackendWait p) = transientOf p.
Proof. field_of stopBackendWait. Qed.

Lemma markBackendOnline_transient p :
  transientOf (markBackendOnline p) = transientOf p.
Proof.
  rewrite markBackendOnline_eq. cbv zeta. unfold_updates. simpl.
  apply stopBackendWait_transient.
Qed.

Lemma pollContinuation_transient r p :
  transientOf (pollContinuation r p) = transientOf p.
Proof. by destruct r. Qed.

Lemma pingBackend_transient health p :
  transientOf (pingBackend health p).2 = transientOf p.
Proof.
  unfold pingBackend. repeat case_match; simpl; try done;
    apply markBackendOnline_transient.
Qed.

Lemma request_transient now outcome p :
  transientOf (request now outcome p).2 = transientOf p.
Proof.
  unfold request. repeat case_match; simpl; try done;
    first [apply markBackendOnline_transient
          | apply beginBackendRecovery_transient].
Qed.

Lemma showTransientStatus_fields m dur p :
  transient_active (overlayState (showTransientStatus m dur p)) = true
  /\ transient_message (overlayState (showTransientStatus m dur p)) = m
  /\ transient_timeoutId (overlayState (showTransientStatus m dur p))
     = Some (nextHandle (timers p))
  /\ timers (showTransientStatus m dur p)
     = (setTimer TransientExpiry
          (clearTimer (transient_timeoutId (overlayState p)) (timers p))).2
  /\ taskDepth (overlayState (showTransientStatus m dur p))
     = taskDepth (overlayState p)
  /\ backend_active (overlayState (showTransientStatus m dur p))
     = backend_active (overlayState p).
Proof.
  unfold showTransientStatus. unfold_updates. simpl. refresh_simpl. simpl.
  repeat split; by destruct (transient_timeoutId (overlayState p)).
Qed.

Lemma transientExpired_fields p :
  transient_active (overlayState (transientExpired p)) = false
  /\ transient_timeoutId (overlayState (transientExpired p)) = None.
Proof. unfold transientExpired. unfold_updates. by refresh_simpl. Qed.

Lemma fire_transient_expiry h now p :
  Browser.active (timers p) !! h = Some TransientExpiry ->
  transient_active (overlayState (fire h now p)) = false
  /\ transient_timeoutId (overlayState (fire h now p)) = None.
Proof. intros H. unfold fire. rewrite H. apply transientExpired_fields. Qed.

Lemma fire_transient_other h now p :
  Browser.active (timers p) !! h <> Some TransientExpiry ->
  transientOf (fire h now p) = transientOf p.
Proof.
  intros H. unfold fire. repeat case_match; try done.
  apply updateBackendWaitMessage_transient.
Qed.

(** A transient message is pending exactly while its timeout is held. *)
Local Abbreviation paired p :=
  (transient_active (overlayState p) = true
   <-> is_Some (transient_timeoutId (overlayState p))).

Lemma paired_ext p q : transientOf q = transientOf p -> paired p -> paired q.
Proof. intros E H. injection E as -> _ ->. exact H. Qed.

Lemma step_paired p e : paired p -> paired (step p e).
Proof.
  intros H. destruct e; simpl.
  - eapply paired_ext; [apply showLoading_transient | done].
  - eapply paired_ext; [apply hideLoading_transient | done].
  - destruct (showTransientStatus_fields message duration p)
      as (-> & _ & -> & _). done.
  - destruct (decide (Browser.active (timers p) !! h = Some TransientExpiry))
      as [E | E].
    + destruct (fire_transient_expiry h now p E) as [-> ->].
      split; [done | by intros []].
    + eapply paired_ext; [by apply fire_transient_other | done].
  - eapply paired_ext; [apply pingBackend_transient | done].
  - eapply paired_ext; [apply pollContinuation_transient | done].
  - destruct isOnline; simpl; [done |].
    eapply paired_ext; [apply beginBackendRecovery_transient | done].
  - eapply paired_ext; [apply request_transient | done].
Qed.

Lemma run_paired es p : paired p -> paired (run p es).
Proof.
  revert p. induction es as [| e es IH]; intros p H; [done |].
  simpl. by apply IH, step_paired.
Qed.

(** While the wait is on, its timer and its start time are set. *)
Local Abbreviation clocked p :=
  (active (backendWaitState p) = true ->
   is_Some (timerId (backendWaitState p))
   /\ is_Some (startTime (backendWaitState p))).

Lemma clocked_startBackendWait now m p :
  clocked p -> clocked (startBackendWait now m p).
Proof.
  intros H. destruct (startBackendWait_wait now m p) as [-> _].
  destruct (active (backendWaitState p)); simpl; [by intros _; apply H |].
  intros _. split; by eexists.
Qed.

Lemma clocked_beginBackendRecovery now m p :
  clocked p -> clocked (beginBackendRecovery now m p).
Proof.
  intros H. destruct (beginBackendRecovery_wait now m p) as (-> & _).
  by apply clocked_startBackendWait.
Qed.

Lemma clocked_markBackendOnline p : clocked (markBackendOnline p).
Proof. destruct (markBackendOnline_fields p) as [-> _]. done. Qed.

Lemma step_clocked p e : clocked p -> clocked (step p e).
Proof.
  intros H. destruct e; simpl.
  - by destruct (showLoading_wait message p) as [-> _].
  - by destruct (hideLoading_wait p) as [-> _].
  - by destruct (showTransientStatus_wait message duration p) as [-> _].
  - by destruct (fire_wait h now p) as [-> _].
  - unfold pingBackend. repeat case_match; simpl; try done.
    apply clocked_markBackendOnline.
  - by destruct (pollContinuation_wait recovered p) as [-> _].
  - destruct isOnline; simpl; [done |]. by apply clocked_beginBackendRecovery.
  - unfold request. repeat case_match; simpl; try done;
      first [apply clocked_markBackendOnline
            | by apply clocked_beginBackendRecovery].
Qed.

Lemma run_clocked es p : clocked p -> clocked (run p es).
Proof.
  revert p. induction es as [| e es IH]; intros p H; [done |].
  simpl. by apply IH, step_clocked.
Qed.

Lemma updateBackendWaitMessage_message now p :
  active (backendWaitState p) = true ->
  backend_message (overlayState (updateBackendWaitMessage now p))
  = waitMessage (baseMessage (backendWaitState p))
      (roundSeconds (now - default 0 (startTime (backendWaitState p)))).
Proof.
  intros H. unfold updateBackendWaitMessage. rewrite H. simpl.
  by refresh_simpl.
Qed.



Lemma showLoading_backend m p :
  backend_active (overlayState (showLoading m p)) = backend_active (overlayState p)
  /\ active (backendWaitState (showLoading m p)) = active (backendWaitState p).
Proof. split; field_of showLoading. Qed.

Lemma request_thrown_nonempty now outcome p m :
  (request now outcome p).1 = Thrown m -> m <> [].
Proof.
  unfold request. destruct outcome as [| status body]; simpl.
  - intros [= <-]. vm_compute. discriminate.
  - destruct (ok status); simpl.
    + unfold readBody. repeat case_match; try discriminate.
      by intros [= <-].
    + intros [= <-]. destruct (bodyText body); [| done]. simpl.
      vm_compute. discriminate.
Qed.

Local Abbreviation taskOf p := (taskMessage (overlayState p)).

Lemma hideLoading_taskMessage p : taskOf (hideLoading p) = taskOf p.
Proof. by rewrite hideLoading_overlayState. Qed.

Lemma showLoading_taskMessage m p : taskOf (showLoading m p) = m.
Proof. field_of showLoading. Qed.

Lemma showTransientStatus_taskMessage m dur p :
  taskOf (showTransientStatus m dur p) = taskOf p.
Proof. field_of showTransientStatus. Qed.

Lemma transientExpired_taskMessage p : taskOf (transientExpired p) = taskOf p.
Proof. field_of transientExpired. Qed.

Lemma updateBackendWaitMessage_taskMessage now p :
  taskOf (updateBackendWaitMessage now p) = taskOf p.
Proof. field_of updateBackendWaitMessage. Qed.

Lemma beginBackendRecovery_taskMessage now m p :
  taskOf (beginBackendRecovery now m p) = taskOf p.
Proof.
  destruct (beginBackendRecovery_wait now m p) as (_ & _ & _ & ->).
  unfold startBackendWait. cbv zeta.
  rewrite updateBackendWaitMessage_taskMessage.
  by destruct (active (backendWaitState p)).
Qed.

Lemma markBackendOnline_taskMessage p :
  taskOf (markBackendOnline p) = taskOf p.
Proof.
  rewrite markBackendOnline_eq. cbv zeta. unfold_updates. simpl.
  field_of stopBackendWait.
Qed.

Lemma step_taskMessage p e :
  taskOf (step p e)
  = match e with
    | ShowLoading message => message
    | _ => taskOf p
    end.
Proof.
  destruct e; simpl.
  - apply showLoading_taskMessage.
  - apply hideLoading_taskMessage.
  - apply showTransientStatus_taskMessage.
  - unfold fire. repeat case_match; try done.
    + apply updateBackendWaitMessage_taskMessage.
    + by rewrite transientExpired_taskMessage.
  - unfold pingBackend. repeat case_match; simpl; try done.
    apply markBackendOnline_taskMessage.
  - by destruct recovered.
  - destruct isOnline; simpl; [done |].
    apply beginBackendRecovery_taskMessage.
  - unfold request. repeat case_match; simpl; try done;
      first [apply markBackendOnline_taskMessage
            | apply beginBackendRecovery_taskMessage].
Qed.

Lemma run_snoc p es e : run p (es ++ [e]) = step (run p es) e.
Proof. unfold run. by rewrite foldl_app. Qed.

Lemma lastStarted_snoc es e :
  OverlayHistory.lastStarted (es ++ [e])
  = match e with
    | ShowLoading message => Some message
    | _ => OverlayHistory.lastStarted es
    end.
Proof. unfold OverlayHistory.lastStarted. rewrite foldl_app. by destruct e. Qed.

Lemma run_taskMessage es :
  taskOf (run initialPage es)
  = default (Js.lit "Working…") (OverlayHistory.lastStarted es).
Proof.
  induction es as [| e es IH] using rev_ind; [done |].
  rewrite run_snoc, step_taskMessage, lastStarted_snoc, IH. by destruct e.
Qed.

End OverlayTimerFacts.

(* ===================================================================== *)
(** * The overlay over whole tasks                                        *)
(* ===================================================================== *)

Module OverlayTurnsFacts.
Import Browser BrowserFacts Overlay OverlayFacts OverlayTurns.

Lemma pingBackend_healthy health p : (pingBackend health p).1 = healthy health.
Proof. unfold pingBackend. by repeat case_match. Qed.

Lemma turn_events p t : turn p t = run p (events t).
Proof.
  destruct t; simpl; try reflexivity.
  - unfold healthCheckTick. rewrite <- (pingBackend_healthy health p).
    by destruct (pingBackend health p).
  - unfold evaluateHealthStatus. rewrite <- (pingBackend_healthy health p).
    destruct (pingBackend health p) as [isOnline q]. simpl.
    by destruct isOnline.
Qed.

Lemma runTurns_events ts p : runTurns p ts = run p (ts ≫= events).
Proof.
  revert p. induction ts as [| t ts IH]; intros p; [done |].
  simpl. unfold run. rewrite foldl_app. fold (run p (events t)).
  rewrite <- turn_events. apply IH.
Qed.

Lemma guarded_ext p q :
  backendWaitState q = backendWaitState p ->
  backendHealthCheckIntervalId q = backendHealthCheckIntervalId p ->
  guarded p -> guarded q.
Proof. unfold guarded. by intros -> ->. Qed.

Lemma guarded_markBackendOnline p : guarded (markBackendOnline p).
Proof.
  unfold guarded. destruct (markBackendOnline_fields p) as [-> ->].
  split; [done | by intros []].
Qed.

Lemma guarded_beginBackendRecovery now m p :
  guarded (beginBackendRecovery now m p).
Proof.
  unfold guarded.
  destruct (beginBackendRecovery_wait now m p) as (-> & _ & Hi & _).
  destruct (startBackendWait_wait now m p) as [-> _].
  split; [by intros _ |]. intros _. by destruct (active (backendWaitState p)).
Qed.

Lemma guarded_request now outcome p :
  guarded p -> guarded (request now outcome p).2.
Proof.
  intros H. unfold request. repeat case_match; simpl; try done;
    first [apply guarded_markBackendOnline
          | apply guarded_beginBackendRecovery].
Qed.

Lemma guarded_turn p t : guarded p -> guarded (turn p t).
Proof.
  intros H. destruct t; simpl.
  - destruct (showLoading_wait message p) as [E1 E2].
    by apply (guarded_ext p).
  - destruct (showTransientStatus_wait
                (Js.orElse (Some errorMessage)
                   (Js.lit "Something went wrong. Check the console for details."))
                3000 p) as [E1 E2].
    by apply (guarded_ext p).
  - destruct (hideLoading_wait p) as [E1 E2]. by apply (guarded_ext p).
  - destruct (fire_wait h now p) as [E1 E2]. by apply (guarded_ext p).
  - unfold healthCheckTick, pingBackend.
    destruct health as [| status body]; simpl; [done |].
    destruct (ok status); simpl; [| done].
    destruct (markBackendOnline_fields p) as [Ha Hi].
    unfold guarded. simpl. rewrite Ha. split; [done | by intros []].
  - unfold evaluateHealthStatus, pingBackend.
    destruct health as [| status body]; simpl.
    + apply guarded_beginBackendRecovery.
    + destruct (ok status); simpl.
      * apply guarded_markBackendOnline.
      * apply guarded_beginBackendRecovery.
  - by apply guarded_request.
Qed.

Lemma guarded_initial : guarded initialPage.
Proof. unfold guarded. simpl. split; [done | by intros []]. Qed.

Lemma guarded_runTurns ts p : guarded p -> guarded (runTurns p ts).
Proof.
  revert p. induction ts as [| t ts IH]; intros p H; [done |].
  simpl. by apply IH, guarded_turn.
Qed.

End OverlayTurnsFacts.

(* ===================================================================== *)
(** * Further properties of the overlay (with datastore readiness)        *)
(* ===================================================================== *)

Module ReadinessWaitFacts.
Import Browser BrowserFacts ReadinessOverlay ReadinessOverlayFacts.

Local Abbreviation waitsOf p :=
  (backendWaitState p, databaseWaitState p, backendHealthCheckIntervalId p).

Lemma db_showLoading_waits m p : waitsOf (showLoading m p) = waitsOf p.
Proof. field_of showLoading. Qed.

Lemma db_hideLoading_waits p : waitsOf (hideLoading p) = waitsOf p.
Proof. field_of hideLoading. Qed.

Lemma db_showTransientStatus_waits m dur p :
  waitsOf (showTransientStatus m dur p) = waitsOf p.
Proof. field_of showTransientStatus. Qed.

Lemma db_transientExpired_waits p : waitsOf (transientExpired p) = waitsOf p.
Proof. field_of transientExpired. Qed.

Lemma db_updateBackendWaitMessage_waits now p :
  waitsOf (updateBackendWaitMessage now p) = waitsOf p.
Proof. field_of updateBackendWaitMessage. Qed.

Lemma updateDatabaseWaitMessage_waits now p :
  waitsOf (updateDatabaseWaitMessage now p) = waitsOf p.
Proof. field_of updateDatabaseWaitMessage. Qed.

Lemma db_fire_waits h now p : waitsOf (fire h now p) = waitsOf p.
Proof.
  unfold fire. repeat case_match; try done.
  - apply db_updateBackendWaitMessage_waits.
  - apply updateDatabaseWaitMessage_waits.
  - by rewrite db_transientExpired_waits.
Qed.

Lemma startBackendWait_database now m p :
  databaseWaitState (startBackendWait now m p) = databaseWaitState p
  /\ backendHealthCheckIntervalId (startBackendWait now m p)
     = backendHealthCheckIntervalId p.
Proof.
  unfold startBackendWait. cbv zeta.
  match goal with
  | |- context [updateBackendWaitMessage now ?q] => set (q0 := q)
  end.
  pose proof (db_updateBackendWaitMessage_waits now q0) as E.
  injection E as _ -> ->. unfold q0. unfold_updates.
  by destruct (active (backendWaitState p)).
Qed.

(** While the backend wait is on, the datastore wait is off and a recovery
    poller is registered. *)
Local Abbreviation calm p :=
  (active (backendWaitState p) = true ->
   active (databaseWaitState p) = false
   /\ is_Some (backendHealthCheckIntervalId p)).

Lemma calm_ext p q : waitsOf q = waitsOf p -> calm p -> calm q.
Proof. intros E H. injection E as -> -> ->. exact H. Qed.

Lemma calm_off p : active (backendWaitState p) = false -> calm p.
Proof. by intros ->. Qed.

Lemma calm_beginBackendRecovery now m p : calm (beginBackendRecovery now m p).
Proof.
  intros _. unfold beginBackendRecovery. cbv zeta.
  destruct (startBackendWait_database now m (stopDatabaseWait p)) as [Hd Hi].
  pose proof (stopDatabaseWait_off p) as Hoff.
  destruct (backendHealthCheckIntervalId
              (startBackendWait now m (stopDatabaseWait p))) eqn:E.
  - rewrite Hd, E. by split.
  - unfold_updates. simpl. rewrite Hd. by split.
Qed.

Lemma calm_afterOnline now status p :
  calm (if neo4jReady status
        then stopBackendRecoveryPolling (stopDatabaseWait (stopBackendWait p))
        else startDatabaseWait now (Js.lit "Waiting for database…")
               (stopBackendWait p)).
Proof.
  apply calm_off. destruct (neo4jReady status).
  - destruct (stopBackendRecoveryPolling_fields
                (stopDatabaseWait (stopBackendWait p))) as (_ & -> & _).
    destruct (stopDatabaseWait_wait (stopBackendWait p)) as [-> _].
    apply stopBackendWait_off.
  - rewrite startDatabaseWait_wait. apply stopBackendWait_off.
Qed.

Lemma calm_pollContinuation now status p :
  calm p -> calm (pollContinuation now status p).
Proof.
  intros H. unfold pollContinuation, markBackendOnline.
  destruct (online status); simpl; [| done].
  destruct (neo4jReady status) eqn:E.
  - pose proof (calm_afterOnline now status p) as H'. by rewrite E in H'.
  - pose proof (calm_afterOnline now status p) as H'. by rewrite E in H'.
Qed.

Lemma calm_evaluateHealthStatus now m status p :
  calm (evaluateHealthStatus now m status p).2.
Proof.
  unfold evaluateHealthStatus, markBackendOnline.
  destruct (online status); simpl; [| apply calm_beginBackendRecovery].
  destruct (neo4jReady status) eqn:E; simpl.
  - pose proof (calm_afterOnline now status p) as H'. by rewrite E in H'.
  - pose proof (calm_afterOnline now status p) as H'. by rewrite E in H'.
Qed.

Lemma calm_request now outcome p : calm p -> calm (request now outcome p).2.
Proof.
  intros H. unfold request, markBackendOnline.
  destruct outcome as [| status body]; simpl;
    [apply calm_beginBackendRecovery |].
  destruct (ok status); simpl.
  - apply calm_off, stopBackendWait_off.
  - destruct (500 <=? status); [apply calm_beginBackendRecovery | done].
Qed.

Lemma calm_step p e : calm p -> calm (step p e).
Proof.
  intros H. destruct e; simpl.
  - apply (calm_ext p); [apply db_showLoading_waits | done].
  - apply (calm_ext p); [apply db_hideLoading_waits | done].
  - apply (calm_ext p); [apply db_showTransientStatus_waits | done].
  - apply (calm_ext p); [apply db_fire_waits | done].
  - by apply calm_pollContinuation.
  - apply calm_evaluateHealthStatus.
  - by apply calm_request.
Qed.

Lemma calm_run es p : calm p -> calm (run p es).
Proof.
  revert p. induction es as [| e es IH]; intros p H; [done |].
  simpl. by apply IH, calm_step.
Qed.

End ReadinessWaitFacts.

(* ===================================================================== *)
(** * Properties of the start-up loop                                     *)
(* ===================================================================== *)

Module StartupFacts.
Import Browser BrowserFacts ReadinessOverlay ReadinessOverlayFacts Startup.

Lemma evaluateHealthStatus_ready now m status p :
  (evaluateHealthStatus now m status p).1
  = online status && neo4jReady status.
Proof.
  unfold evaluateHealthStatus.
  destruct (online status); simpl; [| done]. by destruct (neo4jReady status).
Qed.

Lemma waitForFullReadiness_app before rest p :
  Forall (fun r => fullyReady r = false) before ->
  waitForFullReadiness (before ++ rest) p
  = waitForFullReadiness rest (played before p).
Proof.
  intros H. revert p. induction H as [| r before Hr _ IH]; intros p; [done |].
  simpl.
  pose proof (evaluateHealthStatus_ready (settledAt r)
                (Js.lit "Connecting to backend…")
                (checkBackendStatus (reply r)) (run p (meanwhile r))) as E.
  unfold fullyReady in Hr. rewrite Hr in E.
  destruct (evaluateHealthStatus _ _ _ _) as [ready q]. simpl in E. subst ready.
  apply IH.
Qed.

Lemma consistent_played rounds p : consistent p -> consistent (played rounds p).
Proof.
  revert p. induction rounds as [| r rounds IH]; intros p H; [done |].
  simpl. apply IH, consistent_evaluateHealthStatus. by apply db_consistent_run.
Qed.

Lemma waitForFullReadiness_ready r after p :
  fullyReady r = true ->
  waitForFullReadiness (r :: after) p
  = Some (stopBackendRecoveryPolling
            (stopDatabaseWait (stopBackendWait (run p (meanwhile r))))).
Proof.
  intros Hr. simpl. unfold fullyReady in Hr.
  apply andb_prop in Hr as [Hon Hready].
  unfold evaluateHealthStatus, markBackendOnline. by rewrite Hon, Hready.
Qed.

End StartupFacts.

(* ===================================================================== *)
(** * Further properties of the request gateway                           *)
(* ===================================================================== *)

Module GatewayConfigFacts.
Import Gateway GatewayFacts.

Lemma attachBody_body options config :
  c_body (attachBody options config)
  = if truthy (body options) then body options else c_body config.
Proof. unfold attachBody. by destruct (truthy (body options)). Qed.

Lemma attachBody_contentType options config :
  c_headers (attachBody options config) !! Js.lit "Content-Type"
  = if truthy (body options)
       && negb (truthy (c_headers config !! Js.lit "Content-Type"))
    then Some (Js.lit "application/json")
    else c_headers config !! Js.lit "Content-Type".
Proof.
  unfold attachBody. generalize (Js.lit "Content-Type"). intros ct.
  destruct (truthy (body options)); cbn [andb]; [| reflexivity].
  cbn [c_headers].
  destruct (truthy (c_headers config !! ct)); cbn [negb]; [reflexivity |].
  apply lookup_insert_eq.
Qed.

Lemma setHeader_other k v k' config :
  k <> k' -> c_headers (setHeader k v config) !! k' = c_headers config !! k'.
Proof. intros H. unfold setHeader. cbn [c_headers]. by apply lookup_insert_ne. Qed.

Lemma setHeader_fields k v config :
  c_method (setHeader k v config) = c_method config
  /\ c_body (setHeader k v config) = c_body config.
Proof. done. Qed.

(** The configuration of the revision that sends both headers, before the
    body is attached. *)
Lemma idempotent_config toUpperCase USER_ID options rnd :
  exists config,
    (Idempotent.requestConfig toUpperCase USER_ID options rnd).1
    = attachBody options config
    /\ c_method config = Js.orElse (method options) (Js.lit "GET")
    /\ c_body config = None
    /\ forall k, k <> Js.lit "X-User-ID" -> k <> Js.lit "Idempotency-Key" ->
         c_headers config !! k = default ∅ (headers options) !! k.
Proof.
  unfold Idempotent.requestConfig. cbv zeta.
  generalize (Js.lit "X-User-ID") (Js.lit "Idempotency-Key"). intros xu ik.
  destruct (bool_decide _).
  - destruct (generateUUID rnd) as [key rnd']. cbn [fst].
    eexists. split; [reflexivity |]. split; [reflexivity |].
    split; [reflexivity |]. intros k Hx Hi.
    rewrite !setHeader_other by congruence. reflexivity.
  - cbn [fst]. eexists. split; [reflexivity |]. split; [reflexivity |].
    split; [reflexivity |]. intros k Hx Hi.
    rewrite !setHeader_other by congruence. reflexivity.
Qed.

End GatewayConfigFacts.

(* ===================================================================== *)
(** * Properties of selection, details panel and tabs                     *)
(* ===================================================================== *)

Module SelectionFacts.
Import Cytoscape Selection.

Lemma coerceNode_elementById (g : Core) id :
  coerceNode (Some (elementById g id))
  = if isNodeId g id then Some (elementById g id) else None.
Proof.
  unfold elementById, getElementById, isNodeId.
  destruct (g !! id) as [d |]; simpl; [| done]. by destruct (isEdge d).
Qed.

Lemma selectNode_node v id d :
  isEdge d = false ->
  selectNode (Some [(id, d)]) v
  = mkView (cy v)
      (filter (fun k => isNodeId (cy v) k = false) (selectedEles v) ∪ {[id]})
      (Some id) (panelFor d) (tabs v).
Proof.
  intros Hd. unfold selectNode, coerceNode, isNode. rewrite Hd. simpl.
  unfold updateDetailsPanel, setActionButtonsEnabled, select, unselectNodes,
    withPanel, withSelectedNodeId, withSelectedEles, panelFor. simpl.
  f_equal. by rewrite (right_id_L ∅ (∪)).
Qed.

Lemma elementById_node (g : Core) id :
  isNodeId g id = true ->
  exists d, g !! id = Some d /\ isEdge d = false /\ elementById g id = [(id, d)].
Proof.
  unfold isNodeId, elementById, getElementById.
  destruct (g !! id) as [d |]; [| done]. intros H%negb_true_iff. by exists d.
Qed.

Lemma selectNodeById_node v id d :
  id <> [] -> cy v !! id = Some d -> isEdge d = false ->
  selectNodeById (Some id) v = selectNode (Some [(id, d)]) v.
Proof.
  intros Hne Hd He. destruct id as [| c r]; [done |].
  unfold selectNodeById. rewrite coerceNode_elementById.
  unfold isNodeId, elementById, getElementById. rewrite Hd, He. done.
Qed.

Lemma selectNodeById_other v id :
  isNodeId (cy v) id = false -> selectNodeById (Some id) v = v.
Proof.
  intros H. destruct id as [| c r]; [done |].
  unfold selectNodeById. by rewrite coerceNode_elementById, H.
Qed.

Lemma clearSelection_fields v :
  cy (clearSelection v) = cy v
  /\ selectedNodeId (clearSelection v) = None
  /\ panel (clearSelection v) = emptyPanel
  /\ selectedEles (clearSelection v)
     = filter (fun k => isNodeId (cy v) k = false) (selectedEles v)
  /\ detailsPaneActive (tabs (clearSelection v)) = true
  /\ promptPaneActive (tabs (clearSelection v)) = false.
Proof. repeat split; try done. Qed.

Lemma switchTab_fields t v :
  cy (switchTab t v) = cy v
  /\ selectedNodeId (switchTab t v) = selectedNodeId v
  /\ panel (switchTab t v) = panel v
  /\ selectedEles (switchTab t v) = selectedEles v.
Proof. done. Qed.

(** The selected id names a node of the graph. *)
Local Abbreviation sound v :=
  (forall id, selectedNodeId v = Some id -> isNodeId (cy v) id = true).

Lemma isNodeId_true (g : Core) id d :
  g !! id = Some d -> isEdge d = false -> isNodeId g id = true.
Proof. intros H E. unfold isNodeId. by rewrite H, E. Qed.

Lemma act_keeps v g :
  cy (act v g) = cy v
  /\ (agrees v -> agrees (act v g))
  /\ (sound v -> sound (act v g)).
Proof.
  destruct g as [id | | i | nodeId | selected]; simpl.
  - destruct (isNodeId (cy v) id) eqn:E; [| done].
    destruct (elementById_node _ _ E) as (d & Hd & He & ->).
    rewrite selectNode_node by done. simpl. split; [done |]. split.
    + intros _. by unfold agrees.
    + intros _ id' [= <-]. done.
  - split; [done |]. split.
    + intros _. by unfold agrees.
    + intros _ id'. done.
  - destruct (tabButtons (tabs v) !! i) as [b |]; done.
  - destruct nodeId as [[| c r] |]; try done.
    destruct (isNodeId (cy v) (c :: r)) eqn:E.
    + destruct (elementById_node _ _ E) as (d & Hd & He & _).
      rewrite (selectNodeById_node v (c :: r) d) by done.
      rewrite selectNode_node by done. simpl. split; [done |]. split.
      * intros _. by unfold agrees.
      * intros _ id' [= <-]. done.
    + by rewrite selectNodeById_other.
  - done.
Qed.

Lemma acts_keep gs v :
  cy (acts v gs) = cy v
  /\ (agrees v -> agrees (acts v gs))
  /\ (sound v -> sound (acts v gs)).
Proof.
  revert v. induction gs as [| g gs IH]; intros v; [done |].
  simpl. destruct (IH (act v g)) as (Hc & Ha & Hs).
  destruct (act_keeps v g) as (Hc' & Ha' & Hs').
  split; [congruence |]. split; [by auto |].
  intros H. apply Hs. by apply Hs'.
Qed.

End SelectionFacts.

(* ===================================================================== *)
(** * Properties of the prompt editor                                     *)
(* ===================================================================== *)

Module PromptEditorFacts.
Import PromptEditor.

(** Both buttons are disabled exactly when the text area holds the
    snapshot. *)
Local Abbreviation settled e :=
  (saveDisabled e = bool_decide (value e = promptSnapshot e)
   /\ resetDisabled e = bool_decide (value e = promptSnapshot e)).

Lemma updatePromptActions_settled e : settled (updatePromptActions e).
Proof. unfold updatePromptActions. simpl. by rewrite negb_involutive. Qed.

Lemma edit_settled e a : settled (edit e a).
Proof. destruct a; apply updatePromptActions_settled. Qed.

Lemma edit_snapshot e a :
  promptSnapshot (edit e a)
  = match a with
    | Applied promptText => Js.orElse promptText []
    | _ => promptSnapshot e
    end.
Proof. by destruct a. Qed.

Lemma edits_snoc e acts a : edits e (acts ++ [a]) = edit (edits e acts) a.
Proof. unfold edits. by rewrite foldl_app. Qed.

Lemma lastApplied_snoc acts a :
  lastApplied (acts ++ [a])
  = match a with
    | Applied promptText => Some (Js.orElse promptText [])
    | _ => lastApplied acts
    end.
Proof. unfold lastApplied. rewrite foldl_app. by destruct a. Qed.

Lemma edits_snapshot acts e :
  promptSnapshot (edits e acts)
  = default (promptSnapshot e) (lastApplied acts).
Proof.
  induction acts as [| a acts IH] using rev_ind; [done |].
  rewrite edits_snoc, lastApplied_snoc, edit_snapshot. by destruct a.
Qed.

Lemma normalizeNewlines_plain s : plain s -> normalizeNewlines s = s.
Proof.
  unfold plain. induction s as [| c rest IH]; [done |].
  intros H. apply not_elem_of_cons in H as [Hc Hrest]. simpl.
  assert ((c =? 13)%N = false) as -> by (apply N.eqb_neq; congruence).
  by rewrite IH.
Qed.

Lemma normalizeNewlines_no_cr n s :
  (length s <= n)%nat -> plain (normalizeNewlines s).
Proof.
  unfold plain. revert s. induction n as [| n IH]; intros s Hlen.
  - destruct s; [| simpl in Hlen; lia]. simpl. apply not_elem_of_nil.
  - destruct s as [| c rest]; [apply not_elem_of_nil |]. simpl in *.
    destruct (c =? 13)%N eqn:Ec.
    + apply not_elem_of_cons. split; [done |].
      destruct rest as [| c' rest']; [apply not_elem_of_nil |].
      simpl in Hlen. destruct (c' =? 10)%N; apply IH; simpl; lia.
    + apply not_elem_of_cons. split.
      * apply N.eqb_neq in Ec. congruence.
      * apply IH. lia.
Qed.

Lemma normalizeNewlines_fixed s : normalizeNewlines s = s <-> plain s.
Proof.
  split; [| apply normalizeNewlines_plain].
  intros E. rewrite <- E. by apply (normalizeNewlines_no_cr (length s)).
Qed.

End PromptEditorFacts.

(* ===================================================================== *)
(** * Properties of the service banner                                    *)
(* ===================================================================== *)

Module ServiceStatusFacts.
Import Browser ServiceStatus.






End ServiceStatusFacts.

(* ===================================================================== *)
(** * Properties of the handlers that change graph and view               *)
(* ===================================================================== *)

Module WorkspaceFacts.
Import Cytoscape Workspace.

(** [request] returns exactly on the outcomes that succeed. *)
Lemma request_returns now outcome p :
  match (Overlay.request now outcome p).1 with
  | Overlay.Returned _ => succeeds outcome = true
  | Overlay.Thrown _ => succeeds outcome = false
  end.
Proof.
  unfold Overlay.request, succeeds. destruct outcome as [| status b]; [done |].
  destruct (Browser.ok status); simpl; [| done].
  by destruct (Overlay.readBody status b).
Qed.

Lemma deleteEach_spec nodeIds settled p :
  match deleteEach nodeIds settled p with
  | None =>
      answered settled = length settled
      /\ (length settled < length nodeIds)%nat
  | Some (Overlay.Thrown m, _) =>
      (answered settled < length nodeIds)%nat
      /\ (answered settled < length settled)%nat
      /\ m <> []
  | Some (Overlay.Returned _, _) => (length nodeIds <= answered settled)%nat
  end.
Proof.
  revert settled p. induction nodeIds as [| nodeId nodeIds IH];
    intros settled p; simpl; [lia |].
  destruct settled as [| [now outcome] settled]; simpl; [lia |].
  pose proof (request_returns now outcome p) as Hret.
  destruct (Overlay.request now outcome p) as [[body | m] q] eqn:E;
    simpl in Hret; rewrite Hret.
  - specialize (IH settled q).
    destruct (deleteEach nodeIds settled q) as [[[[] | m] q'] |];
      simpl in *; [lia | split; [lia | split; [lia | tauto]] | lia].
  - assert (m <> []).
    { apply (OverlayTimerFacts.request_thrown_nonempty now outcome p).
      by rewrite E. }
    repeat split; try done; lia.
Qed.

Lemma length_nodeIds (g : Core) :
  length (map_to_list (nodesOf g)).*1 = size (nodesOf g).
Proof. by rewrite length_fmap, length_map_to_list. Qed.

Lemma nodesOf_lookup (g : Core) k d :
  g !! k = Some d -> isEdge d = false -> size (nodesOf g) <> 0%nat.
Proof.
  intros Hk Hd Hsize. apply map_size_empty_inv in Hsize.
  assert (nodesOf g !! k = Some d) as H
    by (by apply map_lookup_filter_Some).
  by rewrite Hsize, lookup_empty in H.
Qed.

Lemma nodesOf_empty : size (nodesOf ∅) = 0%nat.
Proof. unfold nodesOf. by rewrite map_filter_empty. Qed.

End WorkspaceFacts.

(* ===================================================================== *)
(** * Further properties of the code                                      *)
(* ===================================================================== *)

Import GraphShape GraphShapeFacts.

(** X2. The merge invents nothing: an element of the graph a call of
    [mergeGraph] leaves, whether the call threw or not, either was in the
    graph before, with the same source, target and label, or is new, has a
    non-empty id and is a node of the payload with that id, stored with
    that node's data, or an edge of the payload with that composite id,
    stored with that edge's data. *)
Theorem mergeGraph_adds_only_payload_elements
    (measure : jsstr -> jsstr -> Q) (g : Core) (p : option GraphData)
    (k : jsstr) (d' : Data) :
  graph (mergeGraph measure p g) !! k = Some d' ->
  (exists d, g !! k = Some d /\ sameEnds d d')
  \/ (g !! k = None /\ k <> []
      /\ ((exists n, n ∈ payloadNodes p /\ k = id n
                     /\ d' = nodeData (nodeObj measure n))
          \/ (exists e, e ∈ payloadEdges p /\ k = edgeId e
                        /\ d' = edgeData (edgeObj e)))).
Proof.
  intros H. destruct p as [[ns es] |].
  2:{ left. exists d'. split; [exact H | apply sameEnds_refl]. }
  rewrite mergeGraph_stages in H. unfold add in H.
  cbn [payloadNodes payloadEdges nodes edges].
  apply restore_new in H as [H | (Hnone & Hne & j & Hj & -> & ->)].
  - left. by apply (afterNodes_back measure g (default [] ns)).
  - right. apply afterNodes_None in Hnone. split; [done |]. split; [done |].
    rewrite elem_of_nodesFirst in Hj. apply created_elem in Hj as (Hj & _).
    apply batch_elem in Hj as (_ & [(n & Hn & ->) | (e & He & ->)]).
    + left. by exists n.
    + right. by exists e.
Qed.

Lemma mergeGraph_adds_only_payload_elements_witness :
  let g : Core := merges Samples.glyphMeasure [Samples.nodesAB] ∅ in
  let p := Some {| nodes := None; edges := Some [Samples.relatesAB] |} in
  let k := Js.lit "a-b-relates" in
  let d' := edgeData (edgeObj Samples.relatesAB) in
  (exists d, g !! k = Some d /\ sameEnds d d')
  \/ (g !! k = None /\ k <> []
      /\ ((exists n, n ∈ payloadNodes p /\ k = id n
                     /\ d' = nodeData (nodeObj Samples.glyphMeasure n))
          \/ (exists e, e ∈ payloadEdges p /\ k = edgeId e
                        /\ d' = edgeData (edgeObj e)))).
Proof.
  intros g p k d'.
  apply (mergeGraph_adds_only_payload_elements Samples.glyphMeasure g p k d').
  vm_compute. reflexivity.
Defined.

(** X3. Which node of a payload wins when several carry one id. For an id
    that is already in the graph the last payload node with that id sets
    the name, description, display name and font size, whether [cy.add]
    throws afterwards or not. For an id that is not in the graph the first
    payload node with that id is the one stored, when the call does not
    throw. *)
Theorem mergeGraph_existing_last_new_first
    (measure : jsstr -> jsstr -> Q) (g : Core)
    (ns1 : list PNode) (n : PNode) (ns2 : list PNode)
    (es : option (list PEdge)) :
  let p := Some {| nodes := Some (ns1 ++ n :: ns2); edges := es |} in
  (forall e, g !! id n = Some e ->
     (forall n', n' ∈ ns2 -> id n' <> id n) ->
     graph (mergeGraph measure p g) !! id n
     = Some (setData (nodeObj measure n) e))
  /\ (g !! id n = None ->
      (forall n', n' ∈ ns1 -> id n' <> id n) ->
      thrown (mergeGraph measure p g) = None ->
      graph (mergeGraph measure p g) !! id n
      = Some (nodeData (nodeObj measure n))).
Proof.
  intros p. split.
  - intros e He Hlast. by apply mergeGraph_last.
  - intros Hg Hfirst Hthrown. by apply mergeGraph_first.
Qed.

Lemma mergeGraph_existing_last_new_first_witness :
  let first := mkPNode (Js.lit "n") (Some (Js.lit "A")) None in
  let second := mkPNode (Js.lit "n") (Some (Js.lit "B")) None in
  let once : Core :=
    graph (mergeGraph Samples.glyphMeasure Samples.twoNamesOneId ∅) in
  once !! Js.lit "n" = Some (nodeData (nodeObj Samples.glyphMeasure first))
  /\ graph (mergeGraph Samples.glyphMeasure Samples.twoNamesOneId once)
       !! Js.lit "n"
     = Some (setData (nodeObj Samples.glyphMeasure second)
               (nodeData (nodeObj Samples.glyphMeasure first))).
Proof.
  intros first second once. split.
  - destruct (mergeGraph_existing_last_new_first Samples.glyphMeasure ∅
                [] first [second] None) as [_ H].
    apply H.
    + apply lookup_empty.
    + intros n' Hn'. inversion Hn'.
    + vm_compute. reflexivity.
  - destruct (mergeGraph_existing_last_new_first Samples.glyphMeasure once
                [first] second [] None) as [H _].
    apply H.
    + vm_compute. reflexivity.
    + intros n' Hn'. inversion Hn'.
Defined.

(** X4. The label of a node never overflows when that can be avoided: the
    font size is always 16, and whenever the lone ellipsis fits the 94
    pixels of the label, the display name [computeNodeVisuals] returns fits
    them too, whatever the name. *)
Theorem computeNodeVisuals_label_fits
    (measure : jsstr -> jsstr -> Q) (rawName : option jsstr) :
  let visuals := TextMeasurer.computeNodeVisuals measure rawName in
  TextMeasurer.nv_fontSize visuals = 16
  /\ ((measure Js.ELLIPSIS Samples.FONT <= 94)%Q ->
      (measure (TextMeasurer.nv_displayName visuals) Samples.FONT <= 94)%Q).
Proof.
  intros visuals. unfold visuals.
  rewrite NodeVisualsFacts.computeNodeVisuals_eq. simpl. split; [done |].
  apply NodeVisualsFacts.truncateTextToFit_within.
Qed.

Lemma computeNodeVisuals_label_fits_witness :
  (Samples.glyphMeasure
     (TextMeasurer.nv_displayName
        (TextMeasurer.computeNodeVisuals Samples.glyphMeasure
           (Some (Js.lit "A rather long concept name"))))
     Samples.FONT <= 94)%Q.
Proof.
  apply (computeNodeVisuals_label_fits Samples.glyphMeasure
           (Some (Js.lit "A rather long concept name"))).
  apply Qle_bool_iff. vm_compute. reflexivity.
Defined.

(** X5. How [computeNodeVisuals] reads a name. A missing name and the
    empty name are displayed as ["Untitled"] is. White space before and
    after a name is ignored. A name of white space only is displayed as the
    empty text is, not as ["Untitled"]. *)
Theorem computeNodeVisuals_normalises_name (measure : jsstr -> jsstr -> Q) :
  TextMeasurer.computeNodeVisuals measure None
  = TextMeasurer.computeNodeVisuals measure (Some (Js.lit "Untitled"))
  /\ TextMeasurer.computeNodeVisuals measure (Some [])
     = TextMeasurer.computeNodeVisuals measure (Some (Js.lit "Untitled"))
  /\ (forall ws1 s ws2,
        JsText.blank ws1 -> JsText.blank ws2 -> JsText.trimmed s -> s <> [] ->
        TextMeasurer.computeNodeVisuals measure (Some (ws1 ++ s ++ ws2))
        = TextMeasurer.computeNodeVisuals measure (Some s))
  /\ (forall ws,
        JsText.blank ws -> ws <> [] ->
        TextMeasurer.nv_displayName
          (TextMeasurer.computeNodeVisuals measure (Some ws))
        = TextMeasurer.truncateTextToFit measure [] 94 Samples.FONT).
Proof.
  split; [reflexivity |]. split; [reflexivity |]. split.
  - intros ws1 s ws2 H1 H2 Hs Hne.
    rewrite !NodeVisualsFacts.computeNodeVisuals_eq.
    assert (Js.orElse (Some (ws1 ++ s ++ ws2)) (Js.lit "Untitled")
            = ws1 ++ s ++ ws2) as ->.
    { destruct (ws1 ++ s ++ ws2) eqn:E; [| done].
      apply app_eq_nil in E as [_ E]. by apply app_eq_nil in E as [E _]. }
    assert (Js.orElse (Some s) (Js.lit "Untitled") = s) as ->
      by (by destruct s).
    rewrite JsTextFacts.trim_sandwich by done.
    rewrite <- (app_nil_r s) at 2. change (s ++ []) with ([] ++ s ++ []).
    rewrite JsTextFacts.trim_sandwich; try done; constructor.
  - intros ws Hws Hne.
    rewrite NodeVisualsFacts.computeNodeVisuals_eq.
    cbn [TextMeasurer.nv_displayName].
    assert (Js.orElse (Some ws) (Js.lit "Untitled") = ws) as ->
      by (by destruct ws).
    by rewrite JsTextFacts.trim_blank.
Qed.

Lemma computeNodeVisuals_normalises_name_witness :
  TextMeasurer.computeNodeVisuals Samples.glyphMeasure
    (Some ([32%N; 9%N] ++ Js.lit "Alpha" ++ [32%N]))
  = TextMeasurer.computeNodeVisuals Samples.glyphMeasure (Some (Js.lit "Alpha")).
Proof.
  destruct (computeNodeVisuals_normalises_name Samples.glyphMeasure)
    as (_ & _ & H & _).
  apply H.
  - repeat constructor.
  - repeat constructor.
  - split; intros c r E.
    + vm_compute in E. by injection E as <- _.
    + change (Js.lit "Alpha") with ([65; 108; 112; 104]%N ++ [97%N]) in E.
      by apply app_inj_tail in E as [_ <-].
  - vm_compute. discriminate.
Defined.

(** X6. The transient status has one timeout. At every page the program
    can reach, a transient message is pending exactly while the program
    holds the handle of its timeout, that timeout is the only one live, and
    when it fires the message is no longer pending and no timeout is left.
    [showTransientStatus] puts its message in place of a pending one and
    cancels the timeout of the message it replaces, so the old timeout
    cannot take the new message down. *)
Theorem transient_status_has_one_timer :
  (forall es,
     let p := Overlay.run Overlay.initialPage es in
     let o := Overlay.overlayState p in
     (Overlay.transient_active o = true
      <-> is_Some (Overlay.transient_timeoutId o))
     /\ Browser.running Browser.TransientExpiry (Overlay.timers p)
        = match Overlay.transient_timeoutId o with
          | Some h => {[h]}
          | None => ∅
          end
     /\ (forall h now,
           Overlay.transient_timeoutId o = Some h ->
           let q := Overlay.fire h now p in
           Overlay.transient_active (Overlay.overlayState q) = false
           /\ Overlay.transient_timeoutId (Overlay.overlayState q) = None
           /\ Browser.running Browser.TransientExpiry (Overlay.timers q) = ∅))
  /\ (forall es message duration,
        let p := Overlay.run Overlay.initialPage es in
        let q := Overlay.showTransientStatus message duration p in
        Overlay.transient_active (Overlay.overlayState q) = true
        /\ Overlay.transient_message (Overlay.overlayState q) = message
        /\ (exists h',
              Overlay.transient_timeoutId (Overlay.overlayState q) = Some h'
              /\ Browser.running Browser.TransientExpiry (Overlay.timers q)
                 = {[h']})
        /\ (forall h,
              Overlay.transient_timeoutId (Overlay.overlayState p) = Some h ->
              Browser.active (Overlay.timers q) !! h = None)).
Proof.
  assert (Hreach : forall es,
            Overlay.consistent (Overlay.run Overlay.initialPage es))
    by (intros; apply OverlayFacts.consistent_run,
          OverlayFacts.consistent_initial).
  split.
  - intros es p o. split; [| split].
    + apply OverlayTimerFacts.run_paired. simpl. split; [done | by intros []].
    + destruct (Hreach es) as (_ & _ & _ & Ht & _).
      by apply BrowserFacts.running_owns.
    + intros h now Hh q.
      destruct (Hreach es) as (_ & _ & _ & Ht & _). fold p in Ht.
      assert (Hlive : Browser.active (Overlay.timers p) !! h
                      = Some Browser.TransientExpiry) by (by apply Ht).
      destruct (OverlayTimerFacts.fire_transient_expiry h now p Hlive)
        as [Ha Hi].
      split; [exact Ha |]. split; [exact Hi |].
      destruct (OverlayFacts.consistent_fire h now p (Hreach es))
        as (_ & _ & _ & Ht' & _).
      unfold q. rewrite (BrowserFacts.running_owns _ _ _ Ht'). by rewrite Hi.
  - intros es message duration p q.
    destruct (OverlayTimerFacts.showTransientStatus_fields message duration p)
      as (Ha & Hm & Hi & Htm & _).
    split; [exact Ha |]. split; [exact Hm |]. split.
    + eexists. split; [exact Hi |].
      destruct (OverlayFacts.consistent_showTransientStatus message duration p
                  (Hreach es)) as (_ & _ & _ & Ht' & _).
      unfold q. rewrite (BrowserFacts.running_owns _ _ _ Ht'). by rewrite Hi.
    + intros h Hh. unfold q. rewrite Htm, Hh.
      destruct (Hreach es) as (Hfresh & _ & _ & Ht & _). fold p in Hfresh, Ht.
      assert (Hlive : Browser.active (Overlay.timers p) !! h
                      = Some Browser.TransientExpiry) by (by apply Ht).
      apply Hfresh in Hlive. simpl.
      rewrite lookup_insert_ne by lia. apply lookup_delete_eq.
Qed.

Lemma transient_status_has_one_timer_witness :
  let p := Overlay.run Overlay.initialPage
             [Overlay.ShowTransientStatus (Js.lit "Request failed") 3000] in
  let q := Overlay.showTransientStatus (Js.lit "Not found") 3000 p in
  Overlay.transient_timeoutId (Overlay.overlayState p) = Some 1%positive
  /\ Browser.active (Overlay.timers q) !! 1%positive = None
  /\ Overlay.transient_message (Overlay.overlayState q) = Js.lit "Not found".
Proof.
  intros p q. destruct transient_status_has_one_timer as [_ H].
  destruct (H [Overlay.ShowTransientStatus (Js.lit "Request failed") 3000]
              (Js.lit "Not found") 3000) as (_ & Hm & _ & Hold).
  split; [vm_compute; reflexivity |]. split; [| exact Hm].
  apply Hold. vm_compute. reflexivity.
Defined.

(** X7. The elapsed-time timer runs exactly while the backend wait is on.
    At every page the program can reach the overlay's backend flag equals
    the wait's; while the wait is off no such timer is live; while it is on
    exactly one is, the one whose handle the wait state holds, and each time
    it fires the backend message becomes the prefix followed by the seconds
    elapsed since the start of the wait, rounded, and the estimate. *)
Theorem wait_ticker_runs_while_waiting (es : list Overlay.Event) :
  let p := Overlay.run Overlay.initialPage es in
  let w := Overlay.backendWaitState p in
  Overlay.backend_active (Overlay.overlayState p) = Overlay.active w
  /\ (Overlay.active w = false ->
      Browser.running Browser.UpdateBackendWaitMessage (Overlay.timers p) = ∅)
  /\ (Overlay.active w = true ->
      exists h start,
        Overlay.timerId w = Some h /\ Overlay.startTime w = Some start
        /\ Browser.running Browser.UpdateBackendWaitMessage (Overlay.timers p)
           = {[h]}
        /\ forall now,
             Overlay.backend_message
               (Overlay.overlayState (Overlay.fire h now p))
             = Overlay.waitMessage (Overlay.baseMessage w)
                 (Browser.roundSeconds (now - start))).
Proof.
  intros p w.
  assert (Hc : Overlay.consistent p)
    by apply OverlayFacts.consistent_run, OverlayFacts.consistent_initial.
  assert (Hk : Overlay.active w = true ->
               is_Some (Overlay.timerId w) /\ is_Some (Overlay.startTime w)).
  { apply OverlayTimerFacts.run_clocked. simpl. discriminate. }
  destruct Hc as (_ & Hw & _ & _ & Hflag).
  split; [exact Hflag |]. split.
  - intros Hoff. rewrite (BrowserFacts.running_owns _ _ _ Hw).
    unfold Overlay.waitOwner. fold w. by rewrite Hoff.
  - intros Hon. destruct (Hk Hon) as [[h Hh] [start Hs]].
    exists h, start. split; [exact Hh |]. split; [exact Hs |]. split.
    + rewrite (BrowserFacts.running_owns _ _ _ Hw).
      unfold Overlay.waitOwner. fold w. by rewrite Hon, Hh.
    + intros now.
      assert (Hlive : Browser.active (Overlay.timers p) !! h
                      = Some Browser.UpdateBackendWaitMessage).
      { apply Hw. unfold Overlay.waitOwner. fold w. by rewrite Hon. }
      unfold Overlay.fire. rewrite Hlive.
      rewrite OverlayTimerFacts.updateBackendWaitMessage_message by done.
      fold w. by rewrite Hs.
Qed.

Lemma wait_ticker_runs_while_waiting_witness :
  let p := Overlay.run Overlay.initialPage
             [Overlay.RequestSettled 1000 Browser.NetworkError] in
  exists h start,
    Overlay.timerId (Overlay.backendWaitState p) = Some h
    /\ Overlay.startTime (Overlay.backendWaitState p) = Some start
    /\ Browser.running Browser.UpdateBackendWaitMessage (Overlay.timers p)
       = {[h]}
    /\ forall now,
         Overlay.backend_message (Overlay.overlayState (Overlay.fire h now p))
         = Overlay.waitMessage
             (Overlay.baseMessage (Overlay.backendWaitState p))
             (Browser.roundSeconds (now - start)).
Proof.
  intros p.
  destruct (wait_ticker_runs_while_waiting
              [Overlay.RequestSettled 1000 Browser.NetworkError])
    as (_ & _ & H).
  apply H. vm_compute. reflexivity.
Defined.

(** X8. The wait message and the recovery poller go together. Taking the
    page one task of the event loop at a time, at every page the program
    can reach the backend wait is on exactly when a recovery poller is
    registered, and the elapsed-time timer is live exactly when the poller
    is: the wait message is never left on screen with nothing probing the
    backend, and no poller outlives the wait. *)
Theorem wait_and_poller_go_together (ts : list OverlayTurns.Turn) :
  let p := OverlayTurns.runTurns Overlay.initialPage ts in
  (Overlay.active (Overlay.backendWaitState p) = true
   <-> is_Some (Overlay.backendHealthCheckIntervalId p))
  /\ (Browser.running Browser.UpdateBackendWaitMessage (Overlay.timers p) = ∅
      <-> Browser.running Browser.HealthCheck (Overlay.timers p) = ∅).
Proof.
  intros p.
  assert (Hg : OverlayTurns.guarded p)
    by apply OverlayTurnsFacts.guarded_runTurns,
         OverlayTurnsFacts.guarded_initial.
  split; [exact Hg |].
  unfold p in *. rewrite OverlayTurnsFacts.runTurns_events in *.
  set (q := Overlay.run Overlay.initialPage (ts ≫= OverlayTurns.events)) in *.
  assert (Hc : Overlay.consistent q)
    by apply OverlayFacts.consistent_run, OverlayFacts.consistent_initial.
  assert (Hk : Overlay.active (Overlay.backendWaitState q) = true ->
               is_Some (Overlay.timerId (Overlay.backendWaitState q))
               /\ is_Some (Overlay.startTime (Overlay.backendWaitState q))).
  { apply OverlayTimerFacts.run_clocked. simpl. discriminate. }
  destruct Hc as (_ & Hw & Hp & _).
  rewrite (BrowserFacts.running_owns _ _ _ Hw),
    (BrowserFacts.running_owns _ _ _ Hp).
  unfold OverlayTurns.guarded in Hg. unfold Overlay.waitOwner.
  destruct (Overlay.active (Overlay.backendWaitState q)) eqn:Ea.
  - destruct (Hk eq_refl) as [[h ->] _].
    destruct (proj1 Hg eq_refl) as [h' ->].
    split; intros E; exfalso; by apply (non_empty_singleton_L _ E).
  - destruct (Overlay.backendHealthCheckIntervalId q) as [h' |]; [| done].
    destruct Hg as [_ Hg]. by specialize (Hg (mk_is_Some _ _ eq_refl)).
Qed.

Lemma wait_and_poller_go_together_witness :
  let p := OverlayTurns.runTurns Overlay.initialPage
             [OverlayTurns.Evaluated 0 (Js.lit "Connecting to backend…")
                Browser.NetworkError;
              OverlayTurns.Polled (Browser.Response 503 Samples.noBody)] in
  is_Some (Overlay.backendHealthCheckIntervalId p).
Proof.
  intros p.
  destruct (wait_and_poller_go_together
              [OverlayTurns.Evaluated 0 (Js.lit "Connecting to backend…")
                 Browser.NetworkError;
               OverlayTurns.Polled (Browser.Response 503 Samples.noBody)]) as [Hg _].
  apply Hg. vm_compute. reflexivity.
Defined.

(** X9. What a failed request does. The error [request] throws always has
    a message: for an answer that is not a success the body of the answer,
    or, when the body is empty, the status line of the program. An answer
    that is not a success and whose status is below 500 leaves the page
    exactly as it was: no recovery is started and the backend is not marked
    online. A network failure or a status of 500 or more throws as well,
    turns the backend wait on, shows its message and leaves a recovery
    poller registered. *)
Theorem request_failure_effects
    (now : Z) (outcome : Browser.FetchOutcome) (p : Overlay.Page) :
  let r := Overlay.request now outcome p in
  (forall m, r.1 = Overlay.Thrown m -> m <> [])
  /\ (forall status body,
        outcome = Browser.Response status body ->
        Browser.ok status = false -> status < 500 ->
        r.2 = p
        /\ r.1 = Overlay.Thrown
                   (Js.orElse (Some (Browser.bodyText body))
                      (Js.lit "Request failed with status "
                         ++ Js.ofInt status)))
  /\ (outcome = Browser.NetworkError
      \/ (exists status body,
            outcome = Browser.Response status body /\ 500 <= status) ->
      (exists m, r.1 = Overlay.Thrown m)
      /\ Overlay.active (Overlay.backendWaitState r.2) = true
      /\ Overlay.backend_active (Overlay.overlayState r.2) = true
      /\ is_Some (Overlay.backendHealthCheckIntervalId r.2)).
Proof.
  intros r.
  assert (Hbegin : forall m,
            let q := Overlay.beginBackendRecovery now m p in
            Overlay.active (Overlay.backendWaitState q) = true
            /\ Overlay.backend_active (Overlay.overlayState q) = true
            /\ is_Some (Overlay.backendHealthCheckIntervalId q)).
  { intros m q.
    destruct (OverlayFacts.beginBackendRecovery_wait now m p)
      as (Hw & _ & Hi & Ho).
    destruct (OverlayFacts.startBackendWait_wait now m p) as [Hw' _].
    destruct (OverlayFacts.startBackendWait_message now m p) as [_ Hb].
    unfold q. rewrite Hw, Hw', Ho, Hb.
    split; [by destruct (Overlay.active (Overlay.backendWaitState p)) |].
    by split. }
  split; [| split].
  - intros m. apply OverlayTimerFacts.request_thrown_nonempty.
  - intros status body -> Hok Hlt. unfold r, Overlay.request. rewrite Hok.
    simpl. assert ((500 <=? status) = false) as -> by lia. done.
  - intros [-> | (status & body & -> & Hge)]; unfold r, Overlay.request.
    + simpl. split; [by eexists |]. apply Hbegin.
    + assert (Browser.ok status = false) as ->
        by (unfold Browser.ok; lia).
      simpl. assert ((500 <=? status) = true) as -> by lia.
      split; [by eexists |]. apply Hbegin.
Qed.

Lemma request_failure_effects_witness :
  let r :=
    Overlay.request 0 (Browser.Response 404 Samples.noBody)
      Overlay.initialPage in
  r.2 = Overlay.initialPage
  /\ r.1 = Overlay.Thrown (Js.lit "Request failed with status 404").
Proof.
  intros r.
  destruct (request_failure_effects 0 (Browser.Response 404 Samples.noBody)
              Overlay.initialPage) as (_ & H & _).
  destruct (H 404 Samples.noBody eq_refl) as [Hp Hm]; [reflexivity | lia |].
  split; [exact Hp |]. etrans; [exact Hm | vm_compute; reflexivity].
Defined.



(** X11. In the revision with the datastore readiness state the two waits
    exclude each other: at every page the program can reach, while the
    backend wait is on the datastore wait is off, its message is not on the
    overlay, its timer is not live, and a recovery poller is registered. *)
Theorem backend_wait_excludes_datastore_wait
    (es : list ReadinessOverlay.Event) :
  let p := ReadinessOverlay.run ReadinessOverlay.initialPage es in
  ReadinessOverlay.active (ReadinessOverlay.backendWaitState p) = true ->
  ReadinessOverlay.active (ReadinessOverlay.databaseWaitState p) = false
  /\ ReadinessOverlay.database_active (ReadinessOverlay.overlayState p) = false
  /\ Browser.running Browser.UpdateDatabaseWaitMessage
       (ReadinessOverlay.timers p) = ∅
  /\ is_Some (ReadinessOverlay.backendHealthCheckIntervalId p).
Proof.
  intros p Hon.
  assert (Hcalm : ReadinessOverlay.active
                    (ReadinessOverlay.databaseWaitState p) = false
                  /\ is_Some (ReadinessOverlay.backendHealthCheckIntervalId p)).
  { revert Hon. apply ReadinessWaitFacts.calm_run. simpl. discriminate. }
  destruct Hcalm as [Hoff Hpoll].
  assert (Hc : ReadinessOverlay.consistent p)
    by apply ReadinessOverlayFacts.db_consistent_run,
         ReadinessOverlayFacts.db_consistent_initial.
  destruct Hc as (_ & _ & Hd & _ & _ & _ & Hflag).
  split; [exact Hoff |]. split; [congruence |]. split; [| exact Hpoll].
  rewrite (BrowserFacts.running_owns _ _ _ Hd).
  unfold ReadinessOverlay.waitOwner. by rewrite Hoff.
Qed.

Lemma backend_wait_excludes_datastore_wait_witness :
  let p := ReadinessOverlay.run ReadinessOverlay.initialPage
             [ReadinessOverlay.RequestSettled 0 (Browser.Response 500 Samples.noBody);
              ReadinessOverlay.PollContinued 10000
                (ReadinessOverlay.HealthResponse 200 (Some false) None);
              ReadinessOverlay.RequestSettled 12000 Browser.NetworkError] in
  ReadinessOverlay.active (ReadinessOverlay.databaseWaitState p) = false
  /\ is_Some (ReadinessOverlay.backendHealthCheckIntervalId p).
Proof.
  intros p.
  destruct (backend_wait_excludes_datastore_wait
              [ReadinessOverlay.RequestSettled 0 (Browser.Response 500 Samples.noBody);
               ReadinessOverlay.PollContinued 10000
                 (ReadinessOverlay.HealthResponse 200 (Some false) None);
               ReadinessOverlay.RequestSettled 12000 Browser.NetworkError])
    as (Hoff & _ & _ & Hpoll).
  - vm_compute. reflexivity.
  - split; [exact Hoff | exact Hpoll].
Defined.

(** X12. [waitForFullReadiness] resolves at the first reply that reports
    the backend online and the datastore ready, and not before. Started at
    a page the program can reach, whatever else happens on the page between
    the probes: as long as no reply is such, the loop is still going; at the
    first such reply it resolves, at the page that reply leaves, where both
    waits are off, their timers and the recovery poller are stopped, and
    neither wait message is on the overlay. *)
Theorem waitForFullReadiness_resolves_at_first_ready_reply
    (es : list ReadinessOverlay.Event) (before : list Startup.Round) :
  let p := ReadinessOverlay.run ReadinessOverlay.initialPage es in
  Forall (fun r => Startup.fullyReady r = false) before ->
  Startup.waitForFullReadiness before p = None
  /\ forall r after,
       Startup.fullyReady r = true ->
       exists q,
         Startup.waitForFullReadiness (before ++ r :: after) p = Some q
         /\ q = (ReadinessOverlay.evaluateHealthStatus (Startup.settledAt r)
                   (Js.lit "Connecting to backend…")
                   (ReadinessOverlay.checkBackendStatus (Startup.reply r))
                   (ReadinessOverlay.run (Startup.played before p)
                      (Startup.meanwhile r))).2
         /\ Startup.quiet q.
Proof.
  intros p Hbefore. split.
  - rewrite <- (app_nil_r before).
    by rewrite StartupFacts.waitForFullReadiness_app.
  - intros r after Hr.
    rewrite StartupFacts.waitForFullReadiness_app by done.
    rewrite StartupFacts.waitForFullReadiness_ready by done.
    eexists. split; [reflexivity |]. split.
    + unfold Startup.fullyReady in Hr. apply andb_prop in Hr as [Hon Hready].
      unfold ReadinessOverlay.evaluateHealthStatus,
        ReadinessOverlay.markBackendOnline.
      by rewrite Hon, Hready.
    + apply ReadinessOverlayFacts.ready_clears.
      apply ReadinessOverlayFacts.db_consistent_run,
        StartupFacts.consistent_played,
        ReadinessOverlayFacts.db_consistent_run,
        ReadinessOverlayFacts.db_consistent_initial.
Qed.

Lemma waitForFullReadiness_resolves_at_first_ready_reply_witness :
  let asleep := Startup.mkRound [] 0 ReadinessOverlay.HealthUnreachable in
  let warming :=
    Startup.mkRound [] 2000
      (ReadinessOverlay.HealthResponse 200 (Some false) None) in
  let ready :=
    Startup.mkRound [] 4000
      (ReadinessOverlay.HealthResponse 200 (Some true) None) in
  Startup.waitForFullReadiness [asleep; warming] ReadinessOverlay.initialPage
  = None
  /\ exists q,
       Startup.waitForFullReadiness [asleep; warming; ready]
         ReadinessOverlay.initialPage = Some q
       /\ Startup.quiet q.
Proof.
  intros asleep warming ready.
  destruct (waitForFullReadiness_resolves_at_first_ready_reply []
              [asleep; warming]) as [Hnone Hsome].
  - repeat constructor.
  - split; [exact Hnone |].
    destruct (Hsome ready [] eq_refl) as (q & Hq & _ & Hquiet).
    by exists q.
Defined.

(** X13. The gateway passes the caller's headers through. A header other
    than [Content-Type] that the caller gave is sent with the value the
    caller gave, and one the caller did not give is not sent: in the oldest
    revision for every such header, in the revision that sends the identity
    for every one but [X-User-ID], in the revision that sends both for every
    one but [X-User-ID] and [Idempotency-Key]. *)
Theorem gateway_passes_other_headers_through
    (toUpperCase : jsstr -> jsstr)
    (USER_ID : jsstr) (options : Gateway.Options) (rnd : Gateway.Random)
    (k : jsstr) :
  k <> Js.lit "Content-Type" ->
  Gateway.c_headers (Gateway.Anonymous.requestConfig options) !! k
  = default ∅ (Gateway.headers options) !! k
  /\ (k <> Js.lit "X-User-ID" ->
      Gateway.c_headers (Gateway.Identified.requestConfig USER_ID options) !! k
      = default ∅ (Gateway.headers options) !! k
      /\ (k <> Js.lit "Idempotency-Key" ->
          Gateway.c_headers
            (Gateway.Idempotent.requestConfig toUpperCase USER_ID options
               rnd).1 !! k
          = default ∅ (Gateway.headers options) !! k)).
Proof.
  intros Hct. split; [| intros Hxu; split; [| intros Hik]].
  - unfold Gateway.Anonymous.requestConfig.
    by rewrite GatewayFacts.attachBody_other.
  - unfold Gateway.Identified.requestConfig.
    rewrite GatewayFacts.attachBody_other by assumption.
    rewrite GatewayConfigFacts.setHeader_other by congruence. reflexivity.
  - destruct (GatewayConfigFacts.idempotent_config toUpperCase USER_ID
                options rnd)
      as (config & -> & _ & _ & H).
    rewrite GatewayFacts.attachBody_other by assumption. by apply H.
Qed.

Lemma gateway_passes_other_headers_through_witness :
  let options :=
    {| Gateway.method := Some (Js.lit "PUT");
       Gateway.body := Some (Js.lit "{}");
       Gateway.headers :=
         Some {[Js.lit "Accept" := Js.lit "application/json"]} |} in
  Gateway.c_headers
    (Gateway.Idempotent.requestConfig Samples.asciiOnly (Js.lit "user-1")
       options Samples.sampleRandom).1 !! Js.lit "Accept"
  = Some (Js.lit "application/json").
Proof.
  intros options.
  destruct (gateway_passes_other_headers_through Samples.asciiOnly
              (Js.lit "user-1") options
              Samples.sampleRandom (Js.lit "Accept")) as [_ H].
  { vm_compute. discriminate. }
  destruct H as [_ H]; [vm_compute; discriminate |].
  etrans; [apply H; vm_compute; discriminate |].
  apply lookup_singleton_eq.
Defined.

(** X14. Method, body and content type of what the gateway sends, in every
    revision. The method is the caller's, as the caller wrote it, and [GET]
    when the caller gave none or the empty one. A body is sent only when the
    caller gave a non-empty one. [Content-Type] is [application/json]
    exactly when a body is sent and the caller gave no content type or the
    empty one; otherwise it is what the caller gave, if anything. *)
Theorem gateway_method_body_content_type
    (toUpperCase : jsstr -> jsstr)
    (USER_ID : jsstr) (options : Gateway.Options) (rnd : Gateway.Random)
    (sent : Gateway.Config) :
  sent = Gateway.Anonymous.requestConfig options
  \/ sent = Gateway.Identified.requestConfig USER_ID options
  \/ sent = (Gateway.Idempotent.requestConfig toUpperCase USER_ID options
               rnd).1 ->
  let given :=
    default ∅ (Gateway.headers options) !! Js.lit "Content-Type" in
  Gateway.c_method sent = Js.orElse (Gateway.method options) (Js.lit "GET")
  /\ Gateway.c_body sent
     = (if Gateway.truthy (Gateway.body options)
        then Gateway.body options else None)
  /\ Gateway.c_headers sent !! Js.lit "Content-Type"
     = (if Gateway.truthy (Gateway.body options)
           && negb (Gateway.truthy given)
        then Some (Js.lit "application/json")
        else given).
Proof.
  assert (Hxc : Js.lit "X-User-ID" <> Js.lit "Content-Type")
    by (vm_compute; discriminate).
  assert (Hic : Js.lit "Idempotency-Key" <> Js.lit "Content-Type")
    by (vm_compute; discriminate).
  intros Hsent given.
  assert (exists config,
            sent = Gateway.attachBody options config
            /\ Gateway.c_method config
               = Js.orElse (Gateway.method options) (Js.lit "GET")
            /\ Gateway.c_body config = None
            /\ Gateway.c_headers config !! Js.lit "Content-Type" = given)
    as (config & -> & Hm & Hb & Hh).
  { destruct Hsent as [-> | [-> | ->]].
    - eexists. split; [reflexivity |]. by repeat split.
    - eexists. split; [reflexivity |]. split; [reflexivity |].
      split; [reflexivity |].
      by rewrite GatewayConfigFacts.setHeader_other.
    - destruct (GatewayConfigFacts.idempotent_config toUpperCase USER_ID
                  options rnd)
        as (config & E & Hm & Hb & Hh).
      exists config. split; [exact E |]. split; [exact Hm |].
      split; [exact Hb |]. apply Hh; congruence. }
  rewrite GatewayFacts.attachBody_method, GatewayConfigFacts.attachBody_body,
    GatewayConfigFacts.attachBody_contentType, Hm, Hb, Hh.
  done.
Qed.

Lemma gateway_method_body_content_type_witness :
  let options :=
    {| Gateway.method := None; Gateway.body := Some [];
       Gateway.headers := None |} in
  let sent := Gateway.Anonymous.requestConfig options in
  Gateway.c_method sent = Js.lit "GET"
  /\ Gateway.c_body sent = None
  /\ Gateway.c_headers sent !! Js.lit "Content-Type" = None.
Proof.
  intros options sent.
  destruct (gateway_method_body_content_type Samples.asciiOnly [] options
              Samples.sampleRandom sent (or_introl eq_refl))
    as (Hm & Hb & Hh).
  split; [exact Hm |]. split; [exact Hb |].
  etrans; [exact Hh |]. vm_compute. reflexivity.
Defined.

(** X15. [selectNodeById] selects nodes and nothing else. With no id, the
    empty id, an id that is not in the graph or the id of an edge, the view
    is left exactly as it was. With the id of a node of the graph, that id
    becomes [selectedNodeId], the panel shows the node's name and
    description (["Untitled"] and ["No description provided."] for a missing
    or empty one) with both action buttons enabled, the node is selected and
    every other node is unselected; the selection of edges, the graph and
    the tabs are untouched. *)
Theorem selectNodeById_selects_only_nodes
    (v : Selection.View) (nodeId : option jsstr) :
  let v' := Selection.selectNodeById nodeId v in
  match nodeId with
  | Some id =>
      if negb (bool_decide (id = [])) && Selection.isNodeId (Selection.cy v) id
      then
        exists d,
          Selection.cy v !! id = Some d /\ isEdge d = false
          /\ Selection.selectedNodeId v' = Some id
          /\ Selection.panel v'
             = Selection.mkDetailsPanel true false
                 (Js.orElse (name d) (Js.lit "Untitled"))
                 (Js.orElse (description d)
                    (Js.lit "No description provided."))
                 false false
          /\ (forall k,
                k ∈ Selection.selectedEles v'
                <-> k = id
                    \/ (k ∈ Selection.selectedEles v
                        /\ Selection.isNodeId (Selection.cy v) k = false))
          /\ Selection.cy v' = Selection.cy v
          /\ Selection.tabs v' = Selection.tabs v
      else v' = v
  | None => v' = v
  end.
Proof.
  intros v'. destruct nodeId as [id |]; [| done].
  case_bool_decide as Hid; simpl; [by subst |].
  destruct (Selection.isNodeId (Selection.cy v) id) eqn:E.
  - destruct (SelectionFacts.elementById_node _ _ E) as (d & Hd & He & _).
    exists d. unfold v'.
    rewrite (SelectionFacts.selectNodeById_node v id d) by done.
    rewrite SelectionFacts.selectNode_node by done. simpl.
    repeat split; try done.
    + rewrite elem_of_union, elem_of_filter, elem_of_singleton. tauto.
    + rewrite elem_of_union, elem_of_filter, elem_of_singleton. tauto.
  - by apply SelectionFacts.selectNodeById_other.
Qed.

Lemma selectNodeById_selects_only_nodes_witness :
  Selection.selectNodeById (Some (Js.lit "a-b-relates")) ViewSamples.viewAB
  = ViewSamples.viewAB
  /\ Selection.selectedNodeId
       (Selection.selectNodeById (Some (Js.lit "a")) ViewSamples.viewAB)
     = Some (Js.lit "a").
Proof.
  split.
  - pose proof (selectNodeById_selects_only_nodes ViewSamples.viewAB
                  (Some (Js.lit "a-b-relates"))) as H.
    cbv beta iota zeta in H.
    match type of H with
    | if ?c then _ else _ =>
        assert (E : c = false) by (vm_compute; reflexivity); rewrite E in H
    end.
    exact H.
  - pose proof (selectNodeById_selects_only_nodes ViewSamples.viewAB
                  (Some (Js.lit "a"))) as H.
    cbv beta iota zeta in H.
    match type of H with
    | if ?c then _ else _ =>
        assert (E : c = true) by (vm_compute; reflexivity); rewrite E in H
    end.
    by destruct H as (d & _ & _ & H & _).
Defined.

(** X16. Panel and buttons stay in step with the selected id. Start from
    any view on which [clearSelection] has run and let the listeners of a
    tap on a node and of a tap on the background run, tabs be clicked, the
    program call [selectNodeById], and the engine change its own selection
    flags, in any order. Then the graph is unchanged; with no id selected
    the panel shows the placeholder, empty texts and both action buttons
    disabled; with an id selected the panel shows the details list with both
    buttons enabled, and the id is the id of a node of the graph. Nothing
    is said of the selection flags of the engine. *)
Theorem selection_and_panel_agree
    (v : Selection.View) (gs : list Selection.Gesture) :
  let v' := Selection.acts (Selection.clearSelection v) gs in
  Selection.cy v' = Selection.cy v
  /\ match Selection.selectedNodeId v' with
     | Some id =>
         Selection.isNodeId (Selection.cy v) id = true
         /\ Selection.detailsPlaceholderHidden (Selection.panel v') = true
         /\ Selection.detailsListHidden (Selection.panel v') = false
         /\ Selection.expandButtonDisabled (Selection.panel v') = false
         /\ Selection.deleteButtonDisabled (Selection.panel v') = false
     | None =>
         Selection.panel v'
         = Selection.mkDetailsPanel false true [] [] true true
     end.
Proof.
  intros v'.
  destruct (SelectionFacts.clearSelection_fields v) as (Hc & Hs & Hp & _).
  destruct (SelectionFacts.acts_keep gs (Selection.clearSelection v))
    as (Hcy & Hagrees & Hsound).
  fold v' in Hcy, Hagrees, Hsound.
  assert (Hc' : Selection.cy v' = Selection.cy v) by congruence.
  split; [exact Hc' |].
  assert (Ha : Selection.agrees v').
  { apply Hagrees. unfold Selection.agrees. by rewrite Hs. }
  unfold Selection.agrees in Ha.
  destruct (Selection.selectedNodeId v') as [id |] eqn:E; [| exact Ha].
  split; [| exact Ha]. rewrite <- Hc'. apply Hsound; [| done].
  intros id'. by rewrite Hs.
Qed.

Lemma selection_and_panel_agree_witness :
  let v' := Selection.acts (Selection.clearSelection ViewSamples.viewAB)
              [Selection.EngineSelects {[Js.lit "a"]};
               Selection.TapNode (Js.lit "a"); Selection.TabClicked 1;
               Selection.EngineSelects {[Js.lit "a-b-relates"]};
               Selection.TapNode (Js.lit "a-b-relates")] in
  Selection.selectedNodeId v' = Some (Js.lit "a")
  /\ Selection.expandButtonDisabled (Selection.panel v') = false.
Proof.
  intros v'.
  destruct (selection_and_panel_agree ViewSamples.viewAB
              [Selection.EngineSelects {[Js.lit "a"]};
               Selection.TapNode (Js.lit "a"); Selection.TabClicked 1;
               Selection.EngineSelects {[Js.lit "a-b-relates"]};
               Selection.TapNode (Js.lit "a-b-relates")]) as (_ & H).
  fold v' in H.
  assert (E : Selection.selectedNodeId v' = Some (Js.lit "a"))
    by (vm_compute; reflexivity).
  rewrite E in H. destruct H as (Hnode & _ & _ & Hexpand & _).
  split; [exact E | exact Hexpand].
Defined.

(** X17. [switchTab] activates what matches the name and nothing else: a
    tab button is active afterwards exactly when its [data-tab] is the name
    given, the details pane exactly when the name is ["details"], the prompt
    pane exactly when it is ["prompt"], so never both panes; the click on a
    tab button leaves that button active; the selection and the panel are
    untouched. *)
Theorem switchTab_activates_matching
    (v : Selection.View) (tabName : option jsstr) :
  let v' := Selection.switchTab tabName v in
  (Selection.detailsPaneActive (Selection.tabs v') = true
   <-> tabName = Some (Js.lit "details"))
  /\ (Selection.promptPaneActive (Selection.tabs v') = true
      <-> tabName = Some (Js.lit "prompt"))
  /\ ~ (Selection.detailsPaneActive (Selection.tabs v') = true
        /\ Selection.promptPaneActive (Selection.tabs v') = true)
  /\ (forall i,
        Selection.tabButtons (Selection.tabs v') !! i
        = (fun b : option jsstr * bool => (b.1, bool_decide (b.1 = tabName)))
            <$> Selection.tabButtons (Selection.tabs v) !! i)
  /\ (forall i b,
        Selection.tabButtons (Selection.tabs v) !! i = Some b ->
        Selection.tabButtons
          (Selection.tabs (Selection.act v (Selection.TabClicked i))) !! i
        = Some (b.1, true))
  /\ Selection.selectedNodeId v' = Selection.selectedNodeId v
  /\ Selection.panel v' = Selection.panel v
  /\ Selection.selectedEles v' = Selection.selectedEles v.
Proof.
  intros v'. simpl.
  assert (Hne : Js.lit "details" <> Js.lit "prompt")
    by (vm_compute; discriminate).
  split; [| split; [| split; [| split; [| split]]]].
  - rewrite bool_decide_eq_true. split; congruence.
  - rewrite bool_decide_eq_true. split; congruence.
  - rewrite !bool_decide_eq_true. intros [<- E]. apply Hne. congruence.
  - intros i. apply list_lookup_fmap.
  - intros i b Hb. rewrite Hb. simpl. rewrite list_lookup_fmap, Hb. simpl.
    by rewrite bool_decide_eq_true_2.
  - done.
Qed.

Lemma switchTab_activates_matching_witness :
  Selection.tabButtons
    (Selection.tabs
       (Selection.act ViewSamples.viewAB (Selection.TabClicked 1)))
    !! 1%nat
  = Some (Some (Js.lit "prompt"), true).
Proof.
  destruct (switchTab_activates_matching ViewSamples.viewAB None)
    as (_ & _ & _ & _ & H & _).
  apply (H 1%nat (Some (Js.lit "prompt"), false)). reflexivity.
Defined.

(** X18. The buttons of the prompt editor follow the text. After any
    action on the editor (typing, a click on reset, a prompt applied after
    loading or saving) both buttons are disabled exactly when the text area
    reads the same as the snapshot, and the snapshot is the last prompt
    applied, the empty text for a missing one. A click on reset puts the
    snapshot back in the text area, whatever was typed since; the text area
    reads it back with its line breaks normalised, so reset (and applying a
    prompt) leaves both buttons disabled exactly when the prompt holds no
    carriage return, and enabled, with nothing typed, when it holds one. *)
Theorem prompt_buttons_track_dirty_state
    (e : PromptEditor.Editor) (acts : list PromptEditor.Action)
    (a : PromptEditor.Action) :
  let e' := PromptEditor.edits e (acts ++ [a]) in
  PromptEditor.saveDisabled e'
  = bool_decide (PromptEditor.value e' = PromptEditor.promptSnapshot e')
  /\ PromptEditor.resetDisabled e' = PromptEditor.saveDisabled e'
  /\ PromptEditor.promptSnapshot e'
     = default (PromptEditor.promptSnapshot e)
         (PromptEditor.lastApplied (acts ++ [a]))
  /\ PromptEditor.value (PromptEditor.onReset e')
     = PromptEditor.normalizeNewlines (PromptEditor.promptSnapshot e')
  /\ (PromptEditor.saveDisabled (PromptEditor.onReset e') = true
      <-> PromptEditor.plain (PromptEditor.promptSnapshot e'))
  /\ (forall promptText,
        PromptEditor.saveDisabled
          (PromptEditor.applyPrompt (Some promptText) e') = true
        <-> PromptEditor.plain promptText).
Proof.
  intros e'.
  assert (Hs : PromptEditor.saveDisabled e'
               = bool_decide (PromptEditor.value e'
                              = PromptEditor.promptSnapshot e')
               /\ PromptEditor.resetDisabled e'
                  = bool_decide (PromptEditor.value e'
                                 = PromptEditor.promptSnapshot e')).
  { unfold e'. rewrite PromptEditorFacts.edits_snoc.
    apply PromptEditorFacts.edit_settled. }
  destruct Hs as [Hsave Hreset].
  split; [exact Hsave |]. split; [congruence |]. split.
  { apply PromptEditorFacts.edits_snapshot. }
  split; [reflexivity |]. split.
  - unfold PromptEditor.onReset, PromptEditor.updatePromptActions.
    cbn [PromptEditor.saveDisabled PromptEditor.value
         PromptEditor.promptSnapshot].
    rewrite negb_involutive, bool_decide_eq_true.
    apply PromptEditorFacts.normalizeNewlines_fixed.
  - intros promptText.
    unfold PromptEditor.applyPrompt, PromptEditor.updatePromptActions.
    cbn [PromptEditor.saveDisabled PromptEditor.value
         PromptEditor.promptSnapshot].
    rewrite negb_involutive, bool_decide_eq_true.
    assert (Js.orElse (Some promptText) [] = promptText) as ->
      by (by destruct promptText).
    apply PromptEditorFacts.normalizeNewlines_fixed.
Qed.

Lemma prompt_buttons_track_dirty_state_witness :
  let e := PromptEditor.mkEditor [] [] false false in
  let e' := PromptEditor.edits e
              ([PromptEditor.Applied (Some (Js.lit "Expand {node}"))]
                 ++ [PromptEditor.Typed (Js.lit "Expand it")]) in
  PromptEditor.saveDisabled e' = false
  /\ PromptEditor.saveDisabled (PromptEditor.onReset e') = true
  /\ PromptEditor.saveDisabled
       (PromptEditor.applyPrompt (Some [76; 13; 10; 77]%N) e') = false.
Proof.
  intros e e'.
  destruct (prompt_buttons_track_dirty_state e
              [PromptEditor.Applied (Some (Js.lit "Expand {node}"))]
              (PromptEditor.Typed (Js.lit "Expand it")))
    as (Hsave & _ & Hsnap & _ & Hreset & Happly).
  fold e' in Hsave, Hsnap, Hreset, Happly. split; [| split].
  - etrans; [exact Hsave | vm_compute; reflexivity].
  - apply Hreset. rewrite Hsnap. unfold PromptEditor.plain.
    vm_compute. intros H. repeat (apply elem_of_cons in H as [H | H];
      [discriminate |]). by apply elem_of_nil in H.
  - apply not_true_is_false. intros H. apply Happly in H.
    apply H. unfold PromptEditor.plain. right. left.
Defined.

(** X19. The form that creates a node asks for both fields. It alerts, and
    sends nothing, exactly when the name or the description is missing or
    holds white space only. Otherwise it submits the two texts with the
    white space before and after them removed: what is submitted is not
    empty and neither starts nor ends with white space. *)
Theorem node_form_requires_both_fields (name description : option jsstr) :
  (NodeForm.submit name description = NodeForm.Alerted
   <-> ~ (NodeForm.hasInk name /\ NodeForm.hasInk description))
  /\ (forall n d,
        NodeForm.submit name description = NodeForm.Submitted n d ->
        n <> [] /\ d <> [] /\ JsText.trimmed n /\ JsText.trimmed d
        /\ (exists ws1 ws2,
              JsText.blank ws1 /\ JsText.blank ws2
              /\ name = Some (ws1 ++ n ++ ws2))
        /\ (exists ws1 ws2,
              JsText.blank ws1 /\ JsText.blank ws2
              /\ description = Some (ws1 ++ d ++ ws2))).
Proof.
  assert (Hfield : forall v,
            (NodeForm.field v <> [] <-> NodeForm.hasInk v)
            /\ JsText.trimmed (NodeForm.field v)
            /\ (NodeForm.field v <> [] ->
                exists ws1 ws2,
                  JsText.blank ws1 /\ JsText.blank ws2
                  /\ v = Some (ws1 ++ NodeForm.field v ++ ws2))).
  { intros v. unfold NodeForm.field, NodeForm.hasInk.
    assert (Js.orElse v [] = default [] v) as ->
      by (by destruct v as [[| c r] |]).
    destruct v as [s |]; simpl.
    - destruct (JsTextFacts.trim_spec s) as (ws1 & ws2 & H1 & H2 & Hs & Ht).
      split; [| split; [exact Ht |]].
      + rewrite JsTextFacts.trim_nonempty. split.
        * intros (c & Hc & Hink). by exists s, c.
        * intros (s' & c & [= <-] & Hc & Hink). by exists c.
      + intros _. exists ws1, ws2. by rewrite <- Hs.
    - split; [| split].
      + split; [done |]. by intros (s' & c & [=] & _).
      + split; intros c r E; [done | by destruct r].
      + done. }
  assert (Htruthy : forall s, Gateway.truthy (Some s) = true <-> s <> [])
    by (intros [| c r]; simpl; split; done).
  destruct (Hfield name) as (Hn1 & Hn2 & Hn3).
  destruct (Hfield description) as (Hd1 & Hd2 & Hd3).
  unfold NodeForm.submit. cbv zeta.
  destruct (Gateway.truthy (Some (NodeForm.field name))) eqn:En;
    destruct (Gateway.truthy (Some (NodeForm.field description))) eqn:Ed;
    simpl.
  - apply Htruthy in En, Ed. split.
    + split; [done |]. intros H. exfalso. apply H. split; tauto.
    + intros n d [= <- <-].
      split; [done |]. split; [done |]. split; [done |]. split; [done |].
      split; [by apply Hn3 | by apply Hd3].
  - split; [| done]. split; [| done]. intros _ [_ H].
    apply Hd1, Htruthy in H. congruence.
  - split; [| done]. split; [| done]. intros _ [H _].
    apply Hn1, Htruthy in H. congruence.
  - split; [| done]. split; [| done]. intros _ [H _].
    apply Hn1, Htruthy in H. congruence.
Qed.

Lemma node_form_requires_both_fields_witness :
  NodeForm.submit (Some (Js.lit " Graph theory ")) (Some (Js.lit "Nodes and edges"))
  = NodeForm.Submitted (Js.lit "Graph theory") (Js.lit "Nodes and edges")
  /\ Js.lit "Graph theory" <> [].
Proof.
  destruct (node_form_requires_both_fields (Some (Js.lit " Graph theory "))
              (Some (Js.lit "Nodes and edges"))) as [_ H].
  assert (E : NodeForm.submit (Some (Js.lit " Graph theory "))
                (Some (Js.lit "Nodes and edges"))
              = NodeForm.Submitted (Js.lit "Graph theory")
                  (Js.lit "Nodes and edges"))
    by (vm_compute; reflexivity).
  split; [exact E |]. by destruct (H _ _ E) as (Hn & _).
Defined.



(** X21. Clearing the graph is all or nothing on the page. The task sends
    one [DELETE] per node, each after [request] has returned for the one
    before. While fewer requests than nodes have settled and [request]
    returned on each, the task is still waiting. When [request] throws, for
    an answer that is not a success or for a successful answer whose JSON
    body does not parse, the task throws that error at once, with its
    message, after as many deletions as [request] returned for, and the
    graph, the selection, the panel and the empty-workspace overlay are
    exactly as they were. Only when [request] has returned for every node
    does the graph become empty, with nothing selected, the panel on its
    placeholder with both buttons disabled, and the empty-workspace overlay
    shown. *)
Theorem clearGraph_all_or_nothing
    (settled : list (Z * Browser.FetchOutcome)) (a : Workspace.App) :
  let n := size (Workspace.nodesOf (Selection.cy (Workspace.view a))) in
  match Workspace.clearGraphTask settled a with
  | None =>
      Workspace.answered settled = length settled
      /\ (length settled < n)%nat
  | Some (Overlay.Thrown m, a') =>
      Workspace.view a' = Workspace.view a
      /\ Workspace.emptyWorkspaceHidden a' = Workspace.emptyWorkspaceHidden a
      /\ (Workspace.answered settled < n)%nat
      /\ (Workspace.answered settled < length settled)%nat
      /\ m <> []
  | Some (Overlay.Returned _, a') =>
      (n <= Workspace.answered settled)%nat
      /\ Selection.cy (Workspace.view a') = ∅
      /\ Selection.selectedEles (Workspace.view a') = ∅
      /\ Selection.selectedNodeId (Workspace.view a') = None
      /\ Selection.panel (Workspace.view a')
         = Selection.mkDetailsPanel false true [] [] true true
      /\ Workspace.emptyWorkspaceHidden a' = false
  end.
Proof.
  intros n. unfold Workspace.clearGraphTask. cbv zeta.
  pose proof (WorkspaceFacts.deleteEach_spec
                (map_to_list
                   (Workspace.nodesOf (Selection.cy (Workspace.view a)))).*1
                settled (Workspace.page a)) as H.
  rewrite WorkspaceFacts.length_nodeIds in H. fold n in H.
  destruct (Workspace.deleteEach _ settled (Workspace.page a))
    as [[[[] | m] p] |]; simpl.
  - split; [exact H |]. split; [done |]. split.
    { apply set_eq. intros k. rewrite elem_of_filter. split.
      - by intros [_ Hk].
      - intros Hk. by apply elem_of_empty in Hk. }
    split; [done |]. split; [done |].
    by rewrite WorkspaceFacts.nodesOf_empty.
  - destruct H as (H1 & H2 & H3). by repeat split.
  - exact H.
Qed.

Lemma clearGraph_all_or_nothing_witness :
  let settled :=
    [(0, Browser.Response 204 Samples.noBody);
     (1, Browser.Response 200 Samples.cutShortBody)] in
  exists a',
    Workspace.clearGraphTask settled ViewSamples.appAB
    = Some (Overlay.Thrown (Js.lit "Unexpected end of JSON input"), a')
    /\ Workspace.view a' = Workspace.view ViewSamples.appAB.
Proof.
  intros settled.
  pose proof (clearGraph_all_or_nothing settled ViewSamples.appAB) as H.
  destruct (Workspace.clearGraphTask settled ViewSamples.appAB)
    as [[[[] | m] a'] |] eqn:E.
  - exfalso. destruct H as [H _]. vm_compute in H. lia.
  - exists a'. split; [| by destruct H as [H _]].
    vm_compute in E. injection E as <- _. vm_compute. reflexivity.
  - exfalso. destruct H as [H _]. vm_compute in H. lia.
Defined.

(** X22. Creating a node shows it and selects it. When the server has
    answered the form with a node whose id is not empty and is not the id of
    an edge of the graph, then the task does not throw, and after it the
    graph holds a node with that id, name and description, that node is
    [selectedNodeId], the panel shows its name and description (the defaults
    for a missing or empty one) with both action buttons enabled, the
    empty-workspace overlay is hidden, and every other element of the graph
    is as it was. *)
Theorem nodeCreated_shows_and_selects_the_node
    (measure : jsstr -> jsstr -> Q) (newNode : PNode) (a : Workspace.App) :
  id newNode <> [] ->
  (forall d, Selection.cy (Workspace.view a) !! id newNode = Some d ->
             isEdge d = false) ->
  let a' := (Workspace.nodeCreated measure newNode a).2 in
  (Workspace.nodeCreated measure newNode a).1 = None
  /\ exists d,
    Selection.cy (Workspace.view a') !! id newNode = Some d
    /\ isEdge d = false
    /\ name d = pname newNode
    /\ description d = pdescription newNode
    /\ Selection.selectedNodeId (Workspace.view a') = Some (id newNode)
    /\ Selection.panel (Workspace.view a')
       = Selection.mkDetailsPanel true false
           (Js.orElse (pname newNode) (Js.lit "Untitled"))
           (Js.orElse (pdescription newNode)
              (Js.lit "No description provided."))
           false false
    /\ Workspace.emptyWorkspaceHidden a' = true
    /\ (forall k d0,
          k <> id newNode ->
          Selection.cy (Workspace.view a) !! k = Some d0 ->
          Selection.cy (Workspace.view a') !! k = Some d0).
Proof.
  intros Hne Hnode a'.
  set (g := Selection.cy (Workspace.view a)) in *.
  set (out := mergeGraph measure
                (Some {| nodes := Some [newNode]; edges := Some [] |}) g).
  set (g' := graph out).
  assert (Hthrown : thrown out = None).
  { apply mergeGraph_completes. split.
    - intros n Hn. apply list_elem_of_singleton in Hn. by subst.
    - intros e He. inversion He. }
  assert (Hd : exists d,
            g' !! id newNode = Some d /\ isEdge d = false
            /\ name d = pname newNode
            /\ description d = pdescription newNode).
  { destruct (g !! id newNode) as [e |] eqn:E.
    - exists (setData (nodeObj measure newNode) e). split.
      + apply (mergeGraph_last measure g [] newNode [] (Some []) e E).
        intros n' Hn'. inversion Hn'.
      + split; [| done].
        rewrite (isEdge_sameEnds e) by apply sameEnds_setData. by apply Hnode.
    - exists (nodeData (nodeObj measure newNode)). split; [| done].
      apply (mergeGraph_first measure g [] newNode [] (Some []) E);
        [| exact Hthrown].
      intros n' Hn'. inversion Hn'. }
  destruct Hd as (d & Hd & He & Hname & Hdesc).
  unfold a', Workspace.nodeCreated. cbv zeta. fold g out g'.
  rewrite Hthrown. cbn [fst snd]. split; [done |]. exists d.
  set (v1 := Selection.mkView g' _ _ _ _).
  assert (Hsel : Selection.selectNodeById (Some (id newNode)) v1
                 = Selection.selectNode (Some [(id newNode, d)]) v1)
    by (by apply SelectionFacts.selectNodeById_node).
  rewrite Hsel, SelectionFacts.selectNode_node by done.
  unfold Workspace.updateEmptyStateMessage.
  cbn [Workspace.view Workspace.emptyWorkspaceHidden Selection.cy
       Selection.selectedNodeId Selection.panel v1].
  split; [exact Hd |]. split; [exact He |]. split; [exact Hname |].
  split; [exact Hdesc |]. split; [done |].
  split; [unfold Selection.panelFor; by rewrite Hname, Hdesc |]. split.
  - rewrite bool_decide_eq_false_2; [done |].
    by apply (WorkspaceFacts.nodesOf_lookup g' (id newNode) d).
  - intros k d0 Hk Hd0.
    destruct (mergeGraph_keeps measure g (Some [newNode]) (Some []) k d0 Hd0)
      as (e' & He' & _ & Hsame).
    fold out g' in He'. rewrite He'. f_equal. apply Hsame.
    intros n Hn. apply list_elem_of_singleton in Hn. by subst.
Qed.

Lemma nodeCreated_shows_and_selects_the_node_witness :
  let newNode :=
    mkPNode (Js.lit "c") (Some (Js.lit "Gamma")) None in
  let a' :=
    (Workspace.nodeCreated Samples.glyphMeasure newNode ViewSamples.appAB).2 in
  Selection.selectedNodeId (Workspace.view a') = Some (Js.lit "c")
  /\ Selection.detailName (Selection.panel (Workspace.view a'))
     = Js.lit "Gamma"
  /\ Selection.detailDescription (Selection.panel (Workspace.view a'))
     = Js.lit "No description provided.".
Proof.
  intros newNode a'.
  destruct (nodeCreated_shows_and_selects_the_node Samples.glyphMeasure
              newNode ViewSamples.appAB)
    as (_ & d & _ & _ & _ & _ & Hs & Hp & _).
  - vm_compute. discriminate.
  - intros d Hd. vm_compute in Hd. discriminate.
  - split; [exact Hs |]. fold a' in Hp. rewrite Hp. split; reflexivity.
Defined.

(** X23. The label of a node never goes stale. A merge keeps this
    property of a graph, whether the call throws or not: every element
    either is an edge without display name and font size, or has the display
    name and the font size that [computeNodeVisuals] gives for its present
    name. So in a graph built from the empty one by any sequence of merges
    every node is labelled with the fitted form of the name it has now, at
    font size 16. *)
Theorem mergeGraph_keeps_labels_fresh (measure : jsstr -> jsstr -> Q) :
  (forall (g : Core) (p : option GraphData),
     labelled measure g -> labelled measure (graph (mergeGraph measure p g)))
  /\ (forall (payloads : list (option GraphData)) k d,
        merges measure payloads ∅ !! k = Some d ->
        isEdge d = false ->
        displayName d
        = Some (TextMeasurer.nv_displayName
                  (TextMeasurer.computeNodeVisuals measure (name d)))
        /\ fontSize d = Some 16).
Proof.
  split.
  - intros g p. apply labelled_mergeGraph.
  - intros payloads k d Hk Hnode.
    destruct (labelled_merges measure payloads ∅ (labelled_empty measure)
                k d Hk) as [(Hedge & _) | [Hname Hsize]]; [congruence |].
    split; [exact Hname | exact Hsize].
Qed.

Lemma mergeGraph_keeps_labels_fresh_witness :
  let g : Core :=
    merges Samples.glyphMeasure
      [Samples.nodesAB; Samples.twoNamesOneId; Samples.twoNamesOneId] ∅ in
  exists d,
    g !! Js.lit "n" = Some d
    /\ name d = Some (Js.lit "B")
    /\ displayName d = Some (Js.lit "B").
Proof.
  intros g.
  assert (Hd : exists d, g !! Js.lit "n" = Some d
                         /\ name d = Some (Js.lit "B")
                         /\ isEdge d = false).
  { eexists. split; [vm_compute; reflexivity |]. split; reflexivity. }
  destruct Hd as (d & Hd & Hname & Hnode). exists d.
  split; [exact Hd |]. split; [exact Hname |].
  destruct (mergeGraph_keeps_labels_fresh Samples.glyphMeasure) as [_ H].
  destruct (H [Samples.nodesAB; Samples.twoNamesOneId; Samples.twoNamesOneId]
              (Js.lit "n") d Hd Hnode) as [Hlabel _].
  rewrite Hlabel, Hname. vm_compute. reflexivity.
Defined.

(** X24. While tasks run the overlay shows the message of the task that
    was started last. At every page the program can reach, the task message
    is the one given to the most recent [showLoading] (["Working…"] before
    the first), whether that task has ended or not; and while the task
    depth is positive the overlay is visible and shows that message. *)
Theorem overlay_shows_last_started_task (es : list Overlay.Event) :
  let p := Overlay.run Overlay.initialPage es in
  let last := default (Js.lit "Working…") (OverlayHistory.lastStarted es) in
  Overlay.taskMessage (Overlay.overlayState p) = last
  /\ (0 < Overlay.taskDepth (Overlay.overlayState p) ->
      Overlay.overlayHidden p = false /\ Overlay.overlayMessage p = last).
Proof.
  intros p last.
  pose proof (OverlayTimerFacts.run_taskMessage es) as Hm. fold p last in Hm.
  split; [exact Hm |]. intros Hdepth.
  destruct (OverlayFacts.shown_run es _ OverlayFacts.shown_initial)
    as (Htask & _).
  fold p in Htask. destruct (Htask Hdepth) as [Hh Hmsg].
  split; [exact Hh | congruence].
Qed.

Lemma overlay_shows_last_started_task_witness :
  let p := Overlay.run Overlay.initialPage
             [Overlay.ShowLoading (Js.lit "Loading workspace…");
              Overlay.ShowLoading (Js.lit "Creating node…");
              Overlay.HideLoading] in
  Overlay.overlayHidden p = false
  /\ Overlay.overlayMessage p = Js.lit "Creating node…".
Proof.
  intros p.
  destruct (overlay_shows_last_started_task
              [Overlay.ShowLoading (Js.lit "Loading workspace…");
               Overlay.ShowLoading (Js.lit "Creating node…");
               Overlay.HideLoading]) as [_ H].
  destruct H as [Hh Hm]; [vm_compute; reflexivity |].
  split; [exact Hh |]. etrans; [exact Hm | vm_compute; reflexivity].
Defined.
